(** * sfdk: property mutation engine and build-engine reconciliation

    A shallow embedding of the parts of [command.cpp] and [buildengine.cpp]
    that implement

    - the two-phase (prepare / apply) property engine behind
      [sfdk engine set], [sfdk emulator set] and [sfdk misc set], and
    - the reconciliation of cached build targets and build engines against
      freshly read data.

    C++ [int] values are integers of [Z]; no arithmetic in the modelled code
    can overflow (values are only compared, and indices only incremented by
    one).  [QString] is [string]; [QList] is [list]. *)

From Stdlib Require Import ZArith Bool Ascii String Lia.
From stdpp Require Import base option list strings gmap pretty sorting.

Local Open Scope Z_scope.

(** ** QString operations used by the code *)

Module QString.

Definition length (s : string) : Z := Z.of_nat (String.length s).

Definition isEmpty (s : string) : bool :=
  match s with EmptyString => true | String _ _ => false end.

(** [QString::indexOf(QChar)]: index of the first occurrence, or -1. *)
Fixpoint indexOfFrom (c : ascii) (s : string) (i : Z) : Z :=
  match s with
  | EmptyString => -1
  | String a s' => if Ascii.eqb a c then i else indexOfFrom c s' (i + 1)
  end.

Definition indexOf (c : ascii) (s : string) : Z := indexOfFrom c s 0.

Fixpoint take (n : nat) (s : string) : string :=
  match n, s with
  | O, _ => EmptyString
  | S _, EmptyString => EmptyString
  | S n', String a s' => String a (take n' s')
  end.

Fixpoint drop (n : nat) (s : string) : string :=
  match n, s with
  | O, _ => s
  | S _, EmptyString => EmptyString
  | S n', String _ s' => drop n' s'
  end.

(** [QString::left(n)]: the whole string when [n] is negative or not
    smaller than the size. *)
Definition left (n : Z) (s : string) : string :=
  if (n <? 0) || (length s <=? n) then s else take (Z.to_nat n) s.

(** [QString::mid(position)]: everything from [position] on; empty when
    [position] is past the end. *)
Definition mid (position : Z) (s : string) : string :=
  drop (Z.to_nat position) s.

Fixpoint endsWith (c : ascii) (s : string) : bool :=
  match s with
  | EmptyString => false
  | String a EmptyString => Ascii.eqb a c
  | String _ s' => endsWith c s'
  end.

(** [QString::chop(1)]: removes the last character. *)
Fixpoint chop1 (s : string) : string :=
  match s with
  | EmptyString => EmptyString
  | String _ EmptyString => EmptyString
  | String a s' => String a (chop1 s')
  end.

Definition startsWith (p s : string) : bool := String.prefix p s.

(** [QString::contains(QString)]. *)
Fixpoint contains (sub s : string) : bool :=
  String.prefix sub s ||
  match s with
  | EmptyString => false
  | String _ s' => contains sub s'
  end.

Definition isUpper (c : ascii) : bool :=
  let n := Z.of_nat (nat_of_ascii c) in (65 <=? n) && (n <=? 90).

Definition toLowerChar (c : ascii) : ascii :=
  if isUpper c then ascii_of_nat (nat_of_ascii c + 32) else c.

(** [QString(property).replace(QRegularExpression("([A-Z])"), "-\\1").toLower()]
    on ASCII text: every capital letter becomes a hyphen followed by its
    lower-case form. *)
Fixpoint camelToHyphenated (s : string) : string :=
  match s with
  | EmptyString => EmptyString
  | String a s' =>
      if isUpper a then String "-"%char (String (toLowerChar a) (camelToHyphenated s'))
      else String a (camelToHyphenated s')
  end.

Definition isSpace (c : ascii) : bool :=
  let n := nat_of_ascii c in
  (Nat.eqb n 32 || (Nat.leb 9 n && Nat.leb n 13))%bool.

(** Splitting with [Qt::SkipEmptyParts] at the characters chosen by
    [sep]. *)
Fixpoint splitAcc (sep : ascii → bool) (s : string) (cur : string) : list string :=
  match s with
  | EmptyString => if isEmpty cur then [] else [cur]
  | String a s' =>
      if sep a
      then (if isEmpty cur then splitAcc sep s' EmptyString
            else cur :: splitAcc sep s' EmptyString)
      else splitAcc sep s' (cur +:+ String a EmptyString)
  end.

Definition split (sep : ascii → bool) (s : string) : list string :=
  splitAcc sep s EmptyString.

Fixpoint dropWhileSpace (s : string) : string :=
  match s with
  | String a s' => if isSpace a then dropWhileSpace s' else s
  | EmptyString => EmptyString
  end.

Fixpoint dropTrailingSpace (s : string) : string :=
  match s with
  | EmptyString => EmptyString
  | String a s' =>
      let r := dropTrailingSpace s' in
      if isSpace a && isEmpty r then EmptyString else String a r
  end.

Definition trimmed (s : string) : string := dropTrailingSpace (dropWhileSpace s).

Definition join (sep : string) (l : list string) : string :=
  match l with
  | [] => EmptyString
  | x :: xs => fold_left (fun acc y => acc +:+ sep +:+ y) xs x
  end.

(** The double-quote character, as a one-character string. *)
Definition dquote : string := String (ascii_of_nat 34) EmptyString.

Definition quoted (s : string) : string := dquote +:+ s +:+ dquote.

End QString.

(** ** What the code takes from its surroundings

    [QString::toInt] is Qt's; the amount of host memory and the number of
    host CPUs come from [VirtualMachine::availableMemorySizeMb] and
    [VirtualMachine::availableCpuCount]; URL, host-name and device-model
    validity from [QUrl] and [Sdk::deviceModel].  None of them is defined in
    the modelled files, so the development is parametric in them. *)

Class Host := {
  (** [string.toInt(&ok)]: [None] when [ok] comes back false (Qt then
      returns 0). *)
  toInt : string → option Z;
  availableMemorySizeMb : Z;
  availableCpuCount : Z;
  (** [QUrl::fromUserInput(url).isValid()] *)
  urlFromUserInputIsValid : string → bool;
  (** [QUrl url; url.setHost(value); url.isValid()] *)
  hostNameIsValid : string → bool;
  (** [Sdk::deviceModel(value).isValid()] *)
  deviceModelIsValid : string → bool;
  (** [Constants::WWW_PROXY_DISABLED], [WWW_PROXY_AUTOMATIC] and
      [WWW_PROXY_MANUAL], from [sfdkconstants.h] *)
  WWW_PROXY_DISABLED : string;
  WWW_PROXY_AUTOMATIC : string;
  WWW_PROXY_MANUAL : string;
}.

(** A host used to run the definitions on concrete inputs: decimal
    integers with an optional sign, within the range of a 32-bit [int]. *)
Module ReferenceHost.

Definition digit (c : ascii) : option Z :=
  let n := Z.of_nat (nat_of_ascii c) in
  if (48 <=? n) && (n <=? 57) then Some (n - 48) else None.

Fixpoint digits (s : string) (acc : Z) : option Z :=
  match s with
  | EmptyString => Some acc
  | String a s' =>
      match digit a with
      | Some d => digits s' (10 * acc + d)
      | None => None
      end
  end.

Definition unsignedDecimal (s : string) : option Z :=
  match s with
  | EmptyString => None
  | _ => digits s 0
  end.

Definition inIntRange (n : Z) : option Z :=
  if (-2147483648 <=? n) && (n <=? 2147483647) then Some n else None.

Definition decimalToInt (s : string) : option Z :=
  match s with
  | String "-"%char s' => n ← unsignedDecimal s'; inIntRange (- n)
  | String "+"%char s' => n ← unsignedDecimal s'; inIntRange n
  | _ => n ← unsignedDecimal s; inIntRange n
  end.

Definition noSpace (s : string) : bool :=
  negb (QString.isEmpty s) && negb (QString.contains " " s).

Definition host : Host := {|
  toInt := decimalToInt;
  availableMemorySizeMb := 16384;
  availableCpuCount := 8;
  urlFromUserInputIsValid := noSpace;
  hostNameIsValid := noSpace;
  deviceModelIsValid := fun s => bool_decide (s = "Xperia X"%string);
  WWW_PROXY_DISABLED := "disabled";
  WWW_PROXY_AUTOMATIC := "automatic";
  WWW_PROXY_MANUAL := "manual";
|}.

End ReferenceHost.

(** [QString::number(int)] is Qt's as well. *)
Class Numbers := {
  number : Z → string;
}.

(** Decimal notation, with a minus sign for negative numbers. *)
Module ReferenceNumbers.
Definition numbers : Numbers := {| number := pretty |}.
End ReferenceNumbers.

(** ** The virtual machine, as the accessors see it *)

(** [VirtualMachine::Feature] flags the accessors test. *)
Inductive Feature :=
  | LimitMemorySize | SwapMemory | GrowStorageSize | ShrinkStorageSize
  | OptionalHeadless | Snapshots.

#[global] Instance Feature_eq_dec : EqDecision Feature.
Proof. solve_decision. Defined.

(** The getters of [VirtualMachine] the accessors read.  [features] is the
    flag set; [m_vm->features() & VirtualMachine::F] is [hasFeature F]. *)
Record VirtualMachine := {
  features : list Feature;
  memorySizeMb : Z;
  swapSizeMb : Z;
  cpuCount : Z;
  storageSizeMb : Z;
  freeStorageSizeMb : Z;
  (** [sshParameters().timeout] *)
  sshTimeout : Z;
}.

Definition hasFeature (f : Feature) (vm : VirtualMachine) : bool :=
  bool_decide (f ∈ features vm).

(** [Qt::Orientation] *)
Inductive Orientation := Vertical | Horizontal.

#[global] Instance Orientation_eq_dec : EqDecision Orientation.
Proof. solve_decision. Defined.

(** ** PropertiesAccessor *)

Inductive PrepareResult := Ignored | Prepared | Failed.

#[global] Instance PrepareResult_eq_dec : EqDecision PrepareResult.
Proof. solve_decision. Defined.

(** The property groups an accessor is made of. *)
Inductive Group := VmGroup | EmulatorGroup | EngineGroup | SdkGroup.

#[global] Instance Group_eq_dec : EqDecision Group.
Proof. solve_decision. Defined.

(** The two out-parameters of [prepareSet], [*needsVmOff] and
    [*errorString], and a ghost field [consulted]: the groups whose
    [prepareSet] has been entered, oldest first. *)
Record Out := {
  needsVmOff : bool;
  errorString : string;
  consulted : list Group;
}.

Definition setNeedsVmOff (b : bool) (o : Out) : Out :=
  {| needsVmOff := b; errorString := errorString o; consulted := consulted o |}.

Definition setError (e : string) (o : Out) : Out :=
  {| needsVmOff := needsVmOff o; errorString := e; consulted := consulted o |}.

Definition enter (g : Group) (o : Out) : Out :=
  {| needsVmOff := needsVmOff o; errorString := errorString o;
     consulted := consulted o ++ [g] |}.

Module PropertiesAccessor.

Definition valueTooBigMessage : string := "Value too big".
Definition valueCannotBeDecreasedMessage : string := "Value cannot be decreased".
Definition valueCannotBeIncreasedMessage : string := "Value cannot be increased".
Definition valueEmptyMessage : string := "Unexpected empty string".
Definition unknownPropertyMessage : string := "Unrecognized property".
Definition readOnlyPropertyMessage : string := "Read-only property".

Definition positiveIntExpectedMessage (s : string) : string :=
  "Positive integer expected: " +:+ QString.quoted s.

Definition nonNegativeIntExpectedMessage (s : string) : string :=
  "Non-negative integer expected: " +:+ QString.quoted s.

Definition privilegedPortMessage : string := "Privileged ports may not be used".

Section Parsers.
Context `{Host}.

(** What [string.toInt(&ok)] returns. *)
Definition toIntValue (s : string) : Z := default 0 (toInt s).
Definition toIntOk (s : string) : bool := bool_decide (is_Some (toInt s)).

(** [parsePositiveInt(out, string, errorString)]: the result, the new
    [*out] (written also on failure) and the out-parameters. *)
Definition parsePositiveInt (s : string) (o : Out) : bool * Z * Out :=
  let out := toIntValue s in
  if negb (toIntOk s) || (out <=? 0)
  then (false, out, setError (positiveIntExpectedMessage s) o)
  else (true, out, o).

Definition parseNonNegativeInt (s : string) (o : Out) : bool * Z * Out :=
  let out := toIntValue s in
  if negb (toIntOk s) || (out <? 0)
  then (false, out, setError (nonNegativeIntExpectedMessage s) o)
  else (true, out, o).

(** [parsePortNumber(out, string, errorString)]; [*out] is written on
    success only, so its old value [old] is passed in. *)
Definition parsePortNumber (old : Z) (s : string) (o : Out) : bool * Z * Out :=
  let '(ok, asInt, o) := parsePositiveInt s o in
  if negb ok then (false, old, o)
  else if asInt >? 65535 then (false, old, setError valueTooBigMessage o)
  else if asInt <? 1024 then (false, old, setError privilegedPortMessage o)
  else (true, asInt, o).
End Parsers.

(** [booleanDictionary()] and [orientationDictionary()] *)
Definition booleanDictionary : list (bool * string) :=
  [(true, "yes"%string); (false, "no"%string)].

Definition orientationDictionary : list (Orientation * string) :=
  [(Vertical, "portrait"%string); (Horizontal, "landscape"%string)].

Definition oneOfExpectedMessage {T} (dictionary : list (T * string)) (s : string) : string :=
  "One of " +:+ QString.join "/" (snd <$> dictionary) +:+ " expected. Got: "
    +:+ QString.quoted s.

(** [parseWithDictionary]: [*out] is written on success only. *)
Definition parseWithDictionary {T} (dictionary : list (T * string)) (old : T)
    (s : string) (o : Out) : bool * T * Out :=
  match List.find (fun item => String.eqb (snd item) s) dictionary with
  | None => (false, old, setError (oneOfExpectedMessage dictionary s) o)
  | Some item => (true, fst item, o)
  end.

Definition parseBoolean := parseWithDictionary booleanDictionary.
Definition parseOrientation := parseWithDictionary orientationDictionary.

(** [showWithDictionary]: the null string when the value has no entry
    (the [QTC_ASSERT] that returns). *)
Definition showWithDictionary {T} `{EqDecision T} (dictionary : list (T * string))
    (value : T) : string :=
  match List.find (fun item => bool_decide (fst item = value)) dictionary with
  | None => EmptyString
  | Some item => snd item
  end.

Definition showBoolean : bool → string := showWithDictionary booleanDictionary.
Definition showOrientation : Orientation → string :=
  showWithDictionary orientationDictionary.

End PropertiesAccessor.

(** Property names *)
Definition EMULATOR_DEVICE_MODEL : string := "device-model".
Definition EMULATOR_ORIENTATION : string := "orientation".
Definition EMULATOR_DOWNSCALE : string := "downscale".
Definition EMULATOR_SSH_PORT : string := "ssh.port".
Definition EMULATOR_SSH_TIMEOUT : string := "ssh.timeout".
Definition ENGINE_HOST_NAME : string := "host-name".
Definition ENGINE_BUILD_ENVIRONMENT_FILTER : string := "environment.forward".
Definition ENGINE_SSH_PORT : string := "ssh.port".
Definition ENGINE_SSH_TIMEOUT : string := "ssh.timeout".
Definition ENGINE_DBUS_PORT : string := "dbus.port".
Definition WWW_PROXY_TYPE : string := "proxy".
Definition WWW_PROXY_SERVERS : string := "proxy.servers".
Definition WWW_PROXY_EXCLUDES : string := "proxy.excludes".
Definition VM_MEMORY_SIZE_MB : string := "vm.memory-size".
Definition VM_SWAP_SIZE_MB : string := "vm.swap-size".
Definition VM_CPU_COUNT : string := "vm.cpu-count".
Definition VM_STORAGE_SIZE_MB : string := "vm.storage-size".
Definition VM_FREE_STORAGE_SIZE_MB : string := "vm.free-storage-size".

(** ** Apply: the setters and the world they act on

    The setters of [VirtualMachine], [Emulator], [BuildEngine] and [Sdk] are
    not part of the modelled files.  An invocation is recorded as a [Call];
    the getters keep returning the configuration read when the accessor was
    built. *)

Inductive Call :=
  | VmSetMemorySizeMb (memorySizeMb : Z)
  | VmSetSwapSizeMb (swapSizeMb : Z)
  | VmSetCpuCount (cpuCount : Z)
  | VmSetStorageSizeMb (storageSizeMb : Z)
  | VmReserveStorageSizeMb (freeSizeMb incrementMb : Z)
  | VmSetSshTimeout (timeout : Z)
  | VmLockDown (lockDown : bool)
  | EmulatorSetDisplayProperties (deviceModel : string) (orientation : Orientation)
      (viewScaled : bool)
  | EmulatorSetSshPort (port : Z)
  | EngineSetSshPort (port : Z)
  | EngineSetDBusPort (port : Z)
  | EngineSetWwwProxy (type servers excludes : string)
  | SdkSetCustomBuildHostName (hostName : string)
  | SdkSetBuildEnvironmentFilter (filter : list string).

#[global] Instance Call_eq_dec : EqDecision Call.
Proof. solve_decision. Defined.

(** What the surroundings answer while a [set] command runs. *)
Record World := {
  (** the [bool] an asynchronous setter completes with *)
  stepOk : Call → bool;
  (** [qEnvironmentVariableIntValue(Constants::SFDK_AUTO_STOP_VMS_ENV_VAR)] *)
  autoStopVms : Z;
  (** [SdkManager::isRunningReliably(m_virtualMachine)] *)
  isRunningReliably : bool;
}.

(** [execAsynchronous(std::tie(stepOk), setter, ...); ok &= stepOk;] on the
    pair of [ok] and the calls made so far. *)
Definition execStep (w : World) (c : Call) (r : bool * list Call) : bool * list Call :=
  (r.1 && stepOk w c, r.2 ++ [c]).

(** A setter that returns nothing. *)
Definition callStep (c : Call) (r : bool * list Call) : bool * list Call :=
  (r.1, r.2 ++ [c]).

Module VirtualMachinePropertiesAccessor.
Import PropertiesAccessor.

Record t := {
  m_vm : VirtualMachine;
  m_memorySizeMb : Z;
  m_swapSizeMb : Z;
  m_cpuCount : Z;
  m_storageSizeMb : Z;
  m_freeSizeMb : Z;
  m_incrementMb : Z;
}.

(** The constructor. *)
Definition create (vm : VirtualMachine) : t := {|
  m_vm := vm;
  m_memorySizeMb := memorySizeMb vm;
  m_swapSizeMb := swapSizeMb vm;
  m_cpuCount := cpuCount vm;
  m_storageSizeMb := storageSizeMb vm;
  m_freeSizeMb := 0;
  m_incrementMb := 0;
|}.

Definition withMemorySizeMb (n : Z) (a : t) : t :=
  {| m_vm := m_vm a; m_memorySizeMb := n; m_swapSizeMb := m_swapSizeMb a;
     m_cpuCount := m_cpuCount a; m_storageSizeMb := m_storageSizeMb a;
     m_freeSizeMb := m_freeSizeMb a; m_incrementMb := m_incrementMb a |}.

Definition withSwapSizeMb (n : Z) (a : t) : t :=
  {| m_vm := m_vm a; m_memorySizeMb := m_memorySizeMb a; m_swapSizeMb := n;
     m_cpuCount := m_cpuCount a; m_storageSizeMb := m_storageSizeMb a;
     m_freeSizeMb := m_freeSizeMb a; m_incrementMb := m_incrementMb a |}.

Definition withCpuCount (n : Z) (a : t) : t :=
  {| m_vm := m_vm a; m_memorySizeMb := m_memorySizeMb a; m_swapSizeMb := m_swapSizeMb a;
     m_cpuCount := n; m_storageSizeMb := m_storageSizeMb a;
     m_freeSizeMb := m_freeSizeMb a; m_incrementMb := m_incrementMb a |}.

Definition withStorageSizeMb (n : Z) (a : t) : t :=
  {| m_vm := m_vm a; m_memorySizeMb := m_memorySizeMb a; m_swapSizeMb := m_swapSizeMb a;
     m_cpuCount := m_cpuCount a; m_storageSizeMb := n;
     m_freeSizeMb := m_freeSizeMb a; m_incrementMb := m_incrementMb a |}.

Definition withFreeSizeMb (n : Z) (a : t) : t :=
  {| m_vm := m_vm a; m_memorySizeMb := m_memorySizeMb a; m_swapSizeMb := m_swapSizeMb a;
     m_cpuCount := m_cpuCount a; m_storageSizeMb := m_storageSizeMb a;
     m_freeSizeMb := n; m_incrementMb := m_incrementMb a |}.

Definition withIncrementMb (n : Z) (a : t) : t :=
  {| m_vm := m_vm a; m_memorySizeMb := m_memorySizeMb a; m_swapSizeMb := m_swapSizeMb a;
     m_cpuCount := m_cpuCount a; m_storageSizeMb := m_storageSizeMb a;
     m_freeSizeMb := m_freeSizeMb a; m_incrementMb := n |}.

Definition stepSmallerThanSizeMessage : string :=
  "<step> cannot be smaller than <size>".
Definition freeSizeUnknownMessage : string :=
  "Failed to determine current free storage size".

Section WithHost.
Context `{Host}.

(** The end of the [VM_FREE_STORAGE_SIZE_MB] branch, from
    [int currentFreeSizeMb = m_vm->freeStorageSizeMb();] on. *)
Definition prepareReserve (o : Out) (a : t) : PrepareResult * Out * t :=
  let currentFreeSizeMb := freeStorageSizeMb (m_vm a) in
  if currentFreeSizeMb <? 0 then (Failed, setError freeSizeUnknownMessage o, a)
  else if m_freeSizeMb a <=? currentFreeSizeMb
       then (Prepared, setNeedsVmOff false o, withFreeSizeMb 0 a)
       else (Prepared, o, a).

Definition prepareSet (name value : string) (o : Out) (a : t)
    : PrepareResult * Out * t :=
  let o := setNeedsVmOff true (enter VmGroup o) in
  if String.eqb name VM_MEMORY_SIZE_MB then
    if negb (hasFeature LimitMemorySize (m_vm a))
    then (Failed, setError readOnlyPropertyMessage o, a)
    else
      let '(ok, n, o) := parsePositiveInt value o in
      let a := withMemorySizeMb n a in
      if negb ok then (Failed, o, a)
      else if m_memorySizeMb a >? availableMemorySizeMb
           then (Failed, setError valueTooBigMessage o, a)
           else (Prepared, o, a)
  else if String.eqb name VM_SWAP_SIZE_MB && hasFeature SwapMemory (m_vm a) then
    let '(ok, n, o) := parseNonNegativeInt value o in
    let a := withSwapSizeMb n a in
    if negb ok then (Failed, o, a)
    else if m_swapSizeMb a >? m_storageSizeMb a
         then (Failed, setError valueTooBigMessage o, a)
         else (Prepared, o, a)
  else if String.eqb name VM_CPU_COUNT then
    if negb (hasFeature LimitMemorySize (m_vm a))
    then (Failed, setError readOnlyPropertyMessage o, a)
    else
      let '(ok, n, o) := parsePositiveInt value o in
      let a := withCpuCount n a in
      if negb ok then (Failed, o, a)
      else if m_cpuCount a >? availableCpuCount
           then (Failed, setError valueTooBigMessage o, a)
           else (Prepared, o, a)
  else if String.eqb name VM_STORAGE_SIZE_MB then
    let '(ok, n, o) := parsePositiveInt value o in
    let a := withStorageSizeMb n a in
    if negb ok then (Failed, o, a)
    else if (m_storageSizeMb a <? storageSizeMb (m_vm a))
            && negb (hasFeature ShrinkStorageSize (m_vm a))
         then (Failed, setError valueCannotBeDecreasedMessage o, a)
    else if (m_storageSizeMb a >? storageSizeMb (m_vm a))
            && negb (hasFeature GrowStorageSize (m_vm a))
         then (Failed, setError valueCannotBeIncreasedMessage o, a)
    else (Prepared, o, a)
  else if String.eqb name VM_FREE_STORAGE_SIZE_MB then
    let commaIndex := QString.indexOf ","%char value in
    let freeSize := QString.left commaIndex value in
    if negb (QString.endsWith "+"%char freeSize)
    then (Failed, setError valueCannotBeDecreasedMessage o, a)
    else
      let freeSize := QString.chop1 freeSize in
      let '(ok, n, o) := parsePositiveInt freeSize o in
      let a := withFreeSizeMb n a in
      if negb ok then (Failed, o, a)
      else if commaIndex >? 0 then
        let '(ok, n, o) := parsePositiveInt (QString.mid (commaIndex + 1) value) o in
        let a := withIncrementMb n a in
        if negb ok then (Failed, o, a)
        else if m_incrementMb a <? m_freeSizeMb a
             then (Failed, setError stepSmallerThanSizeMessage o, a)
             else prepareReserve o a
      else prepareReserve o a
  else (Ignored, setError unknownPropertyMessage o, a).
End WithHost.

Definition set (w : World) (a : t) : bool * list Call :=
  let vm := m_vm a in
  let r := (true, []) in
  let r := if negb (m_memorySizeMb a =? memorySizeMb vm)
           then execStep w (VmSetMemorySizeMb (m_memorySizeMb a)) r else r in
  let r := if negb (m_swapSizeMb a =? swapSizeMb vm) && hasFeature SwapMemory vm
           then execStep w (VmSetSwapSizeMb (m_swapSizeMb a)) r else r in
  let r := if negb (m_cpuCount a =? cpuCount vm)
           then execStep w (VmSetCpuCount (m_cpuCount a)) r else r in
  let r := if negb (m_storageSizeMb a =? storageSizeMb vm)
           then execStep w (VmSetStorageSizeMb (m_storageSizeMb a)) r else r in
  if m_freeSizeMb a >? 0
  then
    let c := VmReserveStorageSizeMb (m_freeSizeMb a) (m_incrementMb a) in
    (stepOk w c, r.2 ++ [c])
  else r.

(** [get]: the properties [show] lists, with their staged values. *)
Definition get `{Numbers} (a : t) : gmap string string :=
  let values : gmap string string := ∅ in
  let values := <[VM_MEMORY_SIZE_MB := number (m_memorySizeMb a)]> values in
  let values := if hasFeature SwapMemory (m_vm a)
                then <[VM_SWAP_SIZE_MB := number (m_swapSizeMb a)]> values
                else values in
  let values := <[VM_CPU_COUNT := number (m_cpuCount a)]> values in
  let values := <[VM_STORAGE_SIZE_MB := number (m_storageSizeMb a)]> values in
  values.

End VirtualMachinePropertiesAccessor.

Module SdkPropertiesAccessor.
Import PropertiesAccessor.

(** The proxy configuration of [SdkManager::engine()]. *)
Record Proxy := {
  wwwProxyType : string;
  wwwProxyServers : string;
  wwwProxyExcludes : string;
}.

Record t := {
  engine : Proxy;
  m_wwwProxyType : string;
  m_wwwProxyServers : string;
  m_wwwProxyExcludes : string;
}.

Definition create (e : Proxy) : t := {|
  engine := e;
  m_wwwProxyType := wwwProxyType e;
  m_wwwProxyServers := wwwProxyServers e;
  m_wwwProxyExcludes := wwwProxyExcludes e;
|}.

Definition notValidUrlMessage (url : string) : string :=
  "Not a valid URL: " +:+ QString.quoted url.
Definition invalidProxyTypeMessage (value : string) : string :=
  "Invalid proxy type: " +:+ QString.quoted value.

Section WithHost.
Context `{Host}.

(** The [validateUrls] lambda: the first invalid item, if any. *)
Definition validateUrls (urls : string) (o : Out) : bool * Out :=
  match List.find (fun url => negb (urlFromUserInputIsValid url))
                  (QString.split (Ascii.eqb " ") urls) with
  | Some url => (false, setError (notValidUrlMessage url) o)
  | None => (true, o)
  end.

Definition prepareSet (name value : string) (o : Out) (a : t)
    : PrepareResult * Out * t :=
  let o := setNeedsVmOff false (enter SdkGroup o) in
  if String.eqb name WWW_PROXY_TYPE then
    if negb (String.eqb value WWW_PROXY_DISABLED)
       && negb (String.eqb value WWW_PROXY_AUTOMATIC)
       && negb (String.eqb value WWW_PROXY_MANUAL)
    then (Failed, setError (invalidProxyTypeMessage value) o, a)
    else (Prepared, o,
          {| engine := engine a; m_wwwProxyType := value;
             m_wwwProxyServers := m_wwwProxyServers a;
             m_wwwProxyExcludes := m_wwwProxyExcludes a |})
  else if String.eqb name WWW_PROXY_SERVERS then
    let '(ok, o) := validateUrls value o in
    if negb ok then (Failed, o, a)
    else (Prepared, o,
          {| engine := engine a; m_wwwProxyType := m_wwwProxyType a;
             m_wwwProxyServers := QString.trimmed value;
             m_wwwProxyExcludes := m_wwwProxyExcludes a |})
  else if String.eqb name WWW_PROXY_EXCLUDES then
    let '(ok, o) := validateUrls value o in
    if negb ok then (Failed, o, a)
    else (Prepared, o,
          {| engine := engine a; m_wwwProxyType := m_wwwProxyType a;
             m_wwwProxyServers := m_wwwProxyServers a;
             m_wwwProxyExcludes := QString.trimmed value |})
  else (Ignored, setError unknownPropertyMessage o, a).

Definition serversRequiredMessage (type : string) : string :=
  "The value of " +:+ QString.quoted WWW_PROXY_SERVERS
    +:+ " must not be empty when " +:+ QString.quoted WWW_PROXY_TYPE
    +:+ " is set to " +:+ QString.quoted type.

Definition canSet (errorString : string) (a : t) : bool * string :=
  if (String.eqb (m_wwwProxyType a) WWW_PROXY_MANUAL
      || String.eqb (m_wwwProxyType a) WWW_PROXY_AUTOMATIC)
     && QString.isEmpty (m_wwwProxyServers a)
  then (false, serversRequiredMessage (m_wwwProxyType a))
  else (true, errorString).
End WithHost.

(** [set], with a build engine present ([SdkManager::hasEngine()], which
    the command has checked before it builds the task). *)
Definition set (w : World) (a : t) : bool * list Call :=
  if negb (String.eqb (m_wwwProxyType a) (wwwProxyType (engine a)))
     || negb (String.eqb (m_wwwProxyServers a) (wwwProxyServers (engine a)))
     || negb (String.eqb (m_wwwProxyExcludes a) (wwwProxyExcludes (engine a)))
  then (true, [EngineSetWwwProxy (m_wwwProxyType a) (m_wwwProxyServers a)
                 (m_wwwProxyExcludes a)])
  else (true, []).

Definition get (a : t) : gmap string string :=
  let values : gmap string string := ∅ in
  let values := <[WWW_PROXY_TYPE := m_wwwProxyType a]> values in
  let values := <[WWW_PROXY_SERVERS := m_wwwProxyServers a]> values in
  let values := <[WWW_PROXY_EXCLUDES := m_wwwProxyExcludes a]> values in
  values.

End SdkPropertiesAccessor.

(** The getters of [Emulator] the accessor reads. *)
Record Emulator := {
  emulatorVirtualMachine : VirtualMachine;
  (** [deviceModel().name] *)
  deviceModelName : string;
  orientation : Orientation;
  isViewScaled : bool;
  emulatorSshPort : Z;
}.

Module EmulatorPropertiesAccessor.
Import PropertiesAccessor.

Record t := {
  m_emulator : Emulator;
  m_vmAccessor : VirtualMachinePropertiesAccessor.t;
  m_deviceModel : string;
  m_orientation : Orientation;
  m_downscale : bool;
  m_sshPort : Z;
  m_sshTimeout : Z;
}.

Definition create (emulator : Emulator) : t := {|
  m_emulator := emulator;
  m_vmAccessor := VirtualMachinePropertiesAccessor.create (emulatorVirtualMachine emulator);
  m_deviceModel := deviceModelName emulator;
  m_orientation := orientation emulator;
  m_downscale := isViewScaled emulator;
  m_sshPort := emulatorSshPort emulator;
  m_sshTimeout := sshTimeout (emulatorVirtualMachine emulator);
|}.

Definition withVmAccessor (v : VirtualMachinePropertiesAccessor.t) (a : t) : t :=
  {| m_emulator := m_emulator a; m_vmAccessor := v; m_deviceModel := m_deviceModel a;
     m_orientation := m_orientation a; m_downscale := m_downscale a;
     m_sshPort := m_sshPort a; m_sshTimeout := m_sshTimeout a |}.

Definition withDeviceModel (x : string) (a : t) : t :=
  {| m_emulator := m_emulator a; m_vmAccessor := m_vmAccessor a; m_deviceModel := x;
     m_orientation := m_orientation a; m_downscale := m_downscale a;
     m_sshPort := m_sshPort a; m_sshTimeout := m_sshTimeout a |}.

Definition withOrientation (x : Orientation) (a : t) : t :=
  {| m_emulator := m_emulator a; m_vmAccessor := m_vmAccessor a;
     m_deviceModel := m_deviceModel a;
     m_orientation := x; m_downscale := m_downscale a;
     m_sshPort := m_sshPort a; m_sshTimeout := m_sshTimeout a |}.

Definition withDownscale (x : bool) (a : t) : t :=
  {| m_emulator := m_emulator a; m_vmAccessor := m_vmAccessor a;
     m_deviceModel := m_deviceModel a;
     m_orientation := m_orientation a; m_downscale := x;
     m_sshPort := m_sshPort a; m_sshTimeout := m_sshTimeout a |}.

Definition withSshPort (x : Z) (a : t) : t :=
  {| m_emulator := m_emulator a; m_vmAccessor := m_vmAccessor a;
     m_deviceModel := m_deviceModel a;
     m_orientation := m_orientation a; m_downscale := m_downscale a;
     m_sshPort := x; m_sshTimeout := m_sshTimeout a |}.

Definition withSshTimeout (x : Z) (a : t) : t :=
  {| m_emulator := m_emulator a; m_vmAccessor := m_vmAccessor a;
     m_deviceModel := m_deviceModel a;
     m_orientation := m_orientation a; m_downscale := m_downscale a;
     m_sshPort := m_sshPort a; m_sshTimeout := x |}.

Definition noSuchDeviceModelMessage (value : string) : string :=
  "No such device model: " +:+ QString.quoted value.

Section WithHost.
Context `{Host}.

Definition prepareSetOther (name value : string) (o : Out) (a : t)
    : PrepareResult * Out * t :=
  let o := setNeedsVmOff true (enter EmulatorGroup o) in
  if String.eqb name EMULATOR_DEVICE_MODEL then
    if QString.isEmpty value then (Failed, setError valueEmptyMessage o, a)
    else if negb (deviceModelIsValid value)
         then (Failed, setError (noSuchDeviceModelMessage value) o, a)
         else (Prepared, o, withDeviceModel value a)
  else if String.eqb name EMULATOR_ORIENTATION then
    let '(ok, x, o) := parseOrientation (m_orientation a) value o in
    if negb ok then (Failed, o, withOrientation x a)
    else (Prepared, o, withOrientation x a)
  else if String.eqb name EMULATOR_DOWNSCALE then
    let '(ok, x, o) := parseBoolean (m_downscale a) value o in
    if negb ok then (Failed, o, withDownscale x a)
    else (Prepared, o, withDownscale x a)
  else if String.eqb name EMULATOR_SSH_PORT then
    let '(ok, x, o) := parsePortNumber (m_sshPort a) value o in
    if negb ok then (Failed, o, withSshPort x a)
    else (Prepared, setNeedsVmOff true o, withSshPort x a)
  else if String.eqb name EMULATOR_SSH_TIMEOUT then
    let '(ok, x, o) := parsePositiveInt value o in
    if negb ok then (Failed, o, withSshTimeout x a)
    else (Prepared, o, withSshTimeout x a)
  else (Ignored, setError unknownPropertyMessage o, a).

(** [if (auto result = ...) return result;] returns whatever is not
    [Ignored]. *)
Definition prepareSet (name value : string) (o : Out) (a : t)
    : PrepareResult * Out * t :=
  let '(result, o, v) :=
    VirtualMachinePropertiesAccessor.prepareSet name value o (m_vmAccessor a) in
  let a := withVmAccessor v a in
  match result with
  | Ignored =>
      let '(result, o, a) := prepareSetOther name value o a in
      match result with
      | Ignored => (Ignored, o, a)
      | _ => (result, o, a)
      end
  | _ => (result, o, a)
  end.
End WithHost.

Definition setOthers (w : World) (a : t) : bool * list Call :=
  let e := m_emulator a in
  let r := (true, []) in
  let r := if negb (String.eqb (m_deviceModel a) (deviceModelName e))
              || negb (bool_decide (m_orientation a = orientation e))
              || negb (Bool.eqb (m_downscale a) (isViewScaled e))
           then execStep w (EmulatorSetDisplayProperties (m_deviceModel a)
                              (m_orientation a) (m_downscale a)) r
           else r in
  let r := if negb (m_sshPort a =? emulatorSshPort e)
           then execStep w (EmulatorSetSshPort (m_sshPort a)) r else r in
  let r := if negb (m_sshTimeout a =? sshTimeout (emulatorVirtualMachine e))
           then callStep (VmSetSshTimeout (m_sshTimeout a)) r else r in
  r.

(** [return m_vmAccessor->set() && setOthers();] *)
Definition set (w : World) (a : t) : bool * list Call :=
  let '(ok, calls) := VirtualMachinePropertiesAccessor.set w (m_vmAccessor a) in
  if ok then
    let '(ok', calls') := setOthers w a in (ok', calls ++ calls')
  else (false, calls).

(** [getOthers]; [iKnowWhatIAmDoing] is
    [qEnvironmentVariableIntValue(Constants::I_KNOW_WHAT_I_AM_DOING_ENV_VAR)]. *)
Definition getOthers `{Numbers} (iKnowWhatIAmDoing : Z) (a : t) : gmap string string :=
  let values : gmap string string := ∅ in
  let values := <[EMULATOR_DEVICE_MODEL := m_deviceModel a]> values in
  let values := <[EMULATOR_ORIENTATION := showOrientation (m_orientation a)]> values in
  let values := <[EMULATOR_DOWNSCALE := showBoolean (m_downscale a)]> values in
  let values :=
    if negb (iKnowWhatIAmDoing =? 0)
    then <[EMULATOR_SSH_TIMEOUT := number (m_sshTimeout a)]>
           (<[EMULATOR_SSH_PORT := number (m_sshPort a)]> values)
    else values in
  values.

(** [m_vmAccessor->get().unite(getOthers())]; no key of one map is a key
    of the other, so that [unite] is the union. *)
Definition get `{Numbers} (iKnowWhatIAmDoing : Z) (a : t) : gmap string string :=
  VirtualMachinePropertiesAccessor.get (m_vmAccessor a) ∪ getOthers iKnowWhatIAmDoing a.

End EmulatorPropertiesAccessor.

(** The getters of [BuildEngine] and of [Sdk] the accessor reads. *)
Record BuildEngine := {
  engineVirtualMachine : VirtualMachine;
  engineSshPort : Z;
  engineDBusPort : Z;
  (** [Sdk::effectiveBuildHostName()] *)
  effectiveBuildHostName : string;
  (** [Sdk::buildEnvironmentFilter()] *)
  buildEnvironmentFilter : list string;
}.

Module BuildEnginePropertiesAccessor.
Import PropertiesAccessor.

Record t := {
  m_engine : BuildEngine;
  m_vmAccessor : VirtualMachinePropertiesAccessor.t;
  m_hostName : string;
  m_hostNameChanged : bool;
  m_buildEnvironmentFilter : list string;
  m_sshPort : Z;
  m_sshTimeout : Z;
  m_dBusPort : Z;
}.

Definition create (engine : BuildEngine) : t := {|
  m_engine := engine;
  m_vmAccessor := VirtualMachinePropertiesAccessor.create (engineVirtualMachine engine);
  m_hostName := effectiveBuildHostName engine;
  m_hostNameChanged := false;
  m_buildEnvironmentFilter := buildEnvironmentFilter engine;
  m_sshPort := engineSshPort engine;
  m_sshTimeout := sshTimeout (engineVirtualMachine engine);
  m_dBusPort := engineDBusPort engine;
|}.

Definition withVmAccessor (v : VirtualMachinePropertiesAccessor.t) (a : t) : t :=
  {| m_engine := m_engine a; m_vmAccessor := v; m_hostName := m_hostName a;
     m_hostNameChanged := m_hostNameChanged a;
     m_buildEnvironmentFilter := m_buildEnvironmentFilter a;
     m_sshPort := m_sshPort a; m_sshTimeout := m_sshTimeout a;
     m_dBusPort := m_dBusPort a |}.

Definition withHostName (x : string) (a : t) : t :=
  {| m_engine := m_engine a; m_vmAccessor := m_vmAccessor a; m_hostName := x;
     m_hostNameChanged := true;
     m_buildEnvironmentFilter := m_buildEnvironmentFilter a;
     m_sshPort := m_sshPort a; m_sshTimeout := m_sshTimeout a;
     m_dBusPort := m_dBusPort a |}.

Definition withBuildEnvironmentFilter (x : list string) (a : t) : t :=
  {| m_engine := m_engine a; m_vmAccessor := m_vmAccessor a;
     m_hostName := m_hostName a; m_hostNameChanged := m_hostNameChanged a;
     m_buildEnvironmentFilter := x;
     m_sshPort := m_sshPort a; m_sshTimeout := m_sshTimeout a;
     m_dBusPort := m_dBusPort a |}.

Definition withSshPort (x : Z) (a : t) : t :=
  {| m_engine := m_engine a; m_vmAccessor := m_vmAccessor a;
     m_hostName := m_hostName a; m_hostNameChanged := m_hostNameChanged a;
     m_buildEnvironmentFilter := m_buildEnvironmentFilter a;
     m_sshPort := x; m_sshTimeout := m_sshTimeout a;
     m_dBusPort := m_dBusPort a |}.

Definition withSshTimeout (x : Z) (a : t) : t :=
  {| m_engine := m_engine a; m_vmAccessor := m_vmAccessor a;
     m_hostName := m_hostName a; m_hostNameChanged := m_hostNameChanged a;
     m_buildEnvironmentFilter := m_buildEnvironmentFilter a;
     m_sshPort := m_sshPort a; m_sshTimeout := x;
     m_dBusPort := m_dBusPort a |}.

Definition withDBusPort (x : Z) (a : t) : t :=
  {| m_engine := m_engine a; m_vmAccessor := m_vmAccessor a;
     m_hostName := m_hostName a; m_hostNameChanged := m_hostNameChanged a;
     m_buildEnvironmentFilter := m_buildEnvironmentFilter a;
     m_sshPort := m_sshPort a; m_sshTimeout := m_sshTimeout a;
     m_dBusPort := x |}.

Definition notWellFormedHostNameMessage (value : string) : string :=
  "Not a well formed host name: " +:+ QString.quoted value.

Section WithHost.
Context `{Host}.

Definition prepareSetOther (name value : string) (o : Out) (a : t)
    : PrepareResult * Out * t :=
  let o := setNeedsVmOff false (enter EngineGroup o) in
  if String.eqb name ENGINE_HOST_NAME then
    if negb (QString.isEmpty value) && negb (hostNameIsValid value)
    then (Failed, setError (notWellFormedHostNameMessage value) o, a)
    else (Prepared, o, withHostName value a)
  else if String.eqb name ENGINE_BUILD_ENVIRONMENT_FILTER then
    (Prepared, o, withBuildEnvironmentFilter (QString.split QString.isSpace value) a)
  else if String.eqb name ENGINE_DBUS_PORT then
    let '(ok, x, o) := parsePortNumber (m_dBusPort a) value o in
    if negb ok then (Failed, o, withDBusPort x a)
    else (Prepared, setNeedsVmOff true o, withDBusPort x a)
  else if String.eqb name ENGINE_SSH_PORT then
    let '(ok, x, o) := parsePortNumber (m_sshPort a) value o in
    if negb ok then (Failed, o, withSshPort x a)
    else (Prepared, setNeedsVmOff true o, withSshPort x a)
  else if String.eqb name ENGINE_SSH_TIMEOUT then
    let '(ok, x, o) := parsePositiveInt value o in
    if negb ok then (Failed, o, withSshTimeout x a)
    else (Prepared, o, withSshTimeout x a)
  else (Ignored, setError unknownPropertyMessage o, a).

Definition prepareSet (name value : string) (o : Out) (a : t)
    : PrepareResult * Out * t :=
  let '(result, o, v) :=
    VirtualMachinePropertiesAccessor.prepareSet name value o (m_vmAccessor a) in
  let a := withVmAccessor v a in
  match result with
  | Ignored =>
      let '(result, o, a) := prepareSetOther name value o a in
      match result with
      | Ignored => (Ignored, o, a)
      | _ => (result, o, a)
      end
  | _ => (result, o, a)
  end.
End WithHost.

Definition setOthers (w : World) (a : t) : bool * list Call :=
  let e := m_engine a in
  let r := (true, []) in
  let r := if m_hostNameChanged a
           then callStep (SdkSetCustomBuildHostName (m_hostName a)) r else r in
  let r := callStep (SdkSetBuildEnvironmentFilter (m_buildEnvironmentFilter a)) r in
  let r := if negb (m_sshPort a =? engineSshPort e)
           then execStep w (EngineSetSshPort (m_sshPort a)) r else r in
  let r := if negb (m_sshTimeout a =? sshTimeout (engineVirtualMachine e))
           then callStep (VmSetSshTimeout (m_sshTimeout a)) r else r in
  let r := if negb (m_dBusPort a =? engineDBusPort e)
           then execStep w (EngineSetDBusPort (m_dBusPort a)) r else r in
  r.

Definition set (w : World) (a : t) : bool * list Call :=
  let '(ok, calls) := VirtualMachinePropertiesAccessor.set w (m_vmAccessor a) in
  if ok then
    let '(ok', calls') := setOthers w a in (ok', calls ++ calls')
  else (false, calls).

Definition getOthers `{Numbers} (a : t) : gmap string string :=
  let values : gmap string string := ∅ in
  let values := <[ENGINE_HOST_NAME := m_hostName a]> values in
  let values := <[ENGINE_BUILD_ENVIRONMENT_FILTER :=
                    QString.join " " (m_buildEnvironmentFilter a)]> values in
  let values := <[ENGINE_SSH_PORT := number (m_sshPort a)]> values in
  let values := <[ENGINE_SSH_TIMEOUT := number (m_sshTimeout a)]> values in
  let values := <[ENGINE_DBUS_PORT := number (m_dBusPort a)]> values in
  values.

Definition get `{Numbers} (a : t) : gmap string string :=
  VirtualMachinePropertiesAccessor.get (m_vmAccessor a) ∪ getOthers a.

End BuildEnginePropertiesAccessor.

(** ** SetPropertiesTask *)

(** The accessors a task is built with ([std::unique_ptr<PropertiesAccessor>]). *)
Inductive Accessor :=
  | VmAccessor (a : VirtualMachinePropertiesAccessor.t)
  | SdkAccessor (a : SdkPropertiesAccessor.t)
  | EmulatorAccessor (a : EmulatorPropertiesAccessor.t)
  | BuildEngineAccessor (a : BuildEnginePropertiesAccessor.t).

Section AccessorDispatch.
Context `{Host}.

Definition accessorPrepareSet (name value : string) (o : Out) (acc : Accessor)
    : PrepareResult * Out * Accessor :=
  match acc with
  | VmAccessor a =>
      let '(r, o, a) := VirtualMachinePropertiesAccessor.prepareSet name value o a in
      (r, o, VmAccessor a)
  | SdkAccessor a =>
      let '(r, o, a) := SdkPropertiesAccessor.prepareSet name value o a in
      (r, o, SdkAccessor a)
  | EmulatorAccessor a =>
      let '(r, o, a) := EmulatorPropertiesAccessor.prepareSet name value o a in
      (r, o, EmulatorAccessor a)
  | BuildEngineAccessor a =>
      let '(r, o, a) := BuildEnginePropertiesAccessor.prepareSet name value o a in
      (r, o, BuildEngineAccessor a)
  end.

(** [canSet] returns true unless overridden. *)
Definition accessorCanSet (errorString : string) (acc : Accessor) : bool * string :=
  match acc with
  | SdkAccessor a => SdkPropertiesAccessor.canSet errorString a
  | _ => (true, errorString)
  end.
End AccessorDispatch.

Definition accessorSet (w : World) (acc : Accessor) : bool * list Call :=
  match acc with
  | VmAccessor a => VirtualMachinePropertiesAccessor.set w a
  | SdkAccessor a => SdkPropertiesAccessor.set w a
  | EmulatorAccessor a => EmulatorPropertiesAccessor.set w a
  | BuildEngineAccessor a => BuildEnginePropertiesAccessor.set w a
  end.

(** [m_accessor->get()] *)
Definition accessorGet `{Numbers} (iKnowWhatIAmDoing : Z) (acc : Accessor)
    : gmap string string :=
  match acc with
  | VmAccessor a => VirtualMachinePropertiesAccessor.get a
  | SdkAccessor a => SdkPropertiesAccessor.get a
  | EmulatorAccessor a => EmulatorPropertiesAccessor.get iKnowWhatIAmDoing a
  | BuildEngineAccessor a => BuildEnginePropertiesAccessor.get a
  end.

Module SetPropertiesTask.

Record t := {
  m_accessor : Accessor;
  m_stopVmMessage : string;
  m_needsVmOff : bool;
}.

Definition create (accessor : Accessor) (stopVmMessage : string) : t :=
  {| m_accessor := accessor; m_stopVmMessage := stopVmMessage; m_needsVmOff := false |}.

Definition failedToSetMessage : string := "Failed to set some of the properties".

Section WithHost.
Context `{Host}.

(** [prepareSet(name, value, errorString)]; [error] is what
    [*errorString] holds on entry. *)
Definition prepareSet (name value : string) (error : string) (task : t)
    : bool * string * t :=
  let o := {| needsVmOff := false; errorString := error; consulted := [] |} in
  let '(result, o, acc) := accessorPrepareSet name value o (m_accessor task) in
  match result with
  | Prepared =>
      (true, errorString o,
       {| m_accessor := acc; m_stopVmMessage := m_stopVmMessage task;
          m_needsVmOff := m_needsVmOff task || needsVmOff o |})
  | _ =>
      (false, errorString o,
       {| m_accessor := acc; m_stopVmMessage := m_stopVmMessage task;
          m_needsVmOff := m_needsVmOff task |})
  end.

(** [set(errorString)]: the result, [*errorString] and the setters
    invoked, in order. *)
Definition set (w : World) (error : string) (task : t)
    : bool * string * list Call :=
  let '(can, errorString) := accessorCanSet error (m_accessor task) in
  if negb can then (false, errorString, [])
  else
    let '(lockDownOk, errorString, calls) :=
      if m_needsVmOff task then
        if (autoStopVms w =? 0) && isRunningReliably w
        then (false, m_stopVmMessage task, [])
        else (stepOk w (VmLockDown true), errorString, [VmLockDown true])
      else (false, errorString, []) in
    let '(ok, errorString, calls) :=
      if negb (m_needsVmOff task) || lockDownOk then
        let '(ok, calls') := accessorSet w (m_accessor task) in
        (ok, if ok then errorString else failedToSetMessage, calls ++ calls')
      else (false, errorString, calls) in
    let calls := if lockDownOk then calls ++ [VmLockDown false] else calls in
    (ok, errorString, calls).
End WithHost.

End SetPropertiesTask.

(** ** BuiltinWorker::setProperties *)

Module BuiltinWorker.

Inductive ExitStatus := NormalExit | BadUsage.

Definition EXIT_SUCCESS : Z := 0.
Definition EXIT_FAILURE : Z := 1.

(** What a run leaves behind: the status returned, [*exitCode] when it
    was written, the lines sent to [qerr()], the deprecation notices, and
    the setters invoked. *)
Record Outcome := {
  exitStatus : ExitStatus;
  exitCode : option Z;
  qerr : list string;
  notices : list string;
  calls : list Call;
}.

Definition assignmentExpectedMessage (assignment : string) : string :=
  "Assignment expected: " +:+ QString.quoted assignment.

Definition deprecatedMessage (property normalizedProperty : string) : string :=
  "The " +:+ QString.quoted property +:+ " property is deprecated. Use "
    +:+ QString.quoted normalizedProperty +:+ " instead.".

Section WithHost.
Context `{Host}.

(** The [for] loop over the assignments: either the outcome it returns
    early with, or the task with everything staged and the notices. *)
Fixpoint prepareAll (assignments : list string) (task : SetPropertiesTask.t)
    (notices : list string) : Outcome + (SetPropertiesTask.t * list string) :=
  match assignments with
  | [] => inr (task, notices)
  | assignment :: rest =>
      let splitAt := QString.indexOf "="%char assignment in
      if splitAt <=? 0 then
        inl {| exitStatus := BadUsage; exitCode := None;
               qerr := [assignmentExpectedMessage assignment];
               notices := notices; calls := [] |}
      else
        let property := QString.left splitAt assignment in
        let value := QString.mid (splitAt + 1) assignment in
        let normalizedProperty := QString.camelToHyphenated property in
        let '(ok, errorString, task) :=
          SetPropertiesTask.prepareSet normalizedProperty value EmptyString task in
        if negb ok then
          inl {| exitStatus := NormalExit; exitCode := Some EXIT_FAILURE;
                 qerr := [property +:+ ": " +:+ errorString];
                 notices := notices; calls := [] |}
        else
          let notices :=
            if negb (String.eqb normalizedProperty property)
            then notices ++ [deprecatedMessage property normalizedProperty]
            else notices in
          prepareAll rest task notices
  end.

Definition setProperties (w : World) (task : SetPropertiesTask.t)
    (assignments : list string) : Outcome :=
  match prepareAll assignments task [] with
  | inl early => early
  | inr (task, notices) =>
      let '(ok, errorString, calls) := SetPropertiesTask.set w EmptyString task in
      if negb ok then
        {| exitStatus := NormalExit; exitCode := Some EXIT_FAILURE;
           qerr := [errorString]; notices := notices; calls := calls |}
      else
        {| exitStatus := NormalExit; exitCode := Some EXIT_SUCCESS;
           qerr := []; notices := notices; calls := calls |}
  end.
End WithHost.

End BuiltinWorker.

(** ** Build targets *)

(** [BuildTargetDump]: what [targets.xml] records for a target.
    [operator==] compares all ten members, so it is equality. *)
Record BuildTargetDump := {
  name : string;
  origin : string;
  gccDumpMachine : string;
  gccDumpMacros : string;
  gccDumpIncludes : string;
  gccDumpInstallDir : string;
  qmakeQuery : string;
  cmakeCapabilities : string;
  cmakeVersion : string;
  rpmValidationSuites : string;
}.

#[global] Instance BuildTargetDump_eq_dec : EqDecision BuildTargetDump.
Proof. solve_decision. Defined.

Record RpmValidationSuiteData := {
  suiteId : string;
  suiteName : string;
  suiteWebsite : string;
  suiteEssential : bool;
}.

#[global] Instance RpmValidationSuiteData_eq_dec : EqDecision RpmValidationSuiteData.
Proof. solve_decision. Defined.

Inductive TargetFlag := Snapshot | DefaultSnapshot | PooledSnapshot.

#[global] Instance TargetFlag_eq_dec : EqDecision TargetFlag.
Proof. solve_decision. Defined.

Record BuildTargetData := {
  dataName : string;
  dataOrigin : string;
  dataFlags : list TargetFlag;
  dataMachine : string;
  dataSysRoot : string;
  dataToolsPath : string;
  dataGdb : string;
  dataRpmValidationSuites : list RpmValidationSuiteData;
}.

(** [BuildTargetData::operator==]: the flags and the machine are not
    compared. *)
Definition BuildTargetData_eqb (x y : BuildTargetData) : bool :=
  String.eqb (dataName x) (dataName y)
  && String.eqb (dataOrigin x) (dataOrigin y)
  && String.eqb (dataSysRoot x) (dataSysRoot y)
  && String.eqb (dataToolsPath x) (dataToolsPath y)
  && String.eqb (dataGdb x) (dataGdb y)
  && bool_decide (dataRpmValidationSuites x = dataRpmValidationSuites y).

(** [BuildTargetData::snapshotSuffix] *)
Definition snapshotSuffix (d : BuildTargetData) : string :=
  if bool_decide (Snapshot ∈ dataFlags d)
  then QString.mid (QString.length (dataOrigin d) + 1) (dataName d)
  else EmptyString.

(** [Utils::FilePath::pathAppended], the common prefix of the tools paths
    and the debugger's file name are defined outside the modelled files. *)
Class Paths := {
  pathAppended : string → string → string;
  toolsPathCommonPrefix : string;
  DEFAULT_DEBUGGER_FILENAME : string;
}.

Module ReferencePaths.
Definition paths : Paths := {|
  pathAppended := fun base item => base +:+ "/" +:+ item;
  toolsPathCommonPrefix := "/home/user/.config/SailfishSDK/libsfdk/build-target-tools";
  DEFAULT_DEBUGGER_FILENAME := "gdb";
|}.
End ReferencePaths.

(** The signals [BuildEngine] emits during reconciliation, and the
    maintenance of the on-disk tool wrappers. *)
Inductive TargetEvent :=
  | TargetUpdated (index : nat)
  | DeinitBuildTargetAt (index : nat)
  | InitBuildTargetAt (index : nat)
  | AboutToRemoveBuildTarget (index : nat)
  | BuildTargetAdded (index : nat).

#[global] Instance TargetEvent_eq_dec : EqDecision TargetEvent.
Proof. solve_decision. Defined.

Module BuildEnginePrivate.

Definition DEFAULT_SNAPSHOT_SUFFIX : string := "default".
Definition POOLED_SNAPSHOT_INFIX : string := ".pool.".

(** The members of [BuildEnginePrivate] reconciliation touches. *)
Record t := {
  buildTargets : list BuildTargetDump;
  buildTargetsData : list BuildTargetData;
  sharedTargetsPath : string;
  (** [virtualMachine->name()] *)
  virtualMachineName : string;
}.

Definition withTargets (targets : list BuildTargetDump) (data : list BuildTargetData)
    (e : t) : t :=
  {| buildTargets := targets; buildTargetsData := data;
     sharedTargetsPath := sharedTargetsPath e;
     virtualMachineName := virtualMachineName e |}.

Fixpoint replaceChar (from to : ascii) (s : string) : string :=
  match s with
  | EmptyString => EmptyString
  | String a s' =>
      String (if Ascii.eqb a from then to else a) (replaceChar from to s')
  end.

Fixpoint toLower (s : string) : string :=
  match s with
  | EmptyString => EmptyString
  | String a s' => String (QString.toLowerChar a) (toLower s')
  end.

(** A line without the carriage return that ends it, if one does. *)
Fixpoint chopCarriageReturn (s : string) : string :=
  match s with
  | EmptyString => EmptyString
  | String a s' =>
      match s' with
      | EmptyString => if Ascii.eqb a (ascii_of_nat 13) then EmptyString else s
      | String _ _ => String a (chopCarriageReturn s')
      end
  end.

(** The loop of [lines]: [cur] is what has been read of the line at hand.
    A line ends at a line feed, or at the end of the data when something
    was read since the last line feed; the carriage return before either
    end is not part of the line. *)
Fixpoint linesFrom (s cur : string) : list string :=
  match s with
  | EmptyString => if QString.isEmpty cur then [] else [chopCarriageReturn cur]
  | String a s' =>
      if Ascii.eqb a (ascii_of_nat 10)
      then chopCarriageReturn cur :: linesFrom s' EmptyString
      else linesFrom s' (cur +:+ String a EmptyString)
  end.

(** The lines [QTextStream::readLineInto] yields, one after the other,
    until it returns false: without their end of line, which is a line
    feed or a carriage return and a line feed. *)
Definition lines (s : string) : list string := linesFrom s EmptyString.

(** [rpmValidationSuitesFromString]: parsing stops at the first line with
    fewer than three fields. *)
Fixpoint suitesFromLines (ls : list string) : list RpmValidationSuiteData :=
  match ls with
  | [] => []
  | line :: rest =>
      match QString.split (Ascii.eqb " ") line with
      | id :: essential :: website :: nameParts =>
          {| suiteId := id;
             suiteName := QString.join " " nameParts;
             suiteWebsite := if String.eqb website "-" then EmptyString else website;
             suiteEssential := String.eqb (toLower essential) "essential" |}
          :: suitesFromLines rest
      | _ => []
      end
  end.

Definition rpmValidationSuitesFromString (s : string) : list RpmValidationSuiteData :=
  suitesFromLines (lines s).

Section WithPaths.
Context `{Paths}.

Definition sysRootForTarget (e : t) (targetName : string) : string :=
  pathAppended (sharedTargetsPath e) targetName.

Definition toolsPathForTarget (e : t) (targetName : string) : string :=
  pathAppended
    (pathAppended toolsPathCommonPrefix
       (replaceChar ":" "_" (virtualMachineName e)))
    targetName.

Definition addFlag (f : TargetFlag) (d : BuildTargetData) : BuildTargetData :=
  {| dataName := dataName d; dataOrigin := dataOrigin d;
     dataFlags := dataFlags d ++ [f]; dataMachine := dataMachine d;
     dataSysRoot := dataSysRoot d; dataToolsPath := dataToolsPath d;
     dataGdb := dataGdb d;
     dataRpmValidationSuites := dataRpmValidationSuites d |}.

Definition createTargetData (e : t) (targetDump : BuildTargetDump) : BuildTargetData :=
  let data := {|
    dataName := name targetDump;
    dataOrigin := origin targetDump;
    dataFlags := [];
    dataMachine := EmptyString;
    dataSysRoot := EmptyString;
    dataToolsPath := EmptyString;
    dataGdb := EmptyString;
    dataRpmValidationSuites := [];
  |} in
  let data :=
    if negb (QString.isEmpty (dataOrigin data)) then
      let data := addFlag Snapshot data in
      let data :=
        if String.eqb (snapshotSuffix data) DEFAULT_SNAPSHOT_SUFFIX
        then addFlag DefaultSnapshot data else data in
      if QString.contains POOLED_SNAPSHOT_INFIX (snapshotSuffix data)
      then addFlag PooledSnapshot data else data
    else data in
  {| dataName := dataName data;
     dataOrigin := dataOrigin data;
     dataFlags := dataFlags data;
     dataMachine := gccDumpMachine targetDump;
     dataSysRoot := sysRootForTarget e (dataName data);
     dataToolsPath := toolsPathForTarget e (dataName data);
     dataGdb := DEFAULT_DEBUGGER_FILENAME;
     dataRpmValidationSuites :=
       rpmValidationSuitesFromString (rpmValidationSuites targetDump) |}.
End WithPaths.

(** The sanity check at the head of [updateBuildTargets]: the predicate
    [Utils::filtered] keeps a target by. *)
Definition sane (origins : list string) (target : BuildTargetDump) : bool :=
  let targetHasSnapshots := bool_decide (name target ∈ origins) in
  if targetHasSnapshots then false
  else if negb (QString.isEmpty (origin target)) then
    let snapshotNameStartsWithOriginName :=
      QString.startsWith (origin target +:+ ".") (name target)
      && (QString.length (name target) >? QString.length (origin target) + 1) in
    if negb snapshotNameStartsWithOriginName then false else true
  else true.

Definition sanitized (newTargets : list BuildTargetDump) : list BuildTargetDump :=
  let origins := origin <$> newTargets in
  List.filter (sane origins) newTargets.

(** [QList::indexOf] by [operator==]. *)
Definition indexOfDump (x : BuildTargetDump) (l : list BuildTargetDump) : option nat :=
  fst <$> list_find (λ y, y = x) l.

Definition indexOfData (x : BuildTargetData) (l : list BuildTargetData) : option nat :=
  fst <$> list_find (λ y, BuildTargetData_eqb y x = true) l.

(** The variables of the first [for] loop. *)
Record Matching := {
  cached : list BuildTargetDump;
  newTargets : list BuildTargetDump;
  newTargetsData : list BuildTargetData;
  toRemove : list nat;
  events : list TargetEvent;
}.

(** [n] iterations of the first loop starting at index [i], over the
    cached targets and their data [cachedData].  [None] stands for an
    access outside a list ([QList::at] and [operator[]] then have no
    defined result). *)
Fixpoint matchTargets (useSystemSettingsOnly : bool) (cachedData : list BuildTargetData)
    (n i : nat) (m : Matching) : option Matching :=
  match n with
  | O => Some m
  | S n' =>
      target ← cached m !! i;
      match indexOfDump target (newTargets m) with
      | Some k =>
          matchTargets useSystemSettingsOnly cachedData n' (S i)
            {| cached := cached m;
               newTargets := delete k (newTargets m);
               newTargetsData := delete k (newTargetsData m);
               toRemove := toRemove m;
               events := events m |}
      | None =>
          data ← cachedData !! i;
          match indexOfData data (newTargetsData m) with
          | Some k =>
              replacement ← newTargets m !! k;
              matchTargets useSystemSettingsOnly cachedData n' (S i)
                {| cached := <[i := replacement]> (cached m);
                   newTargets := delete k (newTargets m);
                   newTargetsData := delete k (newTargetsData m);
                   toRemove := toRemove m;
                   events := events m ++ [TargetUpdated i]
                     ++ (if useSystemSettingsOnly then []
                         else [DeinitBuildTargetAt i; InitBuildTargetAt i]) |}
          | None =>
              matchTargets useSystemSettingsOnly cachedData n' (S i)
                {| cached := cached m;
                   newTargets := newTargets m;
                   newTargetsData := newTargetsData m;
                   toRemove := toRemove m ++ [i];
                   events := events m |}
          end
      end
  end.

(** [Utils::reverseForeach(toRemove, ...)]: the last index first. *)
Definition removeTargets (useSystemSettingsOnly : bool) (toRemove : list nat)
    (st : list BuildTargetDump * list BuildTargetData * list TargetEvent)
    : list BuildTargetDump * list BuildTargetData * list TargetEvent :=
  foldr (λ i st,
           let '(targets, data, events) := st in
           (delete i targets, delete i data,
            events ++ [AboutToRemoveBuildTarget i]
              ++ (if useSystemSettingsOnly then [] else [DeinitBuildTargetAt i])))
        st toRemove.

Section WithPaths.
Context `{Paths}.

(** The last loop: the targets left in [newTargets] are appended. *)
Definition addTargets (useSystemSettingsOnly : bool) (e : t)
    (added : list BuildTargetDump)
    (st : list BuildTargetDump * list BuildTargetData * list TargetEvent)
    : list BuildTargetDump * list BuildTargetData * list TargetEvent :=
  foldl (λ st target,
           let '(targets, data, events) := st in
           let targets := targets ++ [target] in
           let data := data ++ [createTargetData e target] in
           (targets, data,
            events
              ++ (if useSystemSettingsOnly then []
                  else [InitBuildTargetAt (length targets - 1)])
              ++ [BuildTargetAdded (length targets - 1)]))
        st added.

(** [updateBuildTargets(QList<BuildTargetDump> newTargets)] *)
Definition updateBuildTargets (useSystemSettingsOnly : bool)
    (newTargets : list BuildTargetDump) (e : t) : option (t * list TargetEvent) :=
  let newTargets := sanitized newTargets in
  let newTargetsData := createTargetData e <$> newTargets in
  m ← matchTargets useSystemSettingsOnly (buildTargetsData e)
         (length (buildTargets e)) 0
         {| cached := buildTargets e; newTargets := newTargets;
            newTargetsData := newTargetsData; toRemove := []; events := [] |};
  let st := removeTargets useSystemSettingsOnly (toRemove m)
              (cached m, buildTargetsData e, events m) in
  let '(targets, data, events) :=
    addTargets useSystemSettingsOnly e (BuildEnginePrivate.newTargets m) st in
  Some (withTargets targets data e, events).
End WithPaths.

End BuildEnginePrivate.

(** ** BuildEngineManager *)

Module BuildEngineManager.

(** [QDateTime]: [None] is the invalid date. *)
Definition QDateTime := option Z.

(** The settings map of one engine, through the keys read here; [rest]
    holds the other entries. *)
Record EngineData := {
  BUILD_ENGINE_VM_URI : string;
  BUILD_ENGINE_CREATION_TIME : QDateTime;
  BUILD_ENGINE_AUTODETECTED : bool;
  rest : list (string * string);
}.

#[global] Instance EngineData_eq_dec : EqDecision EngineData.
Proof. solve_decision. Defined.

(** The [QVariantMap] handed to [fromMap], through the keys it reads.
    [BUILD_ENGINES_DATA] maps [i] to the value stored under
    [BUILD_ENGINES_DATA_KEY_PREFIX + QString::number(i)], when that key
    is present. *)
Record Settings := {
  BUILD_ENGINES_VERSION : Z;
  BUILD_ENGINES_INSTALL_DIR : string;
  BUILD_ENGINES_CUSTOM_BUILD_HOST_NAME : option string;
  BUILD_ENGINES_BUILD_ENVIRONMENT_FILTER : list string;
  BUILD_ENGINES_COUNT : Z;
  BUILD_ENGINES_DATA : gmap nat EngineData;
}.

(** A build engine: its identity and what [BuildEnginePrivate::fromMap]
    last loaded into it. *)
Record Engine := {
  uri : string;
  creationTime : QDateTime;
  autodetected : bool;
  loaded : list (string * string);
}.

#[global] Instance Engine_eq_dec : EqDecision Engine.
Proof. solve_decision. Defined.

Record t := {
  m_buildEngines : list Engine;
  m_installDir : string;
  (** [None] is the null [QString] *)
  m_customBuildHostName : option string;
  m_buildEnvironmentFilter : list string;
}.

Inductive Event :=
  | AboutToRemoveBuildEngine (index : nat)
  | BuildEngineAdded (index : nat)
  | CustomBuildHostNameChanged (hostName : option string)
  | BuildEnvironmentFilterChanged (filter : list string).

#[global] Instance Event_eq_dec : EqDecision Event.
Proof. solve_decision. Defined.

(** What loading an engine depends on outside the modelled files:
    [QUrl::isValid], whether [VirtualMachineFactory::create] yields a
    machine, whether the engine's own map lists every build target it
    counts, and the order of the URIs. *)
Class Loader := {
  vmUriIsValid : string → bool;
  canCreateVirtualMachine : string → bool;
  targetsComplete : EngineData → bool;
  (** [QUrl::operator<], by which a [QMap] keeps its keys *)
  uriLess : string → string → bool;
}.

Module ReferenceLoader.
Definition loader : Loader := {|
  vmUriIsValid := fun u => negb (QString.isEmpty u);
  canCreateVirtualMachine := fun _ => true;
  targetsComplete := fun _ => true;
  uriLess := String.ltb;
|}.
End ReferenceLoader.

(** [QString::operator==]: the null string equals the empty one. *)
Definition qstringEqb (x y : option string) : bool :=
  String.eqb (default EmptyString x) (default EmptyString y).

Definition withEngines (engines : list Engine) (m : t) : t :=
  {| m_buildEngines := engines; m_installDir := m_installDir m;
     m_customBuildHostName := m_customBuildHostName m;
     m_buildEnvironmentFilter := m_buildEnvironmentFilter m |}.

Definition setCustomBuildHostName (hostName : option string) (st : t * list Event)
    : t * list Event :=
  let '(m, events) := st in
  if qstringEqb (m_customBuildHostName m) hostName then (m, events)
  else ({| m_buildEngines := m_buildEngines m; m_installDir := m_installDir m;
           m_customBuildHostName := hostName;
           m_buildEnvironmentFilter := m_buildEnvironmentFilter m |},
        events ++ [CustomBuildHostNameChanged hostName]).

Definition setBuildEnvironmentFilter (filter : list string) (st : t * list Event)
    : t * list Event :=
  let '(m, events) := st in
  if bool_decide (m_buildEnvironmentFilter m = filter) then (m, events)
  else ({| m_buildEngines := m_buildEngines m; m_installDir := m_installDir m;
           m_customBuildHostName := m_customBuildHostName m;
           m_buildEnvironmentFilter := filter |},
        events ++ [BuildEnvironmentFilterChanged filter]).

(** The loop filling [newEnginesData]: [None] when a key is missing or a
    VM URI is empty (the [QTC_ASSERT]s that return). *)
Fixpoint collect (data : gmap nat EngineData) (n i : nat)
    (newEnginesData : gmap string EngineData) : option (gmap string EngineData) :=
  match n with
  | O => Some newEnginesData
  | S n' =>
      engineData ← data !! i;
      if QString.isEmpty (BUILD_ENGINE_VM_URI engineData) then None
      else collect data n' (S i)
             (<[BUILD_ENGINE_VM_URI engineData := engineData]> newEnginesData)
  end.

(** [inNewData] of the second loop. *)
Definition inNewData (newEnginesData : gmap string EngineData) (e : Engine) : bool :=
  match newEnginesData !! uri e with
  | Some engineData =>
      bool_decide (BUILD_ENGINE_CREATION_TIME engineData = creationTime e)
  | None => false
  end.

(** The variables of the loop over [m_buildEngines]. *)
Record Sweep := {
  kept : list Engine;
  remaining : gmap string EngineData;
  (** [existingBuildEngines], by position in [kept] *)
  existingBuildEngines : gmap string nat;
  sweepEvents : list Event;
}.

(** The loop over [m_buildEngines], from the iterator's position on:
    [engines] is what lies at and after the iterator. *)
Fixpoint sweep (fromSystemSettings : bool) (engines : list Engine) (s : Sweep) : Sweep :=
  match engines with
  | [] => s
  | e :: engines' =>
      let isInNewData := inNewData (remaining s) e in
      if negb isInNewData && (negb fromSystemSettings || autodetected e) then
        sweep fromSystemSettings engines'
          {| kept := kept s; remaining := remaining s;
             existingBuildEngines := existingBuildEngines s;
             sweepEvents := sweepEvents s ++ [AboutToRemoveBuildEngine (length (kept s))] |}
      else if autodetected e && fromSystemSettings then
        sweep fromSystemSettings engines'
          {| kept := kept s ++ [e]; remaining := delete (uri e) (remaining s);
             existingBuildEngines := existingBuildEngines s;
             sweepEvents := sweepEvents s |}
      else
        sweep fromSystemSettings engines'
          {| kept := kept s ++ [e]; remaining := remaining s;
             existingBuildEngines := <[uri e := length (kept s)]> (existingBuildEngines s);
             sweepEvents := sweepEvents s |}
  end.

Section WithLoader.
Context `{Loader}.

(** [BuildEnginePrivate::fromMap] on the engine [existing] ([None]: a
    freshly constructed one), reduced to identity and payload: the
    result and the engine afterwards. *)
Definition engineFromMap (existing : option Engine) (engineData : EngineData)
    : bool * option Engine :=
  let vmUri := BUILD_ENGINE_VM_URI engineData in
  if negb (vmUriIsValid vmUri) then (false, existing)
  else if match existing with
          | Some e => negb (String.eqb (uri e) vmUri)
          | None => negb (canCreateVirtualMachine vmUri)
          end
       then (false, existing)
  else
    (targetsComplete engineData,
     Some {| uri := vmUri;
             creationTime := BUILD_ENGINE_CREATION_TIME engineData;
             autodetected := BUILD_ENGINE_AUTODETECTED engineData;
             loaded := rest engineData |}).

(** The loop updating existing and adding new engines; it stops at the
    first failed [QTC_ASSERT]. *)
Fixpoint update (fromSystemSettings : bool) (existingBuildEngines : gmap string nat)
    (items : list (string * EngineData)) (st : list Engine * list Event)
    : list Engine * list Event :=
  match items with
  | [] => st
  | (vmUri, engineData) :: items' =>
      let '(engines, events) := st in
      match existingBuildEngines !! vmUri ≫= (λ k, (k,.) <$> engines !! k) with
      | Some (k, engine) =>
          if fromSystemSettings && negb (autodetected engine) then st
          else
            match engineFromMap (Some engine) engineData with
            | (ok, Some engine') =>
                let st := (<[k := engine']> engines, events) in
                if ok then update fromSystemSettings existingBuildEngines items' st
                else st
            | (_, None) => st
            end
      | None =>
          match engineFromMap None engineData with
          | (true, Some engine') =>
              update fromSystemSettings existingBuildEngines items'
                (engines ++ [engine'], events ++ [BuildEngineAdded (length engines)])
          | _ => st
          end
      end
  end.

(** [newEnginesData.keys()], each key with its value: [QMap::keys] lists
    the keys in ascending order. *)
Definition notAfter (x y : string * EngineData) : Prop := uriLess y.1 x.1 = false.

#[global] Instance notAfter_dec (x y : string * EngineData) : Decision (notAfter x y).
Proof. unfold notAfter. apply _. Defined.

Definition keysAscending (newEnginesData : gmap string EngineData)
    : list (string * EngineData) :=
  merge_sort notAfter (map_to_list newEnginesData).

(** [fromMap(data, fromSystemSettings)] *)
Definition fromMap (data : Settings) (fromSystemSettings : bool) (m : t)
    : t * list Event :=
  if negb (BUILD_ENGINES_VERSION data =? 1) then (m, [])
  else
    let m := {| m_buildEngines := m_buildEngines m;
                m_installDir := BUILD_ENGINES_INSTALL_DIR data;
                m_customBuildHostName := m_customBuildHostName m;
                m_buildEnvironmentFilter := m_buildEnvironmentFilter m |} in
    if QString.isEmpty (m_installDir m) then (m, [])
    else
      let st := (m, []) in
      let st :=
        if negb fromSystemSettings || bool_decide (m_customBuildHostName m = None)
        then setCustomBuildHostName (BUILD_ENGINES_CUSTOM_BUILD_HOST_NAME data) st
        else st in
      let st :=
        if negb fromSystemSettings
           || bool_decide (m_buildEnvironmentFilter st.1 = [])
        then setBuildEnvironmentFilter (BUILD_ENGINES_BUILD_ENVIRONMENT_FILTER data) st
        else st in
      match collect (BUILD_ENGINES_DATA data)
              (Z.to_nat (BUILD_ENGINES_COUNT data)) 0 ∅ with
      | None => st
      | Some newEnginesData =>
          let s := sweep fromSystemSettings (m_buildEngines st.1)
                     {| kept := []; remaining := newEnginesData;
                        existingBuildEngines := ∅; sweepEvents := st.2 |} in
          let '(engines, events) :=
            update fromSystemSettings (existingBuildEngines s)
              (keysAscending (remaining s)) (kept s, sweepEvents s) in
          (withEngines engines st.1, events)
      end.
End WithLoader.

End BuildEngineManager.

(** ** Auxiliary definitions for the statements *)

(** The virtual machine an accessor reads, when it has one. *)
Definition accessorVm (acc : Accessor) : option VirtualMachine :=
  match acc with
  | VmAccessor a => Some (VirtualMachinePropertiesAccessor.m_vm a)
  | SdkAccessor _ => None
  | EmulatorAccessor a =>
      Some (VirtualMachinePropertiesAccessor.m_vm (EmulatorPropertiesAccessor.m_vmAccessor a))
  | BuildEngineAccessor a =>
      Some (VirtualMachinePropertiesAccessor.m_vm
              (BuildEnginePropertiesAccessor.m_vmAccessor a))
  end.

(** The lookup order the specification words: the resource-specific group
    first, the virtual machine's second. *)
Definition prepareSet_resourceFirst `{Host} (name value : string) (o : Out)
    (a : BuildEnginePropertiesAccessor.t)
    : PrepareResult * Out * BuildEnginePropertiesAccessor.t :=
  let '(result, o, a) := BuildEnginePropertiesAccessor.prepareSetOther name value o a in
  match result with
  | Ignored =>
      let '(result, o, v) :=
        VirtualMachinePropertiesAccessor.prepareSet name value o
          (BuildEnginePropertiesAccessor.m_vmAccessor a) in
      (result, o, BuildEnginePropertiesAccessor.withVmAccessor v a)
  | _ => (result, o, a)
  end.

(** Whether preparing [assignment] on [task] asks for the machine to be
    off: the accessor prepares it and leaves [*needsVmOff] set. *)
Definition requiresVmOff `{Host} (assignment : string) (task : SetPropertiesTask.t)
    : bool :=
  let splitAt := QString.indexOf "="%char assignment in
  let property := QString.left splitAt assignment in
  let value := QString.mid (splitAt + 1) assignment in
  let '(result, o, _) :=
    accessorPrepareSet (QString.camelToHyphenated property) value
      {| needsVmOff := false; errorString := EmptyString; consulted := [] |}
      (SetPropertiesTask.m_accessor task) in
  bool_decide (result = Prepared) && needsVmOff o.

(** Concrete inputs the statements below are run on. *)
Module Sample.

Definition vm : VirtualMachine := {|
  features := [LimitMemorySize];
  memorySizeMb := 1024;
  swapSizeMb := 0;
  cpuCount := 2;
  storageSizeMb := 10000;
  freeStorageSizeMb := 500;
  sshTimeout := 30;
|}.

(** A backend that advertises no capability at all. *)
Definition fixedVm : VirtualMachine := {|
  features := [];
  memorySizeMb := 1024;
  swapSizeMb := 0;
  cpuCount := 2;
  storageSizeMb := 10000;
  freeStorageSizeMb := 500;
  sshTimeout := 30;
|}.

Definition out : Out :=
  {| needsVmOff := false; errorString := EmptyString; consulted := [] |}.

Definition engine : BuildEngine := {|
  engineVirtualMachine := vm;
  engineSshPort := 2222;
  engineDBusPort := 7777;
  effectiveBuildHostName := "buildhost";
  buildEnvironmentFilter := ["LANG"%string];
|}.

Definition emulator : Emulator := {|
  emulatorVirtualMachine := vm;
  deviceModelName := "Xperia X";
  orientation := Vertical;
  isViewScaled := false;
  emulatorSshPort := 2223;
|}.

Definition world : World :=
  {| stepOk := fun _ => true; autoStopVms := 0; isRunningReliably := true |}.

Definition stopMessage : string :=
  "Some of the changes cannot be applied while the build engine is running."
    +:+ " Please stop the build engine.".

Definition engineTask : SetPropertiesTask.t :=
  SetPropertiesTask.create
    (BuildEngineAccessor (BuildEnginePropertiesAccessor.create engine)) stopMessage.

End Sample.



(** Case analysis on every test a prepared outcome goes through. *)
Ltac prepare_cases :=
  unfold PropertiesAccessor.parsePortNumber, PropertiesAccessor.parsePositiveInt,
    PropertiesAccessor.parseNonNegativeInt, PropertiesAccessor.parseBoolean,
    PropertiesAccessor.parseOrientation, PropertiesAccessor.parseWithDictionary,
    VirtualMachinePropertiesAccessor.prepareReserve;
  repeat case_match; simplify_eq; cbn.

(** A task over the proxy accessor never asks for the machine to be off. *)
Definition sdkNeverNeedsVmOff (task : SetPropertiesTask.t) : Prop :=
  match SetPropertiesTask.m_accessor task with
  | SdkAccessor _ => SetPropertiesTask.m_needsVmOff task = false
  | _ => True
  end.

(** What the snapshot test of the sanity check decides. *)
Definition wellNamedSnapshot (target : BuildTargetDump) : Prop :=
  ∃ suffix, suffix ≠ EmptyString ∧ name target = origin target +:+ "." +:+ suffix.


(** The indices of [toRemove] can be removed from [targets] last first:
    each is inside the list by the time its turn comes. *)
Fixpoint removable {A} (toRemove : list nat) (targets : list A) : Prop :=
  match toRemove with
  | [] => True
  | i :: rest =>
      removable rest targets
      ∧ (i < length (foldr (λ i acc, delete i acc) targets rest))%nat
  end.

(** Build targets and an engine the reconciliation is run on. *)
Module SampleTargets.

Definition target (name origin qmakeQuery : string) : BuildTargetDump := {|
  name := name;
  origin := origin;
  gccDumpMachine := "armv7hl-meego-linux-gnueabi";
  gccDumpMacros := EmptyString;
  gccDumpIncludes := EmptyString;
  gccDumpInstallDir := EmptyString;
  qmakeQuery := qmakeQuery;
  cmakeCapabilities := EmptyString;
  cmakeVersion := EmptyString;
  rpmValidationSuites := "rpmlint Essential - RPM lint";
|}.

Definition engine : BuildEnginePrivate.t := {|
  BuildEnginePrivate.buildTargets := [target "old" EmptyString "5.6"];
  BuildEnginePrivate.buildTargetsData :=
    [BuildEnginePrivate.createTargetData (H := ReferencePaths.paths)
       {| BuildEnginePrivate.buildTargets := [];
          BuildEnginePrivate.buildTargetsData := [];
          BuildEnginePrivate.sharedTargetsPath := "/srv/mer/targets";
          BuildEnginePrivate.virtualMachineName := "VirtualBox:Sailfish SDK Build Engine" |}
       (target "old" EmptyString "5.6")];
  BuildEnginePrivate.sharedTargetsPath := "/srv/mer/targets";
  BuildEnginePrivate.virtualMachineName := "VirtualBox:Sailfish SDK Build Engine";
|}.

(** [armv7hl] has a snapshot, [i486.] is not named after its origin plus a
    suffix, [orphan.x] is named after another target than its origin. *)
Definition candidates : list BuildTargetDump :=
  [target "armv7hl" EmptyString "5.6";
   target "armv7hl.default" "armv7hl" "5.6";
   target "i486." "i486" "5.6";
   target "orphan.x" "i486" "5.6";
   target "aarch64" EmptyString "5.6"].

End SampleTargets.



(** A manager with one engine the user defined and one the SDK brought. *)
Module SampleEngines.

Definition userEngine : BuildEngineManager.Engine := {|
  BuildEngineManager.uri := "sfdkvm:VirtualBox#My Engine";
  BuildEngineManager.creationTime := Some 1000;
  BuildEngineManager.autodetected := false;
  BuildEngineManager.loaded := [];
|}.

Definition sdkEngine : BuildEngineManager.Engine := {|
  BuildEngineManager.uri := "sfdkvm:VirtualBox#Sailfish SDK Build Engine";
  BuildEngineManager.creationTime := Some 2000;
  BuildEngineManager.autodetected := true;
  BuildEngineManager.loaded := [];
|}.

Definition manager : BuildEngineManager.t := {|
  BuildEngineManager.m_buildEngines := [userEngine; sdkEngine];
  BuildEngineManager.m_installDir := "/opt/SailfishSDK";
  BuildEngineManager.m_customBuildHostName := None;
  BuildEngineManager.m_buildEnvironmentFilter := [];
|}.

Definition sdkEngineData : BuildEngineManager.EngineData := {|
  BuildEngineManager.BUILD_ENGINE_VM_URI := "sfdkvm:VirtualBox#Sailfish SDK Build Engine";
  BuildEngineManager.BUILD_ENGINE_CREATION_TIME := Some 2000;
  BuildEngineManager.BUILD_ENGINE_AUTODETECTED := true;
  BuildEngineManager.rest := [];
|}.

(** System-wide settings listing the SDK's engine only. *)
Definition systemData : BuildEngineManager.Settings := {|
  BuildEngineManager.BUILD_ENGINES_VERSION := 1;
  BuildEngineManager.BUILD_ENGINES_INSTALL_DIR := "/opt/SailfishSDK";
  BuildEngineManager.BUILD_ENGINES_CUSTOM_BUILD_HOST_NAME := None;
  BuildEngineManager.BUILD_ENGINES_BUILD_ENVIRONMENT_FILTER := [];
  BuildEngineManager.BUILD_ENGINES_COUNT := 1;
  BuildEngineManager.BUILD_ENGINES_DATA := {[ 0%nat := sdkEngineData ]};
|}.


End SampleEngines.

(** What [setProperties] reads from one assignment: nothing when there is
    no [=] after a non-empty name, else the normalized name and the value. *)
Definition assignmentParts (assignment : string) : option (string * string) :=
  let splitAt := QString.indexOf "="%char assignment in
  if splitAt <=? 0 then None
  else Some (QString.camelToHyphenated (QString.left splitAt assignment),
             QString.mid (splitAt + 1) assignment).

(** The name as typed, for a well-formed assignment. *)
Definition assignmentProperty (assignment : string) : string :=
  QString.left (QString.indexOf "="%char assignment) assignment.

Fixpoint hasCapital (s : string) : bool :=
  match s with
  | EmptyString => false
  | String a s' => QString.isUpper a || hasCapital s'
  end.


(** The assignment with its name in the hyphenated spelling. *)
Definition normalizedAssignment (assignment : string) : string :=
  let splitAt := QString.indexOf "="%char assignment in
  if splitAt <=? 0 then assignment
  else QString.camelToHyphenated (QString.left splitAt assignment)
         +:+ "=" +:+ QString.mid (splitAt + 1) assignment.


(** A proxy task with the mode staged as manual and no server. *)
Module SampleProxy.

Definition proxy : SdkPropertiesAccessor.Proxy := {|
  SdkPropertiesAccessor.wwwProxyType := "disabled";
  SdkPropertiesAccessor.wwwProxyServers := EmptyString;
  SdkPropertiesAccessor.wwwProxyExcludes := EmptyString;
|}.

Definition staged : SdkPropertiesAccessor.t := {|
  SdkPropertiesAccessor.engine := proxy;
  SdkPropertiesAccessor.m_wwwProxyType := "manual";
  SdkPropertiesAccessor.m_wwwProxyServers := EmptyString;
  SdkPropertiesAccessor.m_wwwProxyExcludes := EmptyString;
|}.

Definition task : SetPropertiesTask.t := {|
  SetPropertiesTask.m_accessor := SdkAccessor staged;
  SetPropertiesTask.m_stopVmMessage := EmptyString;
  SetPropertiesTask.m_needsVmOff := false;
|}.

End SampleProxy.

(** ** Statements about the cache of build targets *)

(** A data record is in step with a dump when it is what
    [createTargetData] makes of the dump, but for the machine. *)
Definition inStep `{Paths} (e : BuildEnginePrivate.t) (target : BuildTargetDump)
    (data : BuildTargetData) : Prop :=
  BuildTargetData_eqb data (BuildEnginePrivate.createTargetData e target) = true
  ∧ dataFlags data = dataFlags (BuildEnginePrivate.createTargetData e target).

(** Two dumps of one target: the name and the origin agree and the
    listings of validation suites read the same, whatever their line ends;
    the dumps of the tool chain may differ. *)
Definition sameTarget (old new : BuildTargetDump) : Prop :=
  name old = name new ∧ origin old = origin new
  ∧ BuildEnginePrivate.rpmValidationSuitesFromString (rpmValidationSuites old)
    = BuildEnginePrivate.rpmValidationSuitesFromString (rpmValidationSuites new).

(** What the first loop records when the targets from index [i] on are
    updated in place: for every target whose dump changed the update
    itself (the code logs it and emits no signal) and, unless only the
    system settings are used, the renewal of its tool wrappers. *)
Fixpoint updatedInPlace (useSystemSettingsOnly : bool) (i : nat)
    (olds news : list BuildTargetDump) : list TargetEvent :=
  match olds, news with
  | old :: olds', new :: news' =>
      (if decide (old = new) then []
       else TargetUpdated i
              :: (if useSystemSettingsOnly then []
                  else [DeinitBuildTargetAt i; InitBuildTargetAt i]))
      ++ updatedInPlace useSystemSettingsOnly (S i) olds' news'
  | _, _ => []
  end.

(** The events other than the maintenance of the tool wrappers. *)
Definition isNotification (ev : TargetEvent) : bool :=
  match ev with
  | DeinitBuildTargetAt _ | InitBuildTargetAt _ => false
  | TargetUpdated _ | AboutToRemoveBuildTarget _ | BuildTargetAdded _ => true
  end.

(** A state of the first loop without the wrapper events. *)
Definition quiet (m : BuildEnginePrivate.Matching) : BuildEnginePrivate.Matching :=
  {| BuildEnginePrivate.cached := BuildEnginePrivate.cached m;
     BuildEnginePrivate.newTargets := BuildEnginePrivate.newTargets m;
     BuildEnginePrivate.newTargetsData := BuildEnginePrivate.newTargetsData m;
     BuildEnginePrivate.toRemove := BuildEnginePrivate.toRemove m;
     BuildEnginePrivate.events :=
       List.filter isNotification (BuildEnginePrivate.events m) |}.

(** The positions announced as about to be removed, and as added, in the
    order of the announcements. *)
Definition removedIndices (evs : list TargetEvent) : list nat :=
  omap (λ ev, match ev with AboutToRemoveBuildTarget i => Some i | _ => None end) evs.

Definition addedIndices (evs : list TargetEvent) : list nat :=
  omap (λ ev, match ev with BuildTargetAdded i => Some i | _ => None end) evs.

(** What is emitted for a target added at position [i], and for one
    removed from it. *)
Definition additionAt (useSystemSettingsOnly : bool) (i : nat) : list TargetEvent :=
  (if useSystemSettingsOnly then [] else [InitBuildTargetAt i]) ++ [BuildTargetAdded i].

Definition removalAt (useSystemSettingsOnly : bool) (i : nat) : list TargetEvent :=
  [AboutToRemoveBuildTarget i]
    ++ (if useSystemSettingsOnly then [] else [DeinitBuildTargetAt i]).

(** ** Lists of strings *)

(** [QString::operator<=]: the order of the code units. *)
Definition stringLe (x y : string) : Prop := String.leb x y = true.

#[global] Instance stringLe_dec (x y : string) : Decision (stringLe x y).
Proof. unfold stringLe. apply _. Defined.

(** Strictly before. *)
Definition stringLt (x y : string) : Prop := stringLe x y ∧ x ≠ y.

Module QStringList.

(** [QStringList::removeAll]; the null string equals the empty one. *)
Definition removeAll (x : string) (l : list string) : list string :=
  List.filter (λ y, negb (String.eqb y x)) l.

(** [Utils::sort]: the ascending arrangement of the list, which is the
    same whatever the algorithm, equal strings being the same string. *)
Definition sort (l : list string) : list string := merge_sort stringLe l.

(** [erase(std::unique(begin, end), end)]: of equal neighbours the first
    stays. *)
Fixpoint unique (l : list string) : list string :=
  match l with
  | [] => []
  | x :: l' =>
      match l' with
      | [] => [x]
      | y :: _ => if String.eqb x y then unique l' else x :: unique l'
      end
  end.

End QStringList.

(** ** BuildTargetData and the lookups of BuildEngine *)

(** A default-constructed [BuildTargetData]. *)
Definition defaultBuildTargetData : BuildTargetData := {|
  dataName := EmptyString;
  dataOrigin := EmptyString;
  dataFlags := [];
  dataMachine := EmptyString;
  dataSysRoot := EmptyString;
  dataToolsPath := EmptyString;
  dataGdb := EmptyString;
  dataRpmValidationSuites := [];
|}.

(** [BuildTargetData::isValid] *)
Definition isValid (d : BuildTargetData) : bool :=
  negb (QString.isEmpty (dataName d))
  && negb (QString.isEmpty (dataSysRoot d))
  && negb (QString.isEmpty (dataToolsPath d))
  && negb (QString.isEmpty (dataGdb d)).

Module BuildEngine.

(** [Utils::findOrDefault] *)
Definition findOrDefault (predicate : BuildTargetData → bool)
    (l : list BuildTargetData) : BuildTargetData :=
  default defaultBuildTargetData (List.find predicate l).

(** [BuildEngine::buildTargetByOrigin(origin, snapshotSuffix)]; the null
    [QString] is [None].  The [QTC_ASSERT] returns a default-constructed
    value for a suffix that is empty and not null. *)
Definition buildTargetByOrigin (e : BuildEnginePrivate.t) (origin : string)
    (suffix : option string) : BuildTargetData :=
  let isNull := bool_decide (suffix = None) in
  let suffix := default EmptyString suffix in
  if negb (negb (QString.isEmpty suffix) || isNull) then defaultBuildTargetData
  else
    findOrDefault
      (λ target,
         bool_decide (Snapshot ∈ dataFlags target)
         && String.eqb (dataOrigin target) origin
         && (negb isNull || bool_decide (DefaultSnapshot ∈ dataFlags target))
         && (isNull || String.eqb (snapshotSuffix target) suffix))
      (BuildEnginePrivate.buildTargetsData e).

(** [BuildEngine::buildTargetOrigins] *)
Definition buildTargetOrigins (e : BuildEnginePrivate.t) : list string :=
  let origins := dataOrigin <$> BuildEnginePrivate.buildTargetsData e in
  let origins := QStringList.sort origins in
  let origins := QStringList.unique origins in
  QStringList.removeAll EmptyString origins.

End BuildEngine.

(** ** Saving and loading the build targets *)

(** The keys of a target's map are constants of [sfdkconstants.h], which
    is not among the modelled files. *)
Class TargetKeys := {
  BUILD_TARGET_NAME : string;
  BUILD_TARGET_ORIGIN : string;
  BUILD_TARGET_GCC_DUMP_MACHINE : string;
  BUILD_TARGET_GCC_DUMP_MACROS : string;
  BUILD_TARGET_GCC_DUMP_INCLUDES : string;
  BUILD_TARGET_GCC_DUMP_INSTALL_DIR : string;
  BUILD_TARGET_QMAKE_QUERY : string;
  BUILD_TARGET_CMAKE_CAPABILITIES : string;
  BUILD_TARGET_CMAKE_VERSION : string;
  BUILD_TARGET_RPM_VALIDATION_SUITES : string;
}.

Definition targetKeys `{TargetKeys} : list string :=
  [BUILD_TARGET_NAME; BUILD_TARGET_ORIGIN; BUILD_TARGET_GCC_DUMP_MACHINE;
   BUILD_TARGET_GCC_DUMP_MACROS; BUILD_TARGET_GCC_DUMP_INCLUDES;
   BUILD_TARGET_GCC_DUMP_INSTALL_DIR; BUILD_TARGET_QMAKE_QUERY;
   BUILD_TARGET_CMAKE_CAPABILITIES; BUILD_TARGET_CMAKE_VERSION;
   BUILD_TARGET_RPM_VALIDATION_SUITES].

(** Ten keys that differ from each other; what they spell plays no part. *)
Module ReferenceTargetKeys.
Definition keys : TargetKeys := {|
  BUILD_TARGET_NAME := "Name";
  BUILD_TARGET_ORIGIN := "Origin";
  BUILD_TARGET_GCC_DUMP_MACHINE := "GccDumpMachine";
  BUILD_TARGET_GCC_DUMP_MACROS := "GccDumpMacros";
  BUILD_TARGET_GCC_DUMP_INCLUDES := "GccDumpIncludes";
  BUILD_TARGET_GCC_DUMP_INSTALL_DIR := "GccDumpInstallDir";
  BUILD_TARGET_QMAKE_QUERY := "QmakeQuery";
  BUILD_TARGET_CMAKE_CAPABILITIES := "CMakeCapabilities";
  BUILD_TARGET_CMAKE_VERSION := "CMakeVersion";
  BUILD_TARGET_RPM_VALIDATION_SUITES := "RpmValidationSuites";
|}.
End ReferenceTargetKeys.

Module BuildTargetDumpMap.
Section WithKeys.
Context `{TargetKeys}.

(** [BuildTargetDump::toMap]; every value is a string. *)
Definition toMap (d : BuildTargetDump) : gmap string string :=
  let data : gmap string string := ∅ in
  let data := <[BUILD_TARGET_NAME := name d]> data in
  let data := <[BUILD_TARGET_ORIGIN := origin d]> data in
  let data := <[BUILD_TARGET_GCC_DUMP_MACHINE := gccDumpMachine d]> data in
  let data := <[BUILD_TARGET_GCC_DUMP_MACROS := gccDumpMacros d]> data in
  let data := <[BUILD_TARGET_GCC_DUMP_INCLUDES := gccDumpIncludes d]> data in
  let data := <[BUILD_TARGET_GCC_DUMP_INSTALL_DIR := gccDumpInstallDir d]> data in
  let data := <[BUILD_TARGET_QMAKE_QUERY := qmakeQuery d]> data in
  let data := <[BUILD_TARGET_CMAKE_CAPABILITIES := cmakeCapabilities d]> data in
  let data := <[BUILD_TARGET_CMAKE_VERSION := cmakeVersion d]> data in
  let data := <[BUILD_TARGET_RPM_VALIDATION_SUITES := rpmValidationSuites d]> data in
  data.

(** [data.value(key).toString()]: the null string for a missing key. *)
Definition value (data : gmap string string) (key : string) : string :=
  default EmptyString (data !! key).

(** [BuildTargetDump::fromMap] *)
Definition fromMap (data : gmap string string) : BuildTargetDump := {|
  name := value data BUILD_TARGET_NAME;
  origin := value data BUILD_TARGET_ORIGIN;
  gccDumpMachine := value data BUILD_TARGET_GCC_DUMP_MACHINE;
  gccDumpMacros := value data BUILD_TARGET_GCC_DUMP_MACROS;
  gccDumpIncludes := value data BUILD_TARGET_GCC_DUMP_INCLUDES;
  gccDumpInstallDir := value data BUILD_TARGET_GCC_DUMP_INSTALL_DIR;
  qmakeQuery := value data BUILD_TARGET_QMAKE_QUERY;
  cmakeCapabilities := value data BUILD_TARGET_CMAKE_CAPABILITIES;
  cmakeVersion := value data BUILD_TARGET_CMAKE_VERSION;
  rpmValidationSuites := value data BUILD_TARGET_RPM_VALIDATION_SUITES;
|}.

(** The loop of [BuildEnginePrivate::toMap] over the build targets, from
    [count] on.  [targetData] maps [i] to what is stored under
    [BUILD_ENGINE_TARGET_DATA_KEY_PREFIX + QString::number(i)]; the result
    holds the count stored under [BUILD_ENGINE_TARGETS_COUNT_KEY]; [None]
    stands for the empty map the function returns when a target's map is
    empty. *)
Fixpoint targetsToMap (targets : list BuildTargetDump) (count : nat)
    (targetData : gmap nat (gmap string string))
    : option (gmap nat (gmap string string) * nat) :=
  match targets with
  | [] => Some (targetData, count)
  | target :: targets' =>
      let map := toMap target in
      if bool_decide (map = ∅) then None
      else targetsToMap targets' (S count) (<[count := map]> targetData)
  end.

(** The loop of [BuildEnginePrivate::fromMap] that reads [n] targets from
    index [i] on: [None] when a key is missing. *)
Fixpoint targetsFromMap (targetData : gmap nat (gmap string string)) (n i : nat)
    (newBuildTargets : list BuildTargetDump) : option (list BuildTargetDump) :=
  match n with
  | O => Some newBuildTargets
  | S n' =>
      map ← targetData !! i;
      targetsFromMap targetData n' (S i) (newBuildTargets ++ [fromMap map])
  end.
End WithKeys.
End BuildTargetDumpMap.

(** ** The listing of RPM validation suites *)

Definition newline : string := String (ascii_of_nat 10) EmptyString.

(** The line [rpmValidationSuitesToString] writes for one suite, without
    the end of line. *)
Definition suiteLine (suite : RpmValidationSuiteData) : string :=
  suiteId suite +:+ " "
    +:+ (if suiteEssential suite then "Essential " else "Optional ")
    +:+ (if QString.isEmpty (suiteWebsite suite) then "-" else suiteWebsite suite)
    +:+ " " +:+ suiteName suite.

(** [BuildEnginePrivate::rpmValidationSuitesToString] *)
Fixpoint rpmValidationSuitesToString (suites : list RpmValidationSuiteData) : string :=
  match suites with
  | [] => EmptyString
  | suite :: rest => suiteLine suite +:+ newline +:+ rpmValidationSuitesToString rest
  end.

(** No character of [s] satisfies [p]. *)
Fixpoint noneOf (p : ascii → bool) (s : string) : bool :=
  match s with
  | EmptyString => true
  | String a s' => negb (p a) && noneOf p s'
  end.

Definition isLineFeed (a : ascii) : bool := Ascii.eqb a (ascii_of_nat 10).

(** A line feed or a carriage return. *)
Definition isLineEnd (a : ascii) : bool :=
  Ascii.eqb a (ascii_of_nat 10) || Ascii.eqb a (ascii_of_nat 13).

(** A field of a line: not empty, without space or end of line. *)
Definition isField (s : string) : bool :=
  negb (QString.isEmpty s) && noneOf (Ascii.eqb " ") s && noneOf isLineEnd s.

(** A suite that [rpmValidationSuitesToString] writes unambiguously: the
    identifier and the website are fields, the website is not the
    placeholder for none, and the name is on one line with its words
    separated by single spaces. *)
Definition writable (suite : RpmValidationSuiteData) : Prop :=
  isField (suiteId suite) = true
  ∧ (suiteWebsite suite = EmptyString
     ∨ (isField (suiteWebsite suite) = true ∧ suiteWebsite suite ≠ "-"%string))
  ∧ noneOf isLineEnd (suiteName suite) = true
  ∧ QString.join " " (QString.split (Ascii.eqb " ") (suiteName suite)) = suiteName suite.

(** ** Statements about the list of build engines *)

Section EngineStatements.
Import BuildEngineManager.

(** In a merge of the system settings every engine recorded as existing
    is one the user defined. *)
Definition existingAreUsers (existing : gmap string nat) (engines : list Engine) : Prop :=
  ∀ vmUri k, existing !! vmUri = Some k →
    ∃ e, engines !! k = Some e ∧ autodetected e = false.

(** What [BuildEnginePrivate::fromMap] makes of an engine's entry when it
    gets to its end. *)
Definition loadedFrom (engineData : EngineData) : Engine :=
  {| uri := BUILD_ENGINE_VM_URI engineData;
     creationTime := BUILD_ENGINE_CREATION_TIME engineData;
     autodetected := BUILD_ENGINE_AUTODETECTED engineData;
     loaded := rest engineData |}.



(** What the first loop leaves behind in a merge of the system settings:
    the entry of an auto-detected engine it kept is taken from the new
    data, and an engine of the user it kept is recorded as existing. *)
Definition accountedFor (s : Sweep) : Prop :=
  ∀ e, e ∈ kept s →
    if autodetected e then remaining s !! uri e = None
    else is_Some (existingBuildEngines s !! uri e).


(** The events about the list of engines. *)
Definition isEngineListEvent (ev : Event) : bool :=
  match ev with
  | AboutToRemoveBuildEngine _ | BuildEngineAdded _ => true
  | _ => false
  end.

(** The manager and the events of [fromMap] once the host name and the
    environment filter are taken from the settings. *)
Definition settingsStep (data : Settings) (fromSystemSettings : bool) (m : t)
    : t * list Event :=
  let m0 := {| m_buildEngines := m_buildEngines m;
               m_installDir := BUILD_ENGINES_INSTALL_DIR data;
               m_customBuildHostName := m_customBuildHostName m;
               m_buildEnvironmentFilter := m_buildEnvironmentFilter m |} in
  let st1 :=
    if negb fromSystemSettings || bool_decide (m_customBuildHostName m0 = None)
    then setCustomBuildHostName (BUILD_ENGINES_CUSTOM_BUILD_HOST_NAME data) (m0, [])
    else (m0, []) in
  if negb fromSystemSettings || bool_decide (m_buildEnvironmentFilter st1.1 = [])
  then setBuildEnvironmentFilter (BUILD_ENGINES_BUILD_ENVIRONMENT_FILTER data) st1
  else st1.
End EngineStatements.

(** ** Adding, removing and finding build engines *)

Module EngineList.
Import BuildEngineManager.

(** [Utils::equal(&BuildEngine::uri, uri)] *)
Definition hasUri (vmUri : string) (e : Engine) : bool := String.eqb (uri e) vmUri.

(** [BuildEngineManager::buildEngine(uri)]: [None] is the null pointer. *)
Definition buildEngine (vmUri : string) (m : t) : option Engine :=
  List.find (hasUri vmUri) (m_buildEngines m).

(** [Utils::indexOf] with a predicate: [None] is -1. *)
Fixpoint indexOf (p : Engine → bool) (engines : list Engine) : option nat :=
  match engines with
  | [] => None
  | e :: engines' => if p e then Some O else S <$> indexOf p engines'
  end.

(** [BuildEngineManager::removeBuildEngine]; the [QTC_ASSERT] returns
    when no engine has the URI. *)
Definition removeBuildEngine (vmUri : string) (st : t * list Event) : t * list Event :=
  let '(m, events) := st in
  match indexOf (hasUri vmUri) (m_buildEngines m) with
  | None => st
  | Some index =>
      (withEngines (delete index (m_buildEngines m)) m,
       events ++ [AboutToRemoveBuildEngine index])
  end.

(** [BuildEngineManager::doAddBuildEngine] for an engine that is not
    null: the manager, the signals and the index returned. *)
Definition doAddBuildEngine (e : Engine) (st : t * list Event) : t * list Event * nat :=
  let '(m, events) := st in
  let engines := m_buildEngines m ++ [e] in
  let index := (length engines - 1)%nat in
  (withEngines engines m, events ++ [BuildEngineAdded index], index).

End EngineList.

(** ** The default build host name *)

Module HostName.

(** [BuildEngineManager::completeHostNameLookup]: the new
    [m_defaultBuildHostName], from [info.hostName()] and
    [QHostInfo::localHostName()].  [candidates.first()] is taken of a list
    that is never empty. *)
Definition completeHostNameLookup (infoHostName localHostName : string) : string :=
  let candidates := [infoHostName; localHostName] in
  let candidates := QStringList.removeAll EmptyString candidates in
  let candidates := QStringList.removeAll "localhost" candidates in
  let candidates := QStringList.removeAll "localhost.localdomain" candidates in
  let candidates := candidates ++ ["localhost.localdomain"%string] in
  default EmptyString (head candidates).

(** A name worth using: not empty and not a name of the loopback. *)
Definition useful (hostName : string) : bool :=
  negb (String.eqb hostName EmptyString)
  && negb (String.eqb hostName "localhost")
  && negb (String.eqb hostName "localhost.localdomain").

End HostName.

(** A manager whose SDK was installed anew since the engines were cached:
    the system-wide settings list the SDK's engine with a later creation
    time and no longer list the engine of the release before. *)
Module SampleMerge.

Definition retiredEngine : BuildEngineManager.Engine := {|
  BuildEngineManager.uri := "sfdkvm:VirtualBox#Old Build Engine";
  BuildEngineManager.creationTime := Some 500;
  BuildEngineManager.autodetected := true;
  BuildEngineManager.loaded := [];
|}.

Definition manager : BuildEngineManager.t := {|
  BuildEngineManager.m_buildEngines :=
    [SampleEngines.userEngine; SampleEngines.sdkEngine; retiredEngine];
  BuildEngineManager.m_installDir := "/opt/SailfishSDK";
  BuildEngineManager.m_customBuildHostName := None;
  BuildEngineManager.m_buildEnvironmentFilter := [];
|}.

Definition recreatedData : BuildEngineManager.EngineData := {|
  BuildEngineManager.BUILD_ENGINE_VM_URI := "sfdkvm:VirtualBox#Sailfish SDK Build Engine";
  BuildEngineManager.BUILD_ENGINE_CREATION_TIME := Some 2500;
  BuildEngineManager.BUILD_ENGINE_AUTODETECTED := true;
  BuildEngineManager.rest := [];
|}.

Definition dockerData : BuildEngineManager.EngineData := {|
  BuildEngineManager.BUILD_ENGINE_VM_URI := "sfdkvm:Docker#sailfish-sdk-build-engine";
  BuildEngineManager.BUILD_ENGINE_CREATION_TIME := Some 2600;
  BuildEngineManager.BUILD_ENGINE_AUTODETECTED := true;
  BuildEngineManager.rest := [];
|}.

Definition systemData : BuildEngineManager.Settings := {|
  BuildEngineManager.BUILD_ENGINES_VERSION := 1;
  BuildEngineManager.BUILD_ENGINES_INSTALL_DIR := "/opt/SailfishSDK";
  BuildEngineManager.BUILD_ENGINES_CUSTOM_BUILD_HOST_NAME := None;
  BuildEngineManager.BUILD_ENGINES_BUILD_ENVIRONMENT_FILTER := [];
  BuildEngineManager.BUILD_ENGINES_COUNT := 2;
  BuildEngineManager.BUILD_ENGINES_DATA :=
    {[ 0%nat := recreatedData; 1%nat := dockerData ]};
|}.

End SampleMerge.

(** Further inputs the statements are run on. *)
Module SampleSnapshots.

(** A target, and of another target the default snapshot and a pooled
    one. *)
Definition targets : list BuildTargetDump :=
  [SampleTargets.target "i486" EmptyString "5.6";
   SampleTargets.target "armv7hl.default" "armv7hl" "5.6";
   SampleTargets.target "armv7hl.pool.000" "armv7hl" "5.6"].

(** A dump whose listing of validation suites ends its line with a
    carriage return and a line feed. *)
Definition withCarriageReturn (d : BuildTargetDump) : BuildTargetDump := {|
  name := name d;
  origin := origin d;
  gccDumpMachine := gccDumpMachine d;
  gccDumpMacros := gccDumpMacros d;
  gccDumpIncludes := gccDumpIncludes d;
  gccDumpInstallDir := gccDumpInstallDir d;
  qmakeQuery := qmakeQuery d;
  cmakeCapabilities := cmakeCapabilities d;
  cmakeVersion := cmakeVersion d;
  rpmValidationSuites :=
    rpmValidationSuites d
      +:+ String (ascii_of_nat 13) (String (ascii_of_nat 10) EmptyString);
|}.

(** The same targets after an update of Qt in the first and the last, and
    with the listing of the second written with other line ends. *)
Definition updatedTargets : list BuildTargetDump :=
  [SampleTargets.target "i486" EmptyString "5.15";
   withCarriageReturn (SampleTargets.target "armv7hl.default" "armv7hl" "5.6");
   SampleTargets.target "armv7hl.pool.000" "armv7hl" "5.15"].

Definition emptyEngine : BuildEnginePrivate.t := {|
  BuildEnginePrivate.buildTargets := [];
  BuildEnginePrivate.buildTargetsData := [];
  BuildEnginePrivate.sharedTargetsPath := "/srv/mer/targets";
  BuildEnginePrivate.virtualMachineName := "VirtualBox:Sailfish SDK Build Engine";
|}.

(** The engine with the three targets cached. *)
Definition engine : BuildEnginePrivate.t :=
  BuildEnginePrivate.withTargets targets
    (BuildEnginePrivate.createTargetData (H := ReferencePaths.paths) emptyEngine
       <$> targets)
    emptyEngine.

Definition suites : list RpmValidationSuiteData :=
  [{| suiteId := "rpmlint"; suiteName := "RPM lint"; suiteWebsite := EmptyString;
      suiteEssential := true |};
   {| suiteId := "harbour"; suiteName := "Jolla Harbour";
      suiteWebsite := "https://harbour.jolla.com/"; suiteEssential := false |}].

(** System-wide settings that name a build host and a filter. *)
Definition hostData : BuildEngineManager.Settings := {|
  BuildEngineManager.BUILD_ENGINES_VERSION := 1;
  BuildEngineManager.BUILD_ENGINES_INSTALL_DIR := "/opt/SailfishSDK";
  BuildEngineManager.BUILD_ENGINES_CUSTOM_BUILD_HOST_NAME := Some "builder";
  BuildEngineManager.BUILD_ENGINES_BUILD_ENVIRONMENT_FILTER := ["SAILFISH_*"];
  BuildEngineManager.BUILD_ENGINES_COUNT := 0;
  BuildEngineManager.BUILD_ENGINES_DATA := ∅;
|}.

(** A manager whose user set a host name and a filter. *)
Definition manager : BuildEngineManager.t := {|
  BuildEngineManager.m_buildEngines := [SampleEngines.userEngine];
  BuildEngineManager.m_installDir := "/opt/SailfishSDK";
  BuildEngineManager.m_customBuildHostName := Some "laptop";
  BuildEngineManager.m_buildEnvironmentFilter := ["QT_*"];
|}.

End SampleSnapshots.

(** * Properties *)

(** ** Prepare: the virtual-machine properties *)

Section PrepareVm.
Context `{Host}.
Import PropertiesAccessor VirtualMachinePropertiesAccessor.

Lemma cpuCount_readOnly (a : t) (value : string) (o : Out) :
  hasFeature LimitMemorySize (m_vm a) = false →
  prepareSet VM_CPU_COUNT value o a
  = (Failed, setError readOnlyPropertyMessage (setNeedsVmOff true (enter VmGroup o)), a).
Proof. intros Hf. unfold prepareSet. cbn. by rewrite Hf. Qed.

Lemma memorySize_readOnly (a : t) (value : string) (o : Out) :
  hasFeature LimitMemorySize (m_vm a) = false →
  prepareSet VM_MEMORY_SIZE_MB value o a
  = (Failed, setError readOnlyPropertyMessage (setNeedsVmOff true (enter VmGroup o)), a).
Proof. intros Hf. unfold prepareSet. cbn. by rewrite Hf. Qed.

Lemma swapSize_unrecognized (a : t) (value : string) (o : Out) :
  hasFeature SwapMemory (m_vm a) = false →
  prepareSet VM_SWAP_SIZE_MB value o a
  = (Ignored, setError unknownPropertyMessage (setNeedsVmOff true (enter VmGroup o)), a).
Proof. intros Hf. unfold prepareSet. cbn. by rewrite Hf. Qed.

Lemma parsePositiveInt_ok (s : string) (n : Z) (o : Out) :
  toInt s = Some n → 0 < n → parsePositiveInt s o = (true, n, o).
Proof.
  intros Hs Hn. unfold parsePositiveInt, toIntOk, toIntValue. rewrite Hs. cbn.
  by destruct (Z.leb_spec n 0); [lia|].
Qed.

Lemma parsePositiveInt_fail (s : string) (o : Out) :
  (∀ n, toInt s = Some n → n ≤ 0) →
  parsePositiveInt s o
  = (false, default 0 (toInt s), setError (positiveIntExpectedMessage s) o).
Proof.
  intros Hs. unfold parsePositiveInt, toIntOk, toIntValue.
  destruct (toInt s) as [n|] eqn:E; cbn.
  - specialize (Hs n eq_refl). by destruct (Z.leb_spec n 0); [|lia].
  - done.
Qed.

Lemma storageSize_decrease (a : t) (value : string) (n : Z) (o : Out) :
  hasFeature ShrinkStorageSize (m_vm a) = false →
  toInt value = Some n → 0 < n < storageSizeMb (m_vm a) →
  prepareSet VM_STORAGE_SIZE_MB value o a
  = (Failed,
     setError valueCannotBeDecreasedMessage (setNeedsVmOff true (enter VmGroup o)),
     withStorageSizeMb n a).
Proof.
  intros Hf Hv [Hn Hlt]. unfold prepareSet. cbn.
  rewrite (parsePositiveInt_ok _ n) by done. cbn. rewrite Hf. cbn.
  by destruct (Z.ltb_spec n (storageSizeMb (m_vm a))); [|lia].
Qed.

Lemma storageSize_increase (a : t) (value : string) (n : Z) (o : Out) :
  hasFeature GrowStorageSize (m_vm a) = false →
  toInt value = Some n → 0 < n → storageSizeMb (m_vm a) < n →
  prepareSet VM_STORAGE_SIZE_MB value o a
  = (Failed,
     setError valueCannotBeIncreasedMessage (setNeedsVmOff true (enter VmGroup o)),
     withStorageSizeMb n a).
Proof.
  intros Hf Hv Hn Hgt. unfold prepareSet. cbn.
  rewrite (parsePositiveInt_ok _ n) by done. cbn. rewrite Hf.
  destruct (Z.ltb_spec n (storageSizeMb (m_vm a))); [lia|]. cbn.
  rewrite andb_true_r.
  by destruct (Z.gtb_spec n (storageSizeMb (m_vm a))); [|lia].
Qed.
End PrepareVm.


Section PrepareVmClaims.
Context `{Host}.
Import PropertiesAccessor.

(** C10.  On a virtual machine that does not advertise [LimitMemorySize],
    preparing [vm.cpu-count] fails with "Read-only property" whatever the
    value is, through every accessor that has a virtual machine: the
    mutability of the CPU count is gated by the memory-size flag. *)
Theorem cpu_count_gated_by_LimitMemorySize (task : SetPropertiesTask.t)
    (vm : VirtualMachine) (value error : string) :
  accessorVm (SetPropertiesTask.m_accessor task) = Some vm →
  hasFeature LimitMemorySize vm = false →
  (accessorPrepareSet VM_CPU_COUNT value
     {| needsVmOff := false; errorString := error; consulted := [] |}
     (SetPropertiesTask.m_accessor task)).1.1 = Failed
  ∧ (SetPropertiesTask.prepareSet VM_CPU_COUNT value error task).1
    = (false, readOnlyPropertyMessage).
Proof.
  intros Hvm Hf. unfold SetPropertiesTask.prepareSet.
  destruct task as [[a|a|a|a] stop off]; cbn in Hvm; simplify_eq;
    unfold accessorPrepareSet, SetPropertiesTask.m_accessor,
      EmulatorPropertiesAccessor.prepareSet, BuildEnginePropertiesAccessor.prepareSet;
    by rewrite cpuCount_readOnly.
Qed.
End PrepareVmClaims.

Lemma cpu_count_gated_by_LimitMemorySize_witness :
  (SetPropertiesTask.prepareSet (H := ReferenceHost.host) VM_CPU_COUNT "2" EmptyString
     (SetPropertiesTask.create
        (VmAccessor (VirtualMachinePropertiesAccessor.create Sample.fixedVm))
        Sample.stopMessage)).1
  = (false, PropertiesAccessor.readOnlyPropertyMessage).
Proof.
  apply (cpu_count_gated_by_LimitMemorySize (H := ReferenceHost.host)
           (SetPropertiesTask.create
              (VmAccessor (VirtualMachinePropertiesAccessor.create Sample.fixedVm))
              Sample.stopMessage) Sample.fixedVm "2" EmptyString);
    reflexivity.
Defined.

(** C5 does not hold as stated: not every capability-gated property fails
    with "Read-only property".  On a machine without [SwapMemory] the name
    [vm.swap-size] is not recognized at all. *)
Lemma swap_size_without_SwapMemory_is_unrecognized :
  let r := VirtualMachinePropertiesAccessor.prepareSet (H := ReferenceHost.host)
             VM_SWAP_SIZE_MB "512" Sample.out
             (VirtualMachinePropertiesAccessor.create Sample.fixedVm) in
  hasFeature SwapMemory Sample.fixedVm = false
  ∧ r.1.1 = Ignored
  ∧ errorString r.1.2 = "Unrecognized property"%string
  ∧ ¬ (r.1.1 = Failed ∧ errorString r.1.2 = PropertiesAccessor.readOnlyPropertyMessage).
Proof. cbv. repeat split; try reflexivity. intros [? ?]; discriminate. Qed.

Section PrepareCapabilities.
Context `{Host}.
Import PropertiesAccessor VirtualMachinePropertiesAccessor.

(** C5, as the code has it.  Without [LimitMemorySize], [vm.memory-size]
    fails with "Read-only property".  Without [SwapMemory],
    [vm.swap-size] is not a property of the machine: the accessor ignores
    the name with "Unrecognized property".  A [vm.storage-size] below the
    current size without [ShrinkStorageSize] fails with "Value cannot be
    decreased", one above it without [GrowStorageSize] with "Value cannot
    be increased". *)
Theorem capability_gated_properties (a : t) (value : string) (o : Out) :
  (hasFeature LimitMemorySize (m_vm a) = false →
     let r := prepareSet VM_MEMORY_SIZE_MB value o a in
     r.1.1 = Failed ∧ errorString r.1.2 = readOnlyPropertyMessage)
  ∧ (hasFeature SwapMemory (m_vm a) = false →
     let r := prepareSet VM_SWAP_SIZE_MB value o a in
     r.1.1 = Ignored ∧ errorString r.1.2 = unknownPropertyMessage)
  ∧ (∀ n, hasFeature ShrinkStorageSize (m_vm a) = false →
     toInt value = Some n → 0 < n < storageSizeMb (m_vm a) →
     let r := prepareSet VM_STORAGE_SIZE_MB value o a in
     r.1.1 = Failed ∧ errorString r.1.2 = valueCannotBeDecreasedMessage)
  ∧ (∀ n, hasFeature GrowStorageSize (m_vm a) = false →
     toInt value = Some n → 0 < n → storageSizeMb (m_vm a) < n →
     let r := prepareSet VM_STORAGE_SIZE_MB value o a in
     r.1.1 = Failed ∧ errorString r.1.2 = valueCannotBeIncreasedMessage).
Proof.
  repeat split.
  - by rewrite memorySize_readOnly.
  - by rewrite memorySize_readOnly.
  - by rewrite swapSize_unrecognized.
  - by rewrite swapSize_unrecognized.
  - by erewrite storageSize_decrease.
  - by erewrite storageSize_decrease.
  - by erewrite storageSize_increase.
  - by erewrite storageSize_increase.
Qed.
End PrepareCapabilities.

Lemma capability_gated_properties_witness :
  let a := VirtualMachinePropertiesAccessor.create Sample.fixedVm in
  let prepare name value :=
    (VirtualMachinePropertiesAccessor.prepareSet (H := ReferenceHost.host)
       name value Sample.out a).1 in
  ((prepare VM_MEMORY_SIZE_MB "2048"%string).1 = Failed
   ∧ errorString (prepare VM_MEMORY_SIZE_MB "2048"%string).2
     = "Read-only property"%string)
  ∧ ((prepare VM_SWAP_SIZE_MB "512"%string).1 = Ignored
     ∧ errorString (prepare VM_SWAP_SIZE_MB "512"%string).2
       = "Unrecognized property"%string)
  ∧ ((prepare VM_STORAGE_SIZE_MB "9000"%string).1 = Failed
     ∧ errorString (prepare VM_STORAGE_SIZE_MB "9000"%string).2
       = "Value cannot be decreased"%string)
  ∧ ((prepare VM_STORAGE_SIZE_MB "11000"%string).1 = Failed
     ∧ errorString (prepare VM_STORAGE_SIZE_MB "11000"%string).2
       = "Value cannot be increased"%string).
Proof.
  intros a prepare.
  pose proof (capability_gated_properties (H := ReferenceHost.host) a "2048" Sample.out)
    as (Hmem & _).
  pose proof (capability_gated_properties (H := ReferenceHost.host) a "512" Sample.out)
    as (_ & Hswap & _).
  pose proof (capability_gated_properties (H := ReferenceHost.host) a "9000" Sample.out)
    as (_ & _ & Hdec & _).
  pose proof (capability_gated_properties (H := ReferenceHost.host) a "11000" Sample.out)
    as (_ & _ & _ & Hinc).
  split; [exact (Hmem eq_refl)|].
  split; [exact (Hswap eq_refl)|].
  split; [apply (Hdec 9000); [reflexivity | reflexivity | cbn; lia]|].
  apply (Hinc 11000); [reflexivity | reflexivity | lia | cbn; lia].
Defined.

(** ** Prepare: the reserve-size grammar *)

Section ReserveSize.
Context `{Host}.
Import PropertiesAccessor VirtualMachinePropertiesAccessor.

Lemma indexOfFrom_ge (c : ascii) (s : string) (i : Z) :
  QString.indexOfFrom c s i = -1 ∨ i ≤ QString.indexOfFrom c s i.
Proof.
  revert i. induction s as [|a s IH]; intros i; cbn; [by left|].
  destruct (Ascii.eqb a c); [right; lia|].
  destruct (IH (i + 1)) as [->|?]; [by left|right; lia].
Qed.

(** A value whose first character is the comma has an empty size part. *)
Lemma size_part_of_leading_comma (value : string) :
  QString.indexOf "," value = 0 →
  QString.endsWith "+" (QString.left (QString.indexOf "," value) value) = false.
Proof.
  intros E. rewrite E. destruct value as [|a s]; [done|].
  unfold QString.left, QString.length. cbn [String.length].
  destruct (Z.leb_spec (Z.of_nat (S (String.length s))) 0); [lia|]. done.
Qed.

Lemma comma_after_size (value : string) :
  QString.endsWith "+" (QString.left (QString.indexOf "," value) value) = true →
  0 ≤ QString.indexOf "," value →
  (QString.indexOf "," value >? 0) = true.
Proof.
  intros Hplus Hge.
  destruct (Z.eq_dec (QString.indexOf "," value) 0) as [E|E].
  - apply size_part_of_leading_comma in E. congruence.
  - destruct (Z.gtb_spec (QString.indexOf "," value) 0); [done|lia].
Qed.

Lemma no_comma (value : string) :
  QString.indexOf "," value < 0 → (QString.indexOf "," value >? 0) = false.
Proof. intros ?. by destruct (Z.gtb_spec (QString.indexOf "," value) 0); [lia|]. Qed.

(** [set] reserves storage only for a positive staged free size. *)
Lemma set_reserves_iff (w : World) (a : t) (x y : Z) :
  VmReserveStorageSizeMb x y ∈ (set w a).2 → 0 < m_freeSizeMb a.
Proof.
  unfold set. destruct (Z.gtb_spec (m_freeSizeMb a) 0) as [Hpos|Hnpos]; [done|].
  unfold execStep.
  repeat match goal with
         | |- context [if ?b then _ else _] => destruct b
         end; cbn; rewrite ?elem_of_cons, ?elem_of_nil;
    intuition discriminate.
Qed.

(** C6.  The value of [vm.free-storage-size] is read as <N>+[,<M>]: the
    part before the first comma must end in '+', else the assignment is
    rejected with "Value cannot be decreased" whatever the numbers are;
    N must be a positive integer; M, when there is a comma, must be a
    positive integer not smaller than N; and when the free size of the
    machine already is N or more, the assignment is staged as nothing to
    do: no error, no need to power the machine off, and [set] reserves
    nothing. *)
Theorem free_storage_size_grammar (a : t) (value : string) (o : Out) :
  let commaIndex := QString.indexOf "," value in
  let size := QString.left commaIndex value in
  let N := QString.chop1 size in
  let M := QString.mid (commaIndex + 1) value in
  let r := prepareSet VM_FREE_STORAGE_SIZE_MB value o a in
  (QString.endsWith "+" size = false →
     r.1.1 = Failed ∧ errorString r.1.2 = valueCannotBeDecreasedMessage)
  ∧ (QString.endsWith "+" size = true →
     ((∀ n, toInt N = Some n → n ≤ 0) →
        r.1.1 = Failed ∧ errorString r.1.2 = positiveIntExpectedMessage N)
     ∧ (∀ n, toInt N = Some n → 0 < n →
        (0 ≤ commaIndex → (∀ m, toInt M = Some m → m ≤ 0) →
           r.1.1 = Failed ∧ errorString r.1.2 = positiveIntExpectedMessage M)
        ∧ (0 ≤ commaIndex → ∀ m, toInt M = Some m → 0 < m < n →
           r.1.1 = Failed ∧ errorString r.1.2 = stepSmallerThanSizeMessage)
        ∧ (commaIndex < 0 ∨ (∃ m, toInt M = Some m ∧ n ≤ m) →
           n ≤ freeStorageSizeMb (m_vm a) →
           r.1.1 = Prepared ∧ needsVmOff r.1.2 = false
           ∧ errorString r.1.2 = errorString o
           ∧ m_freeSizeMb r.2 = 0
           ∧ ∀ w x y, VmReserveStorageSizeMb x y ∉ (set w r.2).2)
        ∧ (commaIndex < 0 ∨ (∃ m, toInt M = Some m ∧ n ≤ m) →
           0 ≤ freeStorageSizeMb (m_vm a) < n →
           r.1.1 = Prepared ∧ needsVmOff r.1.2 = true
           ∧ m_freeSizeMb r.2 = n))).
Proof.
  intros commaIndex size N M r.
  assert (Hr : r = prepareSet VM_FREE_STORAGE_SIZE_MB value o a) by done.
  clearbody r. unfold prepareSet in Hr. cbn in Hr.
  fold commaIndex in Hr. fold size in Hr. fold N in Hr. fold M in Hr.
  split.
  { intros Hplus. rewrite Hplus in Hr. cbn in Hr. by rewrite Hr. }
  intros Hplus. rewrite Hplus in Hr. cbn in Hr. split.
  { intros HN. rewrite parsePositiveInt_fail in Hr by done. cbn in Hr. by rewrite Hr. }
  intros n HN Hn. rewrite (parsePositiveInt_ok _ n) in Hr by done. cbn in Hr.
  assert (Hreserve : ∀ o1 a1, m_vm a1 = m_vm a → m_freeSizeMb a1 = n →
            errorString o1 = errorString o → needsVmOff o1 = true →
            (n ≤ freeStorageSizeMb (m_vm a) →
               let p := prepareReserve o1 a1 in
               p.1.1 = Prepared ∧ needsVmOff p.1.2 = false
               ∧ errorString p.1.2 = errorString o ∧ m_freeSizeMb p.2 = 0)
            ∧ (0 ≤ freeStorageSizeMb (m_vm a) < n →
               let p := prepareReserve o1 a1 in
               p.1.1 = Prepared ∧ needsVmOff p.1.2 = true ∧ m_freeSizeMb p.2 = n)).
  { intros o1 a1 Hvm Hfree Herr Hoff. unfold prepareReserve. rewrite Hvm, Hfree.
    split.
    - intros Hle.
      destruct (Z.ltb_spec (freeStorageSizeMb (m_vm a)) 0); [lia|].
      by destruct (Z.leb_spec n (freeStorageSizeMb (m_vm a))); [|lia].
    - intros [Hge Hlt].
      destruct (Z.ltb_spec (freeStorageSizeMb (m_vm a)) 0); [lia|].
      by destruct (Z.leb_spec n (freeStorageSizeMb (m_vm a))); [lia|]. }
  assert (Hfinish : (commaIndex < 0 ∨ (∃ m, toInt M = Some m ∧ n ≤ m)) →
            ∃ o1 a1, r = prepareReserve o1 a1 ∧ m_vm a1 = m_vm a
              ∧ m_freeSizeMb a1 = n ∧ errorString o1 = errorString o
              ∧ needsVmOff o1 = true).
  { intros [Hno|(m & HM & Hm)].
    - rewrite (no_comma value Hno : (commaIndex >? 0) = false) in Hr. eauto 10.
    - destruct (Z.gtb_spec commaIndex 0) as [Hc|Hc].
      + rewrite (parsePositiveInt_ok _ m) in Hr by (done || lia). cbn in Hr.
        destruct (Z.ltb_spec m n); [lia|]. eauto 10.
      + eauto 10. }
  assert (Hcomma : 0 ≤ commaIndex → (commaIndex >? 0) = true).
  { intros Hge. by apply comma_after_size. }
  split; [|split; [|split]].
  - intros Hge HM. rewrite (Hcomma Hge) in Hr.
    rewrite parsePositiveInt_fail in Hr by done. by rewrite Hr.
  - intros Hge m HM [Hm Hlt]. rewrite (Hcomma Hge) in Hr.
    rewrite (parsePositiveInt_ok _ m) in Hr by done. cbn in Hr.
    destruct (Z.ltb_spec m n); [|lia]. by rewrite Hr.
  - intros HM Hle.
    destruct (Hfinish HM) as (o1 & a1 & Hr' & Hvm & Hfree & Herr & Hoff).
    destruct (Hreserve o1 a1 Hvm Hfree Herr Hoff) as [Hnoop _].
    specialize (Hnoop Hle). cbn zeta in Hnoop. rewrite <- Hr' in Hnoop.
    destruct Hnoop as (? & ? & ? & Hzero). repeat split; try done.
    intros w x y Hin. apply set_reserves_iff in Hin. lia.
  - intros HM Hlt.
    destruct (Hfinish HM) as (o1 & a1 & Hr' & Hvm & Hfree & Herr & Hoff).
    destruct (Hreserve o1 a1 Hvm Hfree Herr Hoff) as [_ Hneeded].
    specialize (Hneeded Hlt). cbn zeta in Hneeded. by rewrite <- Hr' in Hneeded.
Qed.
End ReserveSize.

Lemma free_storage_size_grammar_witness :
  let prepare value :=
    VirtualMachinePropertiesAccessor.prepareSet (H := ReferenceHost.host)
      VM_FREE_STORAGE_SIZE_MB value Sample.out
      (VirtualMachinePropertiesAccessor.create Sample.vm) in
  ((prepare "700"%string).1.1 = Failed
   ∧ errorString (prepare "700"%string).1.2 = "Value cannot be decreased"%string)
  ∧ ((prepare "600+,550"%string).1.1 = Failed
     ∧ errorString (prepare "600+,550"%string).1.2
       = "<step> cannot be smaller than <size>"%string)
  ∧ ((prepare "400+,450"%string).1.1 = Prepared
     ∧ needsVmOff (prepare "400+,450"%string).1.2 = false).
Proof.
  intros prepare.
  pose proof (free_storage_size_grammar (H := ReferenceHost.host)
                (VirtualMachinePropertiesAccessor.create Sample.vm) "700" Sample.out)
    as [Hplain _].
  pose proof (free_storage_size_grammar (H := ReferenceHost.host)
                (VirtualMachinePropertiesAccessor.create Sample.vm) "600+,550" Sample.out)
    as [_ Hstep].
  pose proof (free_storage_size_grammar (H := ReferenceHost.host)
                (VirtualMachinePropertiesAccessor.create Sample.vm) "400+,450" Sample.out)
    as [_ Hnoop].
  split; [exact (Hplain eq_refl)|].
  split.
  - destruct (Hstep eq_refl) as [_ Hn].
    destruct (Hn 600 eq_refl ltac:(lia)) as (_ & Hsmall & _).
    apply (Hsmall ltac:(cbn; lia) 550 eq_refl). lia.
  - destruct (Hnoop eq_refl) as [_ Hn].
    destruct (Hn 400 eq_refl ltac:(lia)) as (_ & _ & Hmet & _).
    destruct Hmet as (? & ? & _).
    + right. exists 450. split; [reflexivity | lia].
    + cbn. lia.
    + by split.
Defined.

(** ** Prepare: which group owns a property *)


Section OwningGroup.
Context `{Host}.
Import PropertiesAccessor.

Lemma vm_prepareSet_consulted (name value : string) (o : Out)
    (a : VirtualMachinePropertiesAccessor.t) :
  consulted (VirtualMachinePropertiesAccessor.prepareSet name value o a).1.2
  = consulted o ++ [VmGroup].
Proof. unfold VirtualMachinePropertiesAccessor.prepareSet. prepare_cases; done. Qed.

Lemma vm_prepareSet_ignored (name value : string) (o : Out)
    (a : VirtualMachinePropertiesAccessor.t) :
  (VirtualMachinePropertiesAccessor.prepareSet name value o a).1.1 = Ignored →
  errorString (VirtualMachinePropertiesAccessor.prepareSet name value o a).1.2
  = unknownPropertyMessage.
Proof. unfold VirtualMachinePropertiesAccessor.prepareSet. prepare_cases; done. Qed.

Lemma emulator_prepareSetOther_consulted (name value : string) (o : Out)
    (a : EmulatorPropertiesAccessor.t) :
  consulted (EmulatorPropertiesAccessor.prepareSetOther name value o a).1.2
  = consulted o ++ [EmulatorGroup].
Proof. unfold EmulatorPropertiesAccessor.prepareSetOther. prepare_cases; done. Qed.

Lemma emulator_prepareSetOther_ignored (name value : string) (o : Out)
    (a : EmulatorPropertiesAccessor.t) :
  (EmulatorPropertiesAccessor.prepareSetOther name value o a).1.1 = Ignored →
  errorString (EmulatorPropertiesAccessor.prepareSetOther name value o a).1.2
  = unknownPropertyMessage.
Proof. unfold EmulatorPropertiesAccessor.prepareSetOther. prepare_cases; done. Qed.

Lemma engine_prepareSetOther_consulted (name value : string) (o : Out)
    (a : BuildEnginePropertiesAccessor.t) :
  consulted (BuildEnginePropertiesAccessor.prepareSetOther name value o a).1.2
  = consulted o ++ [EngineGroup].
Proof. unfold BuildEnginePropertiesAccessor.prepareSetOther. prepare_cases; done. Qed.

Lemma engine_prepareSetOther_ignored (name value : string) (o : Out)
    (a : BuildEnginePropertiesAccessor.t) :
  (BuildEnginePropertiesAccessor.prepareSetOther name value o a).1.1 = Ignored →
  errorString (BuildEnginePropertiesAccessor.prepareSetOther name value o a).1.2
  = unknownPropertyMessage.
Proof. unfold BuildEnginePropertiesAccessor.prepareSetOther. prepare_cases; done. Qed.

(** A group that fails says why: [*errorString] then holds a message of
    its own, which is never the one for a name no group knows. *)
Lemma vm_prepareSet_failed (name value : string) (o : Out)
    (a : VirtualMachinePropertiesAccessor.t) :
  (VirtualMachinePropertiesAccessor.prepareSet name value o a).1.1 = Failed →
  errorString (VirtualMachinePropertiesAccessor.prepareSet name value o a).1.2
  ≠ unknownPropertyMessage.
Proof.
  unfold VirtualMachinePropertiesAccessor.prepareSet. prepare_cases;
    intros Hfailed E; try discriminate Hfailed; try discriminate E;
    apply (f_equal (String.get 0)) in E; vm_compute in E; discriminate E.
Qed.

Lemma emulator_prepareSetOther_failed (name value : string) (o : Out)
    (a : EmulatorPropertiesAccessor.t) :
  (EmulatorPropertiesAccessor.prepareSetOther name value o a).1.1 = Failed →
  errorString (EmulatorPropertiesAccessor.prepareSetOther name value o a).1.2
  ≠ unknownPropertyMessage.
Proof.
  unfold EmulatorPropertiesAccessor.prepareSetOther. prepare_cases;
    intros Hfailed E; try discriminate Hfailed; try discriminate E;
    apply (f_equal (String.get 0)) in E; vm_compute in E; discriminate E.
Qed.

Lemma engine_prepareSetOther_failed (name value : string) (o : Out)
    (a : BuildEnginePropertiesAccessor.t) :
  (BuildEnginePropertiesAccessor.prepareSetOther name value o a).1.1 = Failed →
  errorString (BuildEnginePropertiesAccessor.prepareSetOther name value o a).1.2
  ≠ unknownPropertyMessage.
Proof.
  unfold BuildEnginePropertiesAccessor.prepareSetOther. prepare_cases;
    intros Hfailed E; try discriminate Hfailed; try discriminate E;
    apply (f_equal (String.get 0)) in E; vm_compute in E; discriminate E.
Qed.

Lemma sdk_prepareSet_failed (name value : string) (o : Out)
    (a : SdkPropertiesAccessor.t) :
  (SdkPropertiesAccessor.prepareSet name value o a).1.1 = Failed →
  errorString (SdkPropertiesAccessor.prepareSet name value o a).1.2
  ≠ unknownPropertyMessage.
Proof.
  unfold SdkPropertiesAccessor.prepareSet, SdkPropertiesAccessor.validateUrls.
  prepare_cases;
    intros Hfailed E; try discriminate Hfailed; try discriminate E;
    apply (f_equal (String.get 0)) in E; vm_compute in E; discriminate E.
Qed.
End OwningGroup.

(** C4 does not hold as stated: the accessors ask the virtual-machine
    group first, not the resource-specific one.  For a name neither group
    knows the build-engine
    accessor enters the groups in the order VM, engine and leaves
    [*needsVmOff] as the engine group set it (false), where the order of
    the specification would leave it as the VM group sets it (true); and
    the emulator's own [ssh.port] is reached only after the VM group
    ignored the name. *)
Lemma vm_group_is_consulted_first :
  let code :=
    BuildEnginePropertiesAccessor.prepareSet (H := ReferenceHost.host)
      "no-such-property" "1" Sample.out
      (BuildEnginePropertiesAccessor.create Sample.engine) in
  let spec :=
    prepareSet_resourceFirst (H := ReferenceHost.host)
      "no-such-property" "1" Sample.out
      (BuildEnginePropertiesAccessor.create Sample.engine) in
  let emulator :=
    EmulatorPropertiesAccessor.prepareSet (H := ReferenceHost.host)
      "ssh.port" "2300" Sample.out
      (EmulatorPropertiesAccessor.create Sample.emulator) in
  consulted code.1.2 = [VmGroup; EngineGroup]
  ∧ consulted spec.1.2 = [EngineGroup; VmGroup]
  ∧ needsVmOff code.1.2 = false
  ∧ needsVmOff spec.1.2 = true
  ∧ code ≠ spec
  ∧ emulator.1.1 = Prepared
  ∧ consulted emulator.1.2 = [VmGroup; EmulatorGroup].
Proof.
  cbv zeta. repeat split; try reflexivity.
  intros E. apply (f_equal (λ r, needsVmOff r.1.2)) in E. vm_compute in E. discriminate.
Qed.

Section OwningGroupClaims.
Context `{Host}.
Import PropertiesAccessor.

Lemma emulator_prepareSet_cases (name value : string) (o : Out)
    (a : EmulatorPropertiesAccessor.t) :
  let v := VirtualMachinePropertiesAccessor.prepareSet name value o
             (EmulatorPropertiesAccessor.m_vmAccessor a) in
  let a1 := EmulatorPropertiesAccessor.withVmAccessor v.2 a in
  EmulatorPropertiesAccessor.prepareSet name value o a
  = match v.1.1 with
    | Ignored => EmulatorPropertiesAccessor.prepareSetOther name value v.1.2 a1
    | _ => (v.1.1, v.1.2, a1)
    end.
Proof.
  cbv zeta. unfold EmulatorPropertiesAccessor.prepareSet.
  destruct (VirtualMachinePropertiesAccessor.prepareSet _ _ _ _) as [[rv ov] av]. cbn.
  destruct rv; try done.
  by destruct (EmulatorPropertiesAccessor.prepareSetOther _ _ _ _) as [[[] ?] ?].
Qed.

Lemma engine_prepareSet_cases (name value : string) (o : Out)
    (a : BuildEnginePropertiesAccessor.t) :
  let v := VirtualMachinePropertiesAccessor.prepareSet name value o
             (BuildEnginePropertiesAccessor.m_vmAccessor a) in
  let a1 := BuildEnginePropertiesAccessor.withVmAccessor v.2 a in
  BuildEnginePropertiesAccessor.prepareSet name value o a
  = match v.1.1 with
    | Ignored => BuildEnginePropertiesAccessor.prepareSetOther name value v.1.2 a1
    | _ => (v.1.1, v.1.2, a1)
    end.
Proof.
  cbv zeta. unfold BuildEnginePropertiesAccessor.prepareSet.
  destruct (VirtualMachinePropertiesAccessor.prepareSet _ _ _ _) as [[rv ov] av]. cbn.
  destruct rv; try done.
  by destruct (BuildEnginePropertiesAccessor.prepareSetOther _ _ _ _) as [[[] ?] ?].
Qed.

(** Whatever the accessor, [*errorString] tells an unknown name from a
    failure: it is "Unrecognized property" when the accessor ignores the
    assignment and another message when it fails. *)
Lemma accessor_says_why (name value : string) (o : Out) (acc : Accessor) :
  let r := accessorPrepareSet name value o acc in
  (r.1.1 = Ignored → errorString r.1.2 = unknownPropertyMessage)
  ∧ (r.1.1 = Failed → errorString r.1.2 ≠ unknownPropertyMessage).
Proof.
  cbv zeta. destruct acc as [a|a|a|a]; cbn [accessorPrepareSet].
  - pose proof (vm_prepareSet_ignored name value o a) as Hi.
    pose proof (vm_prepareSet_failed name value o a) as Hf.
    by destruct (VirtualMachinePropertiesAccessor.prepareSet _ _ _ _) as [[r1 o1] a1].
  - assert (Hi : (SdkPropertiesAccessor.prepareSet name value o a).1.1 = Ignored →
                 errorString (SdkPropertiesAccessor.prepareSet name value o a).1.2
                 = unknownPropertyMessage).
    { unfold SdkPropertiesAccessor.prepareSet, SdkPropertiesAccessor.validateUrls.
      prepare_cases; done. }
    pose proof (sdk_prepareSet_failed name value o a) as Hf.
    by destruct (SdkPropertiesAccessor.prepareSet _ _ _ _) as [[r1 o1] a1].
  - rewrite emulator_prepareSet_cases.
    pose proof (vm_prepareSet_failed name value o
                  (EmulatorPropertiesAccessor.m_vmAccessor a)) as Hfv.
    destruct (VirtualMachinePropertiesAccessor.prepareSet _ _ _ _) as [[rv ov] av].
    cbn [fst snd] in *.
    pose proof (emulator_prepareSetOther_ignored name value ov
                  (EmulatorPropertiesAccessor.withVmAccessor av a)) as Hio.
    pose proof (emulator_prepareSetOther_failed name value ov
                  (EmulatorPropertiesAccessor.withVmAccessor av a)) as Hfo.
    destruct rv; [|done..].
    by destruct (EmulatorPropertiesAccessor.prepareSetOther _ _ _ _) as [[r2 o2] a2].
  - rewrite engine_prepareSet_cases.
    pose proof (vm_prepareSet_failed name value o
                  (BuildEnginePropertiesAccessor.m_vmAccessor a)) as Hfv.
    destruct (VirtualMachinePropertiesAccessor.prepareSet _ _ _ _) as [[rv ov] av].
    cbn [fst snd] in *.
    pose proof (engine_prepareSetOther_ignored name value ov
                  (BuildEnginePropertiesAccessor.withVmAccessor av a)) as Hio.
    pose proof (engine_prepareSetOther_failed name value ov
                  (BuildEnginePropertiesAccessor.withVmAccessor av a)) as Hfo.
    destruct rv; [|done..].
    by destruct (BuildEnginePropertiesAccessor.prepareSetOther _ _ _ _) as [[r2 o2] a2].
Qed.

(** C4, as the code has it.  Both composite accessors hand an assignment to
    the shared virtual-machine group first; whatever that group does not
    ignore is its result.  Only a name the VM group ignores reaches the
    resource-specific group, whose result is then the accessor's.  The
    accessor ignores a name exactly when both groups do; the error then is
    "Unrecognized property", and it is another message whenever a group
    fails.  So the task's [prepareSet] fails with "Unrecognized property"
    exactly when the accessor, that is every group of it, ignores the
    name. *)
Theorem owning_group_resolution (name value : string) (o : Out) :
  (∀ a : EmulatorPropertiesAccessor.t,
     let v := VirtualMachinePropertiesAccessor.prepareSet name value o
                (EmulatorPropertiesAccessor.m_vmAccessor a) in
     let a1 := EmulatorPropertiesAccessor.withVmAccessor v.2 a in
     let other := EmulatorPropertiesAccessor.prepareSetOther name value v.1.2 a1 in
     let r := EmulatorPropertiesAccessor.prepareSet name value o a in
     (v.1.1 ≠ Ignored → r = (v.1.1, v.1.2, a1) ∧ consulted r.1.2 = consulted o ++ [VmGroup])
     ∧ (v.1.1 = Ignored →
        r = other ∧ consulted r.1.2 = consulted o ++ [VmGroup; EmulatorGroup])
     ∧ (r.1.1 = Ignored ↔ v.1.1 = Ignored ∧ other.1.1 = Ignored)
     ∧ (r.1.1 = Ignored → errorString r.1.2 = unknownPropertyMessage)
     ∧ (r.1.1 = Failed → errorString r.1.2 ≠ unknownPropertyMessage))
  ∧ (∀ a : BuildEnginePropertiesAccessor.t,
     let v := VirtualMachinePropertiesAccessor.prepareSet name value o
                (BuildEnginePropertiesAccessor.m_vmAccessor a) in
     let a1 := BuildEnginePropertiesAccessor.withVmAccessor v.2 a in
     let other := BuildEnginePropertiesAccessor.prepareSetOther name value v.1.2 a1 in
     let r := BuildEnginePropertiesAccessor.prepareSet name value o a in
     (v.1.1 ≠ Ignored → r = (v.1.1, v.1.2, a1) ∧ consulted r.1.2 = consulted o ++ [VmGroup])
     ∧ (v.1.1 = Ignored →
        r = other ∧ consulted r.1.2 = consulted o ++ [VmGroup; EngineGroup])
     ∧ (r.1.1 = Ignored ↔ v.1.1 = Ignored ∧ other.1.1 = Ignored)
     ∧ (r.1.1 = Ignored → errorString r.1.2 = unknownPropertyMessage)
     ∧ (r.1.1 = Failed → errorString r.1.2 ≠ unknownPropertyMessage))
  ∧ (∀ task error,
     let group :=
       accessorPrepareSet name value
         {| needsVmOff := false; errorString := error; consulted := [] |}
         (SetPropertiesTask.m_accessor task) in
     let r := SetPropertiesTask.prepareSet name value error task in
     (group.1.1 = Ignored → r.1 = (false, unknownPropertyMessage))
     ∧ (r.1 = (false, unknownPropertyMessage) → group.1.1 = Ignored)).
Proof.
  split; [|split].
  - intros a v a1 other r.
    pose proof (emulator_prepareSet_cases name value o a) as Hr.
    pose proof (accessor_says_why name value o (EmulatorAccessor a)) as [Hi Hf].
    cbv zeta in Hr. cbn [accessorPrepareSet] in Hi, Hf. fold r in Hr, Hi, Hf.
    fold v in Hr. fold a1 in Hr. fold other in Hr.
    assert (Hi' : r.1.1 = Ignored → errorString r.1.2 = unknownPropertyMessage).
    { clear - Hi. destruct r as [[? ?] ?]. exact Hi. }
    assert (Hf' : r.1.1 = Failed → errorString r.1.2 ≠ unknownPropertyMessage).
    { clear - Hf. destruct r as [[? ?] ?]. exact Hf. }
    pose proof (vm_prepareSet_consulted name value o
                  (EmulatorPropertiesAccessor.m_vmAccessor a)) as Hcv.
    pose proof (emulator_prepareSetOther_consulted name value v.1.2 a1) as Hco.
    fold v in Hcv. fold other in Hco. clearbody r other v.
    destruct v as [[rv ov] av]; cbn in *.
    split; [|split; [|split; [|split; [exact Hi'|exact Hf']]]].
    + intros Hne. destruct rv; subst r; cbn; [done|by split..].
    + intros ->. subst r. split; [done|]. by rewrite Hco, Hcv, <- app_assoc.
    + destruct rv; subst r; cbn; [tauto|split; [done|by intros [? _]]..].
  - intros a v a1 other r.
    pose proof (engine_prepareSet_cases name value o a) as Hr.
    pose proof (accessor_says_why name value o (BuildEngineAccessor a)) as [Hi Hf].
    cbv zeta in Hr. cbn [accessorPrepareSet] in Hi, Hf. fold r in Hr, Hi, Hf.
    fold v in Hr. fold a1 in Hr. fold other in Hr.
    assert (Hi' : r.1.1 = Ignored → errorString r.1.2 = unknownPropertyMessage).
    { clear - Hi. destruct r as [[? ?] ?]. exact Hi. }
    assert (Hf' : r.1.1 = Failed → errorString r.1.2 ≠ unknownPropertyMessage).
    { clear - Hf. destruct r as [[? ?] ?]. exact Hf. }
    pose proof (vm_prepareSet_consulted name value o
                  (BuildEnginePropertiesAccessor.m_vmAccessor a)) as Hcv.
    pose proof (engine_prepareSetOther_consulted name value v.1.2 a1) as Hco.
    fold v in Hcv. fold other in Hco. clearbody r other v.
    destruct v as [[rv ov] av]; cbn in *.
    split; [|split; [|split; [|split; [exact Hi'|exact Hf']]]].
    + intros Hne. destruct rv; subst r; cbn; [done|by split..].
    + intros ->. subst r. split; [done|]. by rewrite Hco, Hcv, <- app_assoc.
    + destruct rv; subst r; cbn; [tauto|split; [done|by intros [? _]]..].
  - intros task error group r.
    pose proof (accessor_says_why name value
                  {| needsVmOff := false; errorString := error; consulted := [] |}
                  (SetPropertiesTask.m_accessor task)) as [Hi Hf].
    cbv zeta in Hi, Hf. fold group in Hi, Hf.
    subst r. unfold SetPropertiesTask.prepareSet. fold group. clearbody group.
    destruct group as [[result o1] acc1]. cbn [fst snd] in *.
    destruct result; cbn [fst snd].
    + split; [intros _; by rewrite Hi|done].
    + split; [done|by intros [= ? _]].
    + split; [done|]. intros [= E]. by destruct (Hf eq_refl).
Qed.
End OwningGroupClaims.

Lemma owning_group_resolution_witness :
  let r := EmulatorPropertiesAccessor.prepareSet (H := ReferenceHost.host)
             "ssh.port" "2300" Sample.out
             (EmulatorPropertiesAccessor.create Sample.emulator) in
  consulted r.1.2 = [VmGroup; EmulatorGroup]
  ∧ (BuildEnginePropertiesAccessor.prepareSet (H := ReferenceHost.host)
       "vm.cpu-count" "4" Sample.out
       (BuildEnginePropertiesAccessor.create Sample.engine)).1.1 = Prepared
  ∧ (SetPropertiesTask.prepareSet (H := ReferenceHost.host)
       "no-such-property" "1" EmptyString Sample.engineTask).1
    = (false, "Unrecognized property"%string)
  ∧ (SetPropertiesTask.prepareSet (H := ReferenceHost.host)
       "ssh.timeout" "soon" EmptyString Sample.engineTask).1.1 = false
  ∧ (SetPropertiesTask.prepareSet (H := ReferenceHost.host)
       "ssh.timeout" "soon" EmptyString Sample.engineTask).1
    ≠ (false, "Unrecognized property"%string).
Proof.
  destruct (owning_group_resolution (H := ReferenceHost.host) "ssh.port" "2300" Sample.out)
    as (Hemulator & _ & _).
  destruct (owning_group_resolution (H := ReferenceHost.host) "vm.cpu-count" "4" Sample.out)
    as (_ & Hengine & _).
  destruct (owning_group_resolution (H := ReferenceHost.host)
              "no-such-property" "1" Sample.out) as (_ & _ & Htask).
  destruct (owning_group_resolution (H := ReferenceHost.host)
              "ssh.timeout" "soon" Sample.out) as (_ & _ & Hfailed).
  split; [|split; [|split; [|split]]].
  - destruct (Hemulator (EmulatorPropertiesAccessor.create Sample.emulator))
      as (_ & Hsecond & _).
    exact (proj2 (Hsecond eq_refl)).
  - destruct (Hengine (BuildEnginePropertiesAccessor.create Sample.engine))
      as (Hfirst & _).
    assert (Hne : Prepared ≠ Ignored) by discriminate.
    destruct (Hfirst Hne) as [-> _]. reflexivity.
  - exact (proj1 (Htask Sample.engineTask EmptyString) eq_refl).
  - reflexivity.
  - intros E. apply (proj2 (Hfailed Sample.engineTask EmptyString)) in E.
    vm_compute in E. discriminate E.
Defined.

(** ** Apply: which setters run *)

Section ApplyCalls.
Import VirtualMachinePropertiesAccessor.

Lemma elem_of_execStep (w : World) (c c' : Call) (r : bool * list Call) :
  c' ∈ (execStep w c r).2 ↔ c' ∈ r.2 ∨ c' = c.
Proof. unfold execStep. cbn. rewrite elem_of_app, list_elem_of_singleton. tauto. Qed.

Lemma elem_of_callStep (c c' : Call) (r : bool * list Call) :
  c' ∈ (callStep c r).2 ↔ c' ∈ r.2 ∨ c' = c.
Proof. unfold callStep. cbn. rewrite elem_of_app, list_elem_of_singleton. tauto. Qed.

Lemma elem_of_optional_call (b : bool) (c c' : Call) :
  c' ∈ (if b then [c] else []) ↔ b = true ∧ c' = c.
Proof.
  destruct b; rewrite ?list_elem_of_singleton, ?elem_of_nil; intuition discriminate.
Qed.

(** The setters [VirtualMachinePropertiesAccessor::set] invokes, in order. *)
Lemma vm_set_calls (w : World) (a : t) :
  (set w a).2
  = (if negb (m_memorySizeMb a =? memorySizeMb (m_vm a))
     then [VmSetMemorySizeMb (m_memorySizeMb a)] else [])
    ++ (if negb (m_swapSizeMb a =? swapSizeMb (m_vm a)) && hasFeature SwapMemory (m_vm a)
        then [VmSetSwapSizeMb (m_swapSizeMb a)] else [])
    ++ (if negb (m_cpuCount a =? cpuCount (m_vm a))
        then [VmSetCpuCount (m_cpuCount a)] else [])
    ++ (if negb (m_storageSizeMb a =? storageSizeMb (m_vm a))
        then [VmSetStorageSizeMb (m_storageSizeMb a)] else [])
    ++ (if m_freeSizeMb a >? 0
        then [VmReserveStorageSizeMb (m_freeSizeMb a) (m_incrementMb a)] else []).
Proof.
  unfold set, execStep. cbv zeta.
  destruct (negb (m_memorySizeMb a =? memorySizeMb (m_vm a)));
    destruct (negb (m_swapSizeMb a =? swapSizeMb (m_vm a)) && hasFeature SwapMemory (m_vm a));
    destruct (negb (m_cpuCount a =? cpuCount (m_vm a)));
    destruct (negb (m_storageSizeMb a =? storageSizeMb (m_vm a)));
    destruct (m_freeSizeMb a >? 0); reflexivity.
Qed.

Lemma changed_iff (x y : Z) : negb (x =? y) = true ↔ x ≠ y.
Proof. destruct (Z.eqb_spec x y); cbn; intuition congruence. Qed.

End ApplyCalls.

Section ApplyComposite.

Lemma emulator_setOthers_calls (w : World) (a : EmulatorPropertiesAccessor.t) :
  let e := EmulatorPropertiesAccessor.m_emulator a in
  (EmulatorPropertiesAccessor.setOthers w a).2
  = (if negb (String.eqb (EmulatorPropertiesAccessor.m_deviceModel a) (deviceModelName e))
        || negb (bool_decide (EmulatorPropertiesAccessor.m_orientation a = orientation e))
        || negb (Bool.eqb (EmulatorPropertiesAccessor.m_downscale a) (isViewScaled e))
     then [EmulatorSetDisplayProperties (EmulatorPropertiesAccessor.m_deviceModel a)
             (EmulatorPropertiesAccessor.m_orientation a)
             (EmulatorPropertiesAccessor.m_downscale a)]
     else [])
    ++ (if negb (EmulatorPropertiesAccessor.m_sshPort a =? emulatorSshPort e)
        then [EmulatorSetSshPort (EmulatorPropertiesAccessor.m_sshPort a)] else [])
    ++ (if negb (EmulatorPropertiesAccessor.m_sshTimeout a
                 =? sshTimeout (emulatorVirtualMachine e))
        then [VmSetSshTimeout (EmulatorPropertiesAccessor.m_sshTimeout a)] else []).
Proof.
  unfold EmulatorPropertiesAccessor.setOthers, execStep, callStep. cbv zeta.
  repeat match goal with
         | |- context [if ?b then _ else _] => destruct b
         end; reflexivity.
Qed.

Lemma engine_setOthers_calls (w : World) (a : BuildEnginePropertiesAccessor.t) :
  let e := BuildEnginePropertiesAccessor.m_engine a in
  (BuildEnginePropertiesAccessor.setOthers w a).2
  = (if BuildEnginePropertiesAccessor.m_hostNameChanged a
     then [SdkSetCustomBuildHostName (BuildEnginePropertiesAccessor.m_hostName a)]
     else [])
    ++ [SdkSetBuildEnvironmentFilter
          (BuildEnginePropertiesAccessor.m_buildEnvironmentFilter a)]
    ++ (if negb (BuildEnginePropertiesAccessor.m_sshPort a =? engineSshPort e)
        then [EngineSetSshPort (BuildEnginePropertiesAccessor.m_sshPort a)] else [])
    ++ (if negb (BuildEnginePropertiesAccessor.m_sshTimeout a
                 =? sshTimeout (engineVirtualMachine e))
        then [VmSetSshTimeout (BuildEnginePropertiesAccessor.m_sshTimeout a)] else [])
    ++ (if negb (BuildEnginePropertiesAccessor.m_dBusPort a =? engineDBusPort e)
        then [EngineSetDBusPort (BuildEnginePropertiesAccessor.m_dBusPort a)] else []).
Proof.
  unfold BuildEnginePropertiesAccessor.setOthers, execStep, callStep. cbv zeta.
  repeat match goal with
         | |- context [if ?b then _ else _] => destruct b
         end; reflexivity.
Qed.

Lemma emulator_set_calls (w : World) (a : EmulatorPropertiesAccessor.t) :
  let v := VirtualMachinePropertiesAccessor.set w
             (EmulatorPropertiesAccessor.m_vmAccessor a) in
  (EmulatorPropertiesAccessor.set w a).2
  = v.2 ++ (if v.1 then (EmulatorPropertiesAccessor.setOthers w a).2 else []).
Proof.
  unfold EmulatorPropertiesAccessor.set. cbv zeta.
  destruct (VirtualMachinePropertiesAccessor.set _ _) as [[] calls]; cbn.
  - by destruct (EmulatorPropertiesAccessor.setOthers w a).
  - by rewrite app_nil_r.
Qed.

Lemma engine_set_calls (w : World) (a : BuildEnginePropertiesAccessor.t) :
  let v := VirtualMachinePropertiesAccessor.set w
             (BuildEnginePropertiesAccessor.m_vmAccessor a) in
  (BuildEnginePropertiesAccessor.set w a).2
  = v.2 ++ (if v.1 then (BuildEnginePropertiesAccessor.setOthers w a).2 else []).
Proof.
  unfold BuildEnginePropertiesAccessor.set. cbv zeta.
  destruct (VirtualMachinePropertiesAccessor.set _ _) as [[] calls]; cbn.
  - by destruct (BuildEnginePropertiesAccessor.setOthers w a).
  - by rewrite app_nil_r.
Qed.




End ApplyComposite.

(** Membership goals over the lists of calls spelled out above. *)
Ltac calls_solver :=
  repeat setoid_rewrite elem_of_app;
  repeat setoid_rewrite elem_of_cons;
  repeat setoid_rewrite elem_of_optional_call;
  repeat setoid_rewrite elem_of_nil;
  repeat setoid_rewrite orb_true_iff;
  repeat setoid_rewrite andb_true_iff;
  repeat setoid_rewrite changed_iff;
  intuition (try discriminate; try congruence).



Section ApplyClaims.

End ApplyClaims.


(** ** The batch: prepare everything, then apply *)

Section Batch.
Context `{Host}.
Import BuiltinWorker.

Lemma prepareAll_app (pre rest : list string) (task : SetPropertiesTask.t)
    (ns : list string) :
  prepareAll (pre ++ rest) task ns
  = match prepareAll pre task ns with
    | inl early => inl early
    | inr (task', ns') => prepareAll rest task' ns'
    end.
Proof.
  revert task ns. induction pre as [|a pre IH]; intros task ns; [done|].
  cbn [app prepareAll]. cbv zeta.
  destruct (QString.indexOf "=" a <=? 0); [done|].
  destruct (SetPropertiesTask.prepareSet _ _ _ _) as [[ok e] task'].
  destruct ok; cbn [negb]; [|done]. apply IH.
Qed.

(** An early return of the loop has invoked no setter. *)
Lemma prepareAll_early_calls (l : list string) (task : SetPropertiesTask.t)
    (ns : list string) (early : Outcome) :
  prepareAll l task ns = inl early → calls early = [].
Proof.
  revert task ns. induction l as [|a l IH]; intros task ns; [done|].
  cbn [prepareAll]. cbv zeta.
  destruct (QString.indexOf "=" a <=? 0); [by intros [= <-]|].
  destruct (SetPropertiesTask.prepareSet _ _ _ _) as [[ok e] task'].
  destruct ok; cbn [negb]; [apply IH|by intros [= <-]].
Qed.

(** C1.  When the assignments before [a] are staged and [a], a well-formed
    assignment, fails [prepareSet] with the error [e], [setProperties]
    returns at once: exit code [EXIT_FAILURE], the property and [e] on the
    error stream, and no setter invoked, whatever assignments follow. *)
Theorem failed_prepare_aborts_batch (w : World) (task : SetPropertiesTask.t)
    (pre post : list string) (a : string)
    (staged failed : SetPropertiesTask.t) (ns : list string) (e : string) :
  let splitAt := QString.indexOf "=" a in
  let property := QString.left splitAt a in
  let value := QString.mid (splitAt + 1) a in
  prepareAll pre task [] = inr (staged, ns) →
  0 < splitAt →
  SetPropertiesTask.prepareSet (QString.camelToHyphenated property) value
    EmptyString staged = (false, e, failed) →
  setProperties w task (pre ++ a :: post)
  = {| exitStatus := NormalExit; exitCode := Some EXIT_FAILURE;
       qerr := [property +:+ ": " +:+ e]; notices := ns; calls := [] |}.
Proof.
  intros splitAt property value Hpre Hsplit Hfail.
  unfold setProperties. rewrite prepareAll_app, Hpre.
  cbn [prepareAll]. cbv zeta. fold splitAt.
  destruct (Z.leb_spec splitAt 0); [lia|].
  fold property. fold value. by rewrite Hfail.
Qed.


Lemma prepareSet_keeps (name value error : string) (task : SetPropertiesTask.t) :
  let r := SetPropertiesTask.prepareSet name value error task in
  SetPropertiesTask.m_stopVmMessage r.2 = SetPropertiesTask.m_stopVmMessage task
  ∧ (sdkNeverNeedsVmOff task → sdkNeverNeedsVmOff r.2).
Proof.
  unfold SetPropertiesTask.prepareSet, sdkNeverNeedsVmOff.
  destruct task as [[a|a|a|a] stop off]; cbn [SetPropertiesTask.m_accessor accessorPrepareSet].
  - destruct (VirtualMachinePropertiesAccessor.prepareSet _ _ _ _) as [[[] ?] ?]; done.
  - assert (Hoff : needsVmOff
             (SdkPropertiesAccessor.prepareSet name value
                {| needsVmOff := false; errorString := error; consulted := [] |} a).1.2
             = false).
    { unfold SdkPropertiesAccessor.prepareSet, SdkPropertiesAccessor.validateUrls.
      prepare_cases; done. }
    destruct (SdkPropertiesAccessor.prepareSet _ _ _ _) as [[[] o] ?]; cbn in *;
      split; try done. intros ->. by rewrite Hoff.
  - destruct (EmulatorPropertiesAccessor.prepareSet _ _ _ _) as [[[] ?] ?]; done.
  - destruct (BuildEnginePropertiesAccessor.prepareSet _ _ _ _) as [[[] ?] ?]; done.
Qed.

Lemma prepareAll_keeps (l : list string) (task staged : SetPropertiesTask.t)
    (ns ns' : list string) :
  prepareAll l task ns = inr (staged, ns') →
  SetPropertiesTask.m_stopVmMessage staged = SetPropertiesTask.m_stopVmMessage task
  ∧ (sdkNeverNeedsVmOff task → sdkNeverNeedsVmOff staged).
Proof.
  revert task ns. induction l as [|a l IH]; intros task ns.
  - by intros [= <- <-].
  - cbn [prepareAll]. cbv zeta.
    destruct (QString.indexOf "=" a <=? 0); [done|].
    pose proof (prepareSet_keeps
                  (QString.camelToHyphenated (QString.left (QString.indexOf "=" a) a))
                  (QString.mid (QString.indexOf "=" a + 1) a) EmptyString task)
      as [Hstop Hsdk].
    cbv zeta in Hstop, Hsdk.
    destruct (SetPropertiesTask.prepareSet _ _ _ _) as [[ok e] task'].
    destruct ok; cbn [negb]; [|done].
    intros [Hstop' Hsdk']%IH. cbn in *. split; [congruence|tauto].
Qed.

(** The flag of the task is only ever raised: [m_needsVmOff |= needsVmOff]. *)
Lemma prepareSet_raises (name value error : string) (task : SetPropertiesTask.t) :
  let r := SetPropertiesTask.prepareSet name value error task in
  SetPropertiesTask.m_needsVmOff task = true →
  SetPropertiesTask.m_needsVmOff r.2 = true.
Proof.
  cbv zeta. unfold SetPropertiesTask.prepareSet. intros Hoff.
  destruct (accessorPrepareSet _ _ _ _) as [[[] o] acc]; cbn; by rewrite ?Hoff.
Qed.

Lemma prepareAll_raises (l : list string) (task staged : SetPropertiesTask.t)
    (ns ns' : list string) :
  prepareAll l task ns = inr (staged, ns') →
  SetPropertiesTask.m_needsVmOff task = true →
  SetPropertiesTask.m_needsVmOff staged = true.
Proof.
  revert task ns. induction l as [|a l IH]; intros task ns.
  - by intros [= <- <-].
  - cbn [prepareAll]. cbv zeta.
    destruct (QString.indexOf "=" a <=? 0); [done|].
    pose proof (prepareSet_raises
                  (QString.camelToHyphenated (QString.left (QString.indexOf "=" a) a))
                  (QString.mid (QString.indexOf "=" a + 1) a) EmptyString task)
      as Hraise.
    cbv zeta in Hraise.
    destruct (SetPropertiesTask.prepareSet _ _ _ _) as [[ok e] task'].
    destruct ok; cbn [negb]; [|done].
    intros Hrest Hoff. apply (IH _ _ Hrest), Hraise, Hoff.
Qed.

(** An assignment that requires the machine off raises the flag when it is
    staged. *)
Lemma prepareAll_requires (a : string) (post : list string)
    (before staged : SetPropertiesTask.t) (ns ns' : list string) :
  prepareAll (a :: post) before ns = inr (staged, ns') →
  requiresVmOff a before = true →
  SetPropertiesTask.m_needsVmOff staged = true.
Proof.
  cbn [prepareAll]. cbv zeta. unfold requiresVmOff. cbv zeta.
  destruct (QString.indexOf "=" a <=? 0); [done|].
  unfold SetPropertiesTask.prepareSet.
  destruct (accessorPrepareSet _ _ _ _) as [[result o] acc].
  destruct result; cbn [negb]; try done.
  intros Hrest Hoff. apply (prepareAll_raises _ _ _ _ _ Hrest). cbn.
  apply andb_true_iff in Hoff as [_ ->]. apply orb_true_r.
Qed.

(** C2.  When an assignment of the batch requires the machine to be off
    (the accessor prepares it and leaves [*needsVmOff] set), the batch is
    staged whole, the machine is observed running and the auto-stop
    override is not set, the task is marked as needing the machine off
    whatever is assigned before and after, and [set] returns false with
    the task's stop-it-yourself message and invokes nothing: neither the
    lock-down nor any setter.  The command ends with [EXIT_FAILURE] and
    that message. *)
Theorem running_vm_blocks_apply (w : World) (accessor : Accessor) (stopVmMessage : string)
    (pre post : list string) (a : string) (before staged : SetPropertiesTask.t)
    (ns0 ns : list string) :
  let task := SetPropertiesTask.create accessor stopVmMessage in
  prepareAll pre task [] = inr (before, ns0) →
  requiresVmOff a before = true →
  prepareAll (pre ++ a :: post) task [] = inr (staged, ns) →
  isRunningReliably w = true →
  autoStopVms w = 0 →
  SetPropertiesTask.m_needsVmOff staged = true
  ∧ SetPropertiesTask.set w EmptyString staged = (false, stopVmMessage, [])
  ∧ setProperties w task (pre ++ a :: post)
    = {| exitStatus := NormalExit; exitCode := Some EXIT_FAILURE;
         qerr := [stopVmMessage]; notices := ns; calls := [] |}.
Proof.
  intros task Hpre Hrequires Hstaged Hrunning Hauto.
  assert (Hoff : SetPropertiesTask.m_needsVmOff staged = true).
  { rewrite prepareAll_app, Hpre in Hstaged.
    exact (prepareAll_requires _ _ _ _ _ _ Hstaged Hrequires). }
  destruct (prepareAll_keeps _ _ _ _ _ Hstaged) as [Hstop Hsdk].
  assert (Hset : SetPropertiesTask.set w EmptyString staged = (false, stopVmMessage, [])).
  { unfold SetPropertiesTask.set.
    assert (Hcan : accessorCanSet EmptyString (SetPropertiesTask.m_accessor staged)
                   = (true, EmptyString)).
    { specialize (Hsdk ltac:(by unfold sdkNeverNeedsVmOff; destruct accessor)).
      unfold sdkNeverNeedsVmOff in Hsdk.
      destruct (SetPropertiesTask.m_accessor staged); try done. congruence. }
    rewrite Hcan, Hoff, Hauto, Hrunning. cbn. by rewrite Hstop. }
  split; [done|]. split; [done|]. unfold setProperties. by rewrite Hstaged, Hset.
Qed.
End Batch.

Lemma failed_prepare_aborts_batch_witness :
  BuiltinWorker.setProperties (H := ReferenceHost.host) Sample.world Sample.engineTask
    ["vm.cpuCount=4"%string; "ssh.port=80"%string; "dbus.port=7778"%string]
  = {| BuiltinWorker.exitStatus := BuiltinWorker.NormalExit;
       BuiltinWorker.exitCode := Some 1;
       BuiltinWorker.qerr := ["ssh.port: Privileged ports may not be used"%string];
       BuiltinWorker.notices :=
         [BuiltinWorker.deprecatedMessage "vm.cpuCount" "vm.cpu-count"];
       BuiltinWorker.calls := [] |}.
Proof.
  eassert (Hpre : BuiltinWorker.prepareAll (H := ReferenceHost.host)
                    ["vm.cpuCount=4"%string] Sample.engineTask [] = inr (_, _))
    by (vm_compute; reflexivity).
  match type of Hpre with
  | _ = inr (?staged, _) =>
      eassert (Hfail : SetPropertiesTask.prepareSet (H := ReferenceHost.host)
                 (QString.camelToHyphenated
                    (QString.left (QString.indexOf "=" "ssh.port=80") "ssh.port=80"))
                 (QString.mid (QString.indexOf "=" "ssh.port=80" + 1) "ssh.port=80")
                 EmptyString staged = (false, _, _))
        by (vm_compute; reflexivity)
  end.
  assert (Hsplit : 0 < QString.indexOf "=" "ssh.port=80") by (vm_compute; reflexivity).
  exact (failed_prepare_aborts_batch (H := ReferenceHost.host) Sample.world
           Sample.engineTask ["vm.cpuCount=4"%string] ["dbus.port=7778"%string]
           "ssh.port=80" _ _ _ _ Hpre Hsplit Hfail).
Defined.

Lemma running_vm_blocks_apply_witness :
  BuiltinWorker.setProperties (H := ReferenceHost.host) Sample.world Sample.engineTask
    ["host-name=builder"%string; "ssh.port=2300"%string; "ssh.timeout=30"%string]
  = {| BuiltinWorker.exitStatus := BuiltinWorker.NormalExit;
       BuiltinWorker.exitCode := Some 1;
       BuiltinWorker.qerr := [Sample.stopMessage];
       BuiltinWorker.notices := [];
       BuiltinWorker.calls := [] |}.
Proof.
  eassert (Hpre : BuiltinWorker.prepareAll (H := ReferenceHost.host)
                    ["host-name=builder"%string]
                    (SetPropertiesTask.create
                       (BuildEngineAccessor
                          (BuildEnginePropertiesAccessor.create Sample.engine))
                       Sample.stopMessage) [] = inr (_, _))
    by (vm_compute; reflexivity).
  eassert (Hstaged : BuiltinWorker.prepareAll (H := ReferenceHost.host)
                       (["host-name=builder"%string]
                          ++ "ssh.port=2300"%string :: ["ssh.timeout=30"%string])
                       (SetPropertiesTask.create
                          (BuildEngineAccessor
                             (BuildEnginePropertiesAccessor.create Sample.engine))
                          Sample.stopMessage) [] = inr (_, _))
    by (vm_compute; reflexivity).
  exact (proj2 (proj2 (running_vm_blocks_apply (H := ReferenceHost.host) Sample.world
                  (BuildEngineAccessor
                     (BuildEnginePropertiesAccessor.create Sample.engine))
                  Sample.stopMessage ["host-name=builder"%string]
                  ["ssh.timeout=30"%string] "ssh.port=2300" _ _ _ _
                  Hpre eq_refl Hstaged eq_refl eq_refl))).
Defined.

(** ** Build-target reconciliation: the sanity check *)

Section Sanitized.
Import BuildEnginePrivate.

Lemma prefix_true_app (p s : string) :
  String.prefix p s = true → ∃ r, s = p +:+ r.
Proof.
  revert s. induction p as [|a p IH]; intros s.
  - intros _. by exists s.
  - destruct s as [|b s]; cbn; [done|].
    destruct (ascii_dec a b) as [->|]; [|done].
    intros [r ->]%IH. by exists r.
Qed.

Lemma append_cons (a : ascii) (p q : string) : String a p +:+ q = String a (p +:+ q).
Proof. reflexivity. Qed.

Lemma prefix_app_true (p r : string) : String.prefix p (p +:+ r) = true.
Proof.
  induction p as [|a p IH]; [by destruct r|].
  rewrite append_cons. simpl. destruct (ascii_dec a a); [exact IH|congruence].
Qed.

Lemma length_app_string (p r : string) :
  String.length (p +:+ r) = (String.length p + String.length r)%nat.
Proof.
  induction p as [|a p IH]; [done|]. rewrite append_cons. simpl. by rewrite IH.
Qed.

Lemma append_assoc_string (p q r : string) : (p +:+ q) +:+ r = p +:+ (q +:+ r).
Proof. induction p as [|a p IH]; [done|]. rewrite !append_cons. by rewrite IH. Qed.

Lemma nonempty_length (s : string) : s ≠ EmptyString ↔ (0 < String.length s)%nat.
Proof. destruct s; cbn; split; (done || lia). Qed.


Lemma snapshot_test_spec (target : BuildTargetDump) :
  QString.startsWith (origin target +:+ ".") (name target)
  && (QString.length (name target) >? QString.length (origin target) + 1) = true
  ↔ wellNamedSnapshot target.
Proof.
  unfold wellNamedSnapshot, QString.startsWith, QString.length.
  rewrite andb_true_iff. split.
  - intros [[r Hr]%prefix_true_app Hlen]. exists r.
    rewrite append_assoc_string in Hr. split; [|by rewrite Hr].
    apply nonempty_length. apply Z.gtb_lt in Hlen.
    rewrite Hr, !length_app_string in Hlen. cbn in Hlen. lia.
  - intros (suffix & Hne%nonempty_length & ->).
    rewrite <- append_assoc_string. split; [apply prefix_app_true|].
    apply Z.gtb_lt. rewrite !length_app_string. cbn. lia.
Qed.

Lemma isEmpty_true (s : string) : QString.isEmpty s = true ↔ s = EmptyString.
Proof. by destruct s. Qed.

(** The filter keeps exactly the targets that are nobody's origin and, when
    they have an origin, are named after it. *)
Lemma sane_spec (origins : list string) (target : BuildTargetDump) :
  sane origins target = true
  ↔ (name target ∉ origins) ∧ (origin target ≠ EmptyString → wellNamedSnapshot target).
Proof.
  unfold sane. cbv zeta. rewrite <- snapshot_test_spec.
  destruct (bool_decide_reflect (name target ∈ origins)) as [Hin|Hnot].
  { split; [done|]. by intros [? _]. }
  destruct (QString.isEmpty (origin target)) eqn:E; cbn [negb].
  - apply isEmpty_true in E. split; [|done]. intros _. split; [done|]. by intros [].
  - assert (origin target ≠ EmptyString) as Hne.
    { intros Heq%isEmpty_true. congruence. }
    destruct (_ && _); cbn [negb]; split; try done.
    + intros [_ Hw]. by specialize (Hw Hne).
Qed.

Lemma elem_of_sanitized (newTargets : list BuildTargetDump) (target : BuildTargetDump) :
  target ∈ sanitized newTargets
  ↔ target ∈ newTargets
    ∧ (∀ other, other ∈ newTargets → origin other ≠ name target)
    ∧ (origin target ≠ EmptyString → wellNamedSnapshot target).
Proof.
  unfold sanitized. cbv zeta.
  rewrite list_elem_of_In, List.filter_In, <- list_elem_of_In, sane_spec.
  rewrite list_elem_of_fmap. split.
  - intros (Hin & Hnot & Hw). repeat split; try done.
    intros other Hother E. apply Hnot. by exists other.
  - intros (Hin & Hnot & Hw). repeat split; try done.
    intros (other & E & Hother). by apply (Hnot other).
Qed.
End Sanitized.

(** ** Build-target reconciliation: the three loops *)

Section RemoveLastFirst.
Context {A : Type}.
Implicit Types (X Y : list A) (R : list nat).

Local Abbreviation removeAll X R := (foldr (λ i acc, delete i acc) X R).

Lemma removeAll_app X Y R :
  removable R X → removeAll (X ++ Y) R = removeAll X R ++ Y.
Proof.
  induction R as [|r R IH]; [done|]. cbn. intros [HR Hr].
  rewrite IH by done. revert Hr. generalize (removeAll X R). clear.
  intros Z. revert r. induction Z as [|z Z IH]; intros r Hr; [cbn in Hr; lia|].
  destruct r as [|r]; [done|]. cbn. f_equal. apply IH. cbn in Hr. lia.
Qed.

Lemma removable_app X Y R : removable R X → removable R (X ++ Y).
Proof.
  induction R as [|r R IH]; [done|]. cbn. intros [HR Hr]. split; [by apply IH|].
  rewrite removeAll_app, length_app by done. lia.
Qed.

Lemma removeAll_snoc X y R :
  removeAll (X ++ [y]) (R ++ [length X]) = removeAll X R.
Proof.
  rewrite foldr_app. cbn. rewrite delete_middle. by rewrite app_nil_r.
Qed.

Lemma removable_snoc X y R :
  removable R X → removable (R ++ [length X]) (X ++ [y]).
Proof.
  induction R as [|r R IH]; cbn.
  - intros _. split; [done|]. rewrite length_app. cbn. lia.
  - intros [HR Hr]. split; [by apply IH|]. by rewrite removeAll_snoc.
Qed.
End RemoveLastFirst.

Section Loops.
Context `{Paths}.
Import BuildEnginePrivate.

Lemma indexOfDump_Some (x : BuildTargetDump) (l : list BuildTargetDump) (k : nat) :
  indexOfDump x l = Some k → l !! k = Some x.
Proof.
  unfold indexOfDump. destruct (list_find _ l) as [[i y]|] eqn:E; [|done].
  apply list_find_Some in E as (Hy & -> & _). by intros [= <-].
Qed.

Lemma indexOfDump_elem_of (x : BuildTargetDump) (l : list BuildTargetDump) :
  x ∈ l → is_Some (indexOfDump x l).
Proof.
  intros Hin. unfold indexOfDump.
  destruct (list_find_elem_of (λ y, y = x) l x Hin eq_refl) as [[i y] ->]. by eexists.
Qed.

Lemma indexOfData_lt (x : BuildTargetData) (l : list BuildTargetData) (k : nat) :
  indexOfData x l = Some k → (k < length l)%nat.
Proof.
  unfold indexOfData. destruct (list_find _ l) as [[i y]|] eqn:E; [|done].
  apply list_find_Some in E as (Hy & _). intros [= <-]. by eapply lookup_lt_Some.
Qed.

(** The targets [removeTargets] leaves, and its silence when nothing is to
    be removed. *)
Lemma removeTargets_targets (sys : bool) (R : list nat)
    (st : list BuildTargetDump * list BuildTargetData * list TargetEvent) :
  (removeTargets sys R st).1.1 = foldr (λ i acc, delete i acc) st.1.1 R.
Proof.
  unfold removeTargets. induction R as [|r R IH]; [done|]. cbn.
  destruct (foldr _ st R) as [[T D] E]. cbn in *. by rewrite IH.
Qed.

Lemma addTargets_targets (sys : bool) (e : t) (added : list BuildTargetDump)
    (st : list BuildTargetDump * list BuildTargetData * list TargetEvent) :
  (addTargets sys e added st).1.1 = st.1.1 ++ added.
Proof.
  unfold addTargets. revert st. induction added as [|x added IH]; intros [[T D] E]; cbn.
  - by rewrite app_nil_r.
  - rewrite IH. cbn. by rewrite <- app_assoc.
Qed.

(** The first loop keeps, of the targets it has gone through and of the
    candidates still unmatched, exactly the sanitized candidates. *)
Lemma matchTargets_permutation (sys : bool) (cachedData : list BuildTargetData)
    (wanted : list BuildTargetDump) (rest done : list BuildTargetDump) (m m' : Matching) :
  cached m = done ++ rest →
  matchTargets sys cachedData (length rest) (length done) m = Some m' →
  removable (toRemove m) done →
  foldr (λ i acc, delete i acc) done (toRemove m) ++ newTargets m ≡ₚ wanted →
  removable (toRemove m') (cached m')
  ∧ foldr (λ i acc, delete i acc) (cached m') (toRemove m') ++ newTargets m' ≡ₚ wanted.
Proof.
  revert done m. induction rest as [|x rest IH]; intros done m Hcached Hloop Hrem Hperm.
  { cbn in Hloop. simplify_eq. rewrite Hcached, app_nil_r. done. }
  cbn [length matchTargets] in Hloop.
  rewrite Hcached, list_lookup_middle in Hloop by done. cbn [mbind option_bind] in Hloop.
  assert (Hnext : ∀ y, S (length done) = length (done ++ [y])).
  { intros y. rewrite length_app. cbn. lia. }
  destruct (indexOfDump x (newTargets m)) as [k|] eqn:Ek.
  - (* the very target is among the candidates *)
    apply indexOfDump_Some in Ek. rewrite (Hnext x) in Hloop.
    eapply IH in Hloop; [done|..]; cbn.
    + by rewrite <- app_assoc.
    + by apply removable_app.
    + rewrite removeAll_app by done. rewrite <- Hperm.
      rewrite (delete_Permutation (newTargets m) k x) at 2 by done.
      rewrite <- app_assoc. cbn. done.
  - destruct (cachedData !! length done) as [data|]; [|done].
    cbn [mbind option_bind] in Hloop.
    destruct (indexOfData data (newTargetsData m)) as [k|] eqn:Edata.
    + (* a candidate with the same derived data replaces the target *)
      destruct (newTargets m !! k) as [replacement|] eqn:Ereplacement; [|done].
      cbn [mbind option_bind] in Hloop. rewrite (Hnext replacement) in Hloop.
      eapply IH in Hloop; [done|..]; cbn.
      * rewrite <- app_assoc. cbn.
        replace (length done) with (length done + 0)%nat by lia.
        by rewrite insert_app_r.
      * by apply removable_app.
      * rewrite removeAll_app by done. rewrite <- Hperm.
        rewrite (delete_Permutation (newTargets m) k replacement) at 2 by done.
        rewrite <- app_assoc. cbn. done.
    + (* nothing matches: the target is to be removed *)
      rewrite (Hnext x) in Hloop.
      eapply IH in Hloop; [done|..]; cbn.
      * by rewrite <- app_assoc.
      * by apply removable_snoc.
      * by rewrite removeAll_snoc.
Qed.
End Loops.

Section Reconciliation.
Context `{Paths}.
Import BuildEnginePrivate.

Lemma length_delete_same {A B} (l1 : list A) (l2 : list B) (k : nat) :
  length l1 = length l2 → length (delete k l1) = length (delete k l2).
Proof.
  revert l2 k. induction l1 as [|x l1 IH]; intros [|y l2] k E; try done.
  destruct k as [|k]; cbn in *; [lia|]. f_equal. apply IH. lia.
Qed.

(** With data for every cached target, the first loop never reads outside
    a list. *)
Lemma matchTargets_total (sys : bool) (cachedData : list BuildTargetData)
    (rest done : list BuildTargetDump) (m : Matching) :
  cached m = done ++ rest →
  (length (cached m) ≤ length cachedData)%nat →
  length (newTargetsData m) = length (newTargets m) →
  is_Some (matchTargets sys cachedData (length rest) (length done) m).
Proof.
  revert done m. induction rest as [|x rest IH]; intros done m Hcached Hdata Hnew.
  { by eexists. }
  cbn [length matchTargets].
  rewrite Hcached, list_lookup_middle by done. cbn [mbind option_bind].
  assert (Hnext : ∀ y, S (length done) = length (done ++ [y])).
  { intros y. rewrite length_app. cbn. lia. }
  rewrite Hcached in Hdata.
  assert (Hhere : (length done < length cachedData)%nat).
  { rewrite length_app in Hdata. cbn in Hdata. lia. }
  destruct (indexOfDump x (newTargets m)) as [k|] eqn:Ek.
  - rewrite (Hnext x), <- Hcached. apply IH; cbn.
    + by rewrite Hcached, <- app_assoc.
    + by rewrite Hcached.
    + by apply length_delete_same.
  - destruct (lookup_lt_is_Some_2 cachedData (length done) Hhere) as [data ->].
    cbn [mbind option_bind].
    destruct (indexOfData data (newTargetsData m)) as [k|] eqn:Edata.
    + apply indexOfData_lt in Edata. rewrite Hnew in Edata.
      destruct (lookup_lt_is_Some_2 _ _ Edata) as [replacement ->].
      cbn [mbind option_bind]. rewrite (Hnext replacement). apply IH; cbn.
      * rewrite <- app_assoc. cbn.
        replace (length done) with (length done + 0)%nat by lia.
        by rewrite insert_app_r.
      * by rewrite length_insert.
      * by apply length_delete_same.
    + rewrite (Hnext x), <- Hcached. apply IH; cbn;
        [by rewrite Hcached, <- app_assoc|by rewrite Hcached|done].
Qed.

(** When the candidates are the cached targets in some order, every cached
    target finds itself among them: nothing is updated or marked. *)
Lemma matchTargets_all_matched (sys : bool) (cachedData : list BuildTargetData)
    (rest done : list BuildTargetDump) (m : Matching) :
  cached m = done ++ rest →
  newTargets m ≡ₚ rest →
  ∃ data,
    matchTargets sys cachedData (length rest) (length done) m
    = Some {| cached := cached m; newTargets := []; newTargetsData := data;
              toRemove := toRemove m; events := events m |}.
Proof.
  revert done m. induction rest as [|x rest IH]; intros done m Hcached Hperm.
  { apply Permutation_nil_r in Hperm. exists (newTargetsData m). cbn.
    destruct m; cbn in *. by subst. }
  cbn [length matchTargets].
  rewrite Hcached, list_lookup_middle by done. cbn [mbind option_bind].
  assert (Hin : x ∈ newTargets m) by (rewrite Hperm; apply elem_of_cons; by left).
  destruct (indexOfDump_elem_of _ _ Hin) as [k Ek]. rewrite Ek.
  apply indexOfDump_Some in Ek.
  assert (Hnext : S (length done) = length (done ++ [x])).
  { rewrite length_app. cbn. lia. }
  rewrite Hnext, <- Hcached.
  edestruct (IH (done ++ [x])
               {| cached := cached m; newTargets := delete k (newTargets m);
                  newTargetsData := delete k (newTargetsData m);
                  toRemove := toRemove m; events := events m |}) as [data Hdata]; cbn.
  - by rewrite <- app_assoc.
  - apply (inj (x ::.)). by rewrite <- delete_Permutation.
  - by exists data.
Qed.

(** The targets after [updateBuildTargets] are the sanitized candidates, in
    some order. *)
Lemma updateBuildTargets_permutation (sys : bool) (newTargets : list BuildTargetDump)
    (e e' : t) (ev : list TargetEvent) :
  updateBuildTargets sys newTargets e = Some (e', ev) →
  buildTargets e' ≡ₚ sanitized newTargets.
Proof.
  unfold updateBuildTargets. cbv zeta.
  destruct (matchTargets _ _ _ _ _) as [m|] eqn:Em; [|done]. cbn [mbind option_bind].
  eapply (matchTargets_permutation sys _ (sanitized newTargets) (buildTargets e) [])
    in Em as [_ Hperm]; [|done..].
  pose proof (addTargets_targets sys e (BuildEnginePrivate.newTargets m)
                (removeTargets sys (toRemove m) (cached m, buildTargetsData e, events m)))
    as Hadd.
  rewrite removeTargets_targets in Hadd. cbn in Hadd.
  destruct (addTargets _ _ _ _) as [[targets data] events']. cbn in Hadd.
  intros [= <- _]. cbn. by rewrite Hadd.
Qed.

Lemma updateBuildTargets_total (sys : bool) (newTargets : list BuildTargetDump) (e : t) :
  (length (buildTargets e) ≤ length (buildTargetsData e))%nat →
  is_Some (updateBuildTargets sys newTargets e).
Proof.
  intros Hdata. unfold updateBuildTargets. cbv zeta.
  destruct (matchTargets_total sys (buildTargetsData e) (buildTargets e) []
              {| cached := buildTargets e; newTargets := sanitized newTargets;
                 newTargetsData := createTargetData e <$> sanitized newTargets;
                 toRemove := []; events := [] |}) as [m Hm]; cbn;
    [done|done|by rewrite length_fmap|].
  cbn in Hm. rewrite Hm. cbn [mbind option_bind].
  destruct (addTargets _ _ _ _) as [[? ?] ?]. by eexists.
Qed.

(** Reconciliation keeps one data record per cached target. *)
Lemma matchTargets_length (sys : bool) (cachedData : list BuildTargetData)
    (n i : nat) (m m' : Matching) :
  matchTargets sys cachedData n i m = Some m' → length (cached m') = length (cached m).
Proof.
  revert i m. induction n as [|n IH]; intros i m; cbn [matchTargets].
  { by intros [= <-]. }
  destruct (cached m !! i) as [x|]; [|done]. cbn [mbind option_bind].
  destruct (indexOfDump x (newTargets m)) as [k|].
  { by intros ->%IH. }
  destruct (cachedData !! i) as [data|]; [|done]. cbn [mbind option_bind].
  destruct (indexOfData data (newTargetsData m)) as [k|].
  - destruct (newTargets m !! k) as [replacement|]; [|done]. cbn [mbind option_bind].
    intros ->%IH. cbn. by rewrite length_insert.
  - by intros ->%IH.
Qed.

Lemma removeTargets_lengths (sys : bool) (R : list nat)
    (st : list BuildTargetDump * list BuildTargetData * list TargetEvent) :
  length st.1.1 = length st.1.2 →
  length (removeTargets sys R st).1.1 = length (removeTargets sys R st).1.2.
Proof.
  intros Hst. unfold removeTargets. induction R as [|r R IH]; [done|]. cbn.
  destruct (foldr _ st R) as [[T D] E]. cbn in *. by apply length_delete_same.
Qed.

Lemma addTargets_lengths (sys : bool) (e : t) (added : list BuildTargetDump)
    (st : list BuildTargetDump * list BuildTargetData * list TargetEvent) :
  length st.1.1 = length st.1.2 →
  length (addTargets sys e added st).1.1 = length (addTargets sys e added st).1.2.
Proof.
  unfold addTargets. revert st. induction added as [|x added IH]; intros [[T D] E] Hst;
    cbn in *; [done|].
  apply IH. cbn. rewrite !length_app. cbn. lia.
Qed.

Lemma updateBuildTargets_lengths (sys : bool) (newTargets : list BuildTargetDump)
    (e e' : t) (ev : list TargetEvent) :
  length (buildTargets e) = length (buildTargetsData e) →
  updateBuildTargets sys newTargets e = Some (e', ev) →
  length (buildTargets e') = length (buildTargetsData e').
Proof.
  intros Hdata. unfold updateBuildTargets. cbv zeta.
  destruct (matchTargets _ _ _ _ _) as [m|] eqn:Em; [|done]. cbn [mbind option_bind].
  apply matchTargets_length in Em. cbn in Em.
  pose proof (addTargets_lengths sys e (BuildEnginePrivate.newTargets m)
                (removeTargets sys (toRemove m) (cached m, buildTargetsData e, events m))
                (removeTargets_lengths sys (toRemove m)
                   (cached m, buildTargetsData e, events m)
                   ltac:(cbn; congruence))) as Hadd.
  destruct (addTargets _ _ _ _) as [[targets data] events']. cbn in Hadd.
  by intros [= <- _].
Qed.
End Reconciliation.

Section ReconciliationClaims.
Context `{Paths}.
Import BuildEnginePrivate.

(** C8.  The candidates are sanitized before they are merged: a candidate
    whose name is the origin of a candidate is dropped, and so is a
    candidate with an origin that is not named origin, ".", non-empty
    suffix.  Reconciliation returns whenever every cached target has its
    data, keeping it so, and then the cached targets are the sanitized
    candidates in some order: none of them is the origin of another, and
    every one with an origin is named after it. *)
Theorem sanitized_targets_invariant (sys : bool) (newTargets : list BuildTargetDump)
    (e : t) :
  (∀ target other,
     target ∈ newTargets → other ∈ newTargets → origin other = name target →
     target ∉ sanitized newTargets)
  ∧ (∀ target,
     target ∈ newTargets → origin target ≠ EmptyString → ¬ wellNamedSnapshot target →
     target ∉ sanitized newTargets)
  ∧ (length (buildTargets e) = length (buildTargetsData e) →
     ∃ e' ev,
       updateBuildTargets sys newTargets e = Some (e', ev)
       ∧ length (buildTargets e') = length (buildTargetsData e'))
  ∧ (∀ e' ev,
     updateBuildTargets sys newTargets e = Some (e', ev) →
     buildTargets e' ≡ₚ sanitized newTargets
     ∧ (∀ target other,
          target ∈ buildTargets e' → other ∈ buildTargets e' →
          origin other ≠ name target)
     ∧ (∀ target,
          target ∈ buildTargets e' → origin target ≠ EmptyString →
          wellNamedSnapshot target)).
Proof.
  split; [|split; [|split]].
  - intros target other Hin Hother E [_ [Hno _]]%elem_of_sanitized. by apply (Hno other).
  - intros target Hin Horigin Hbad [_ [_ Hnamed]]%elem_of_sanitized. by apply Hbad, Hnamed.
  - intros Hdata.
    destruct (updateBuildTargets_total sys newTargets e) as [[e' ev] Hrun]; [lia|].
    exists e', ev. split; [done|]. by eapply updateBuildTargets_lengths.
  - intros e' ev Hperm%updateBuildTargets_permutation. split; [done|]. split.
    + intros target other Htarget Hother. rewrite Hperm in Htarget, Hother.
      apply elem_of_sanitized in Htarget as (_ & Hno & _).
      apply elem_of_sanitized in Hother as (Hother & _). by apply Hno.
    + intros target Htarget. rewrite Hperm in Htarget.
      by apply elem_of_sanitized in Htarget as (_ & _ & Hnamed).
Qed.

(** C9.  Reconciling a second time with the same candidates changes
    nothing and notifies nothing: no target is updated in place, removed or
    added, and no tool wrapper is touched. *)
Theorem reconciliation_idempotent (sys sys' : bool) (newTargets : list BuildTargetDump)
    (e : t) :
  length (buildTargets e) = length (buildTargetsData e) →
  ∃ e1 ev1,
    updateBuildTargets sys newTargets e = Some (e1, ev1)
    ∧ updateBuildTargets sys' newTargets e1 = Some (e1, []).
Proof.
  intros Hdata.
  destruct (updateBuildTargets_total sys newTargets e) as [[e1 ev1] Hfirst]; [lia|].
  exists e1, ev1. split; [done|].
  apply updateBuildTargets_permutation in Hfirst.
  unfold updateBuildTargets. cbv zeta.
  destruct (matchTargets_all_matched sys' (buildTargetsData e1) (buildTargets e1) []
              {| cached := buildTargets e1; newTargets := sanitized newTargets;
                 newTargetsData := createTargetData e1 <$> sanitized newTargets;
                 toRemove := []; events := [] |}) as [data Hsecond]; cbn; [done|done|].
  cbn in Hsecond. rewrite Hsecond. cbn. by destruct e1.
Qed.
End ReconciliationClaims.

Lemma sanitized_targets_invariant_witness :
  (name <$> BuildEnginePrivate.sanitized SampleTargets.candidates)
  = ["armv7hl.default"%string; "aarch64"%string]
  ∧ ∃ e' ev,
      BuildEnginePrivate.updateBuildTargets (H := ReferencePaths.paths) false
        SampleTargets.candidates SampleTargets.engine = Some (e', ev)
      ∧ ∀ target, target ∈ BuildEnginePrivate.buildTargets e' →
          origin target ≠ EmptyString → wellNamedSnapshot target.
Proof.
  split; [reflexivity|].
  destruct (sanitized_targets_invariant (H := ReferencePaths.paths) false
              SampleTargets.candidates SampleTargets.engine)
    as (_ & _ & Hreturns & Hafter).
  destruct (Hreturns eq_refl) as (e' & ev & Hrun & _).
  exists e', ev. split; [done|]. by destruct (Hafter e' ev Hrun) as (_ & _ & Hnamed).
Defined.

Lemma reconciliation_idempotent_witness :
  ∃ e1 ev1,
    BuildEnginePrivate.updateBuildTargets (H := ReferencePaths.paths) false
      SampleTargets.candidates SampleTargets.engine = Some (e1, ev1)
    ∧ BuildEnginePrivate.updateBuildTargets (H := ReferencePaths.paths) false
        SampleTargets.candidates e1 = Some (e1, []).
Proof.
  apply (reconciliation_idempotent (H := ReferencePaths.paths) false false
           SampleTargets.candidates SampleTargets.engine).
  reflexivity.
Defined.

(** ** Build-engine reconciliation *)


Section EngineSweep.
Import BuildEngineManager.



End EngineSweep.

Section EngineUpdate.
Context `{BuildEngineManager.Loader}.
Import BuildEngineManager.

Lemma engineFromMap_uri (e e' : Engine) (engineData : EngineData) (ok : bool) :
  engineFromMap (Some e) engineData = (ok, Some e') → uri e' = uri e.
Proof.
  unfold engineFromMap. cbv zeta.
  destruct (negb (vmUriIsValid _)); [by intros [= _ <-]|].
  destruct (String.eqb_spec (uri e) (BUILD_ENGINE_VM_URI engineData)) as [E|E]; cbn.
  - by intros [= _ <-].
  - by intros [= _ <-].
Qed.

(** The loop over the new data erases nothing: it replaces engines in
    place, keeping their VM URI, and appends. *)
Lemma update_keeps (fromSystemSettings : bool) (existing : gmap string nat)
    (items : list (string * EngineData)) (st : list Engine * list Event) :
  let st' := update fromSystemSettings existing items st in
  (∃ added, uri <$> st'.1 = (uri <$> st.1) ++ added)
  ∧ ∃ additions, st'.2 = st.2 ++ (BuildEngineAdded <$> additions).
Proof.
  revert st. induction items as [|[vmUri engineData] items IH]; intros [engines events].
  { cbn. split; [exists []|exists []]; by rewrite app_nil_r. }
  cbn [update]. cbv zeta.
  assert (Hstop : (∃ added, uri <$> engines = (uri <$> engines) ++ added)
                  ∧ ∃ additions, events = events ++ (BuildEngineAdded <$> additions)).
  { split; [exists []|exists []]; by rewrite app_nil_r. }
  destruct (existing !! vmUri ≫= _) as [[k engine]|] eqn:Elookup.
  - destruct (fromSystemSettings && negb (autodetected engine)); [done|].
    destruct (engineFromMap (Some engine) engineData) as [ok [engine'|]] eqn:Eload;
      [|done].
    apply engineFromMap_uri in Eload.
    assert (Hsame : uri <$> <[k:=engine']> engines = uri <$> engines).
    { destruct (existing !! vmUri) as [k'|]; [|done]. cbn in Elookup.
      destruct (engines !! k') as [engine0|] eqn:Ek; [|done]. cbn in Elookup.
      simplify_eq. rewrite list_fmap_insert, Eload.
      apply list_insert_id. by rewrite list_lookup_fmap, Ek. }
    destruct ok.
    + destruct (IH (<[k:=engine']> engines, events)) as [Hengines Hevents].
      cbn in *. by rewrite Hsame in Hengines.
    + cbn. by rewrite Hsame.
  - destruct (engineFromMap None engineData) as [[] [engine'|]]; try done.
    destruct (IH (engines ++ [engine'], events ++ [BuildEngineAdded (length engines)]))
      as [[added Hengines] [additions Hevents]]. cbn in *. split.
    + exists (uri engine' :: added). rewrite Hengines, fmap_app, <- app_assoc. done.
    + exists (length engines :: additions). rewrite Hevents, <- app_assoc. done.
Qed.

(** A fresh engine that loads is what the entry says. *)
Lemma engineFromMap_None (e' : Engine) (engineData : EngineData) :
  engineFromMap None engineData = (true, Some e') → e' = loadedFrom engineData.
Proof.
  unfold engineFromMap. cbv zeta.
  destruct (negb (vmUriIsValid _)); [done|].
  destruct (negb (canCreateVirtualMachine _)); [done|]. by intros [= _ <-].
Qed.


(** Every entry collected is an entry of the settings below the count,
    stored under its own VM URI. *)
Lemma collect_entries (data : gmap nat EngineData) (n i : nat)
    (acc newEnginesData : gmap string EngineData) :
  collect data n i acc = Some newEnginesData →
  ∀ vmUri engineData, newEnginesData !! vmUri = Some engineData →
    acc !! vmUri = Some engineData
    ∨ ∃ k, (i ≤ k < i + n)%nat ∧ data !! k = Some engineData
           ∧ BUILD_ENGINE_VM_URI engineData = vmUri.
Proof.
  revert i acc. induction n as [|n IH]; intros i acc; cbn [collect].
  { intros [= <-] vmUri engineData Hd. by left. }
  destruct (data !! i) as [d|] eqn:Ei; cbn [mbind option_bind]; [|done].
  destruct (QString.isEmpty (BUILD_ENGINE_VM_URI d)); [done|].
  intros Hloop vmUri engineData Hd.
  destruct (IH _ _ Hloop vmUri engineData Hd) as [Hacc|(k & Hk & Hdata & Huri)].
  - apply lookup_insert_Some in Hacc as [[<- <-]|[_ Hacc]]; [|by left].
    right. exists i. split; [lia|done].
  - right. exists k. split; [lia|done].
Qed.

Lemma elem_of_keysAscending (m : gmap string EngineData) (vmUri : string)
    (engineData : EngineData) :
  (vmUri, engineData) ∈ keysAscending m ↔ m !! vmUri = Some engineData.
Proof.
  unfold keysAscending. by rewrite merge_sort_Permutation, elem_of_map_to_list.
Qed.

Lemma NoDup_keysAscending (m : gmap string EngineData) : NoDup (keysAscending m).*1.
Proof.
  unfold keysAscending. rewrite merge_sort_Permutation. apply NoDup_fst_map_to_list.
Qed.




End EngineUpdate.

Section EngineClaims.
Context `{BuildEngineManager.Loader}.
Import BuildEngineManager.

Lemma settings_step_keeps_engines (data : Settings) (fromSystemSettings : bool) (m : t) :
  let m0 := {| m_buildEngines := m_buildEngines m;
               m_installDir := BUILD_ENGINES_INSTALL_DIR data;
               m_customBuildHostName := m_customBuildHostName m;
               m_buildEnvironmentFilter := m_buildEnvironmentFilter m |} in
  let st1 :=
    if negb fromSystemSettings || bool_decide (m_customBuildHostName m0 = None)
    then setCustomBuildHostName (BUILD_ENGINES_CUSTOM_BUILD_HOST_NAME data) (m0, [])
    else (m0, []) in
  let st2 :=
    if negb fromSystemSettings || bool_decide (m_buildEnvironmentFilter st1.1 = [])
    then setBuildEnvironmentFilter (BUILD_ENGINES_BUILD_ENVIRONMENT_FILTER data) st1
    else st1 in
  m_buildEngines st2.1 = m_buildEngines m
  ∧ ∀ i, AboutToRemoveBuildEngine i ∉ st2.2.
Proof.
  cbv zeta. unfold setCustomBuildHostName, setBuildEnvironmentFilter.
  repeat match goal with
         | |- context [if ?b then _ else _] => destruct b; cbn
         end;
    (split; [done|]); intros i;
    rewrite ?elem_of_app, ?elem_of_cons, ?elem_of_nil; intuition discriminate.
Qed.


End EngineClaims.


(** ** Showing and parsing values *)

Section Dictionaries.
Import PropertiesAccessor.

Lemma find_show_parse {T} `{EqDecision T} (dictionary : list (T * string)) (value : T) :
  NoDup (snd <$> dictionary) → value ∈ fst <$> dictionary →
  List.find (fun item => String.eqb (snd item) (showWithDictionary dictionary value))
            dictionary
  = List.find (fun item => bool_decide (fst item = value)) dictionary
  ∧ is_Some (List.find (fun item => bool_decide (fst item = value)) dictionary).
Proof.
  unfold showWithDictionary.
  induction dictionary as [|[v s] d IH]; intros Hnd Hin; [by apply elem_of_nil in Hin|].
  cbn in *. apply NoDup_cons in Hnd as [Hs Hnd].
  destruct (decide (v = value)) as [->|Hne].
  - rewrite bool_decide_eq_true_2 by done. cbn. rewrite String.eqb_refl. eauto.
  - rewrite bool_decide_eq_false_2 by done.
    apply elem_of_cons in Hin as [Hin|Hin]; [done|].
    destruct (IH Hnd Hin) as [IH1 [item IH2]]. rewrite IH2 in IH1 |- *.
    split; [|eauto].
    destruct (String.eqb_spec s (snd item)) as [->|_]; [|done].
    exfalso. apply Hs. apply list_elem_of_fmap. exists item. split; [done|].
    apply list_elem_of_In. by apply find_some in IH2 as [? _].
Qed.

Lemma parse_show_with_dictionary {T} `{EqDecision T} (dictionary : list (T * string))
    (value old : T) (o : Out) :
  NoDup (snd <$> dictionary) → value ∈ fst <$> dictionary →
  parseWithDictionary dictionary old (showWithDictionary dictionary value) o
  = (true, value, o).
Proof.
  intros Hnd Hin. unfold parseWithDictionary.
  destruct (find_show_parse dictionary value Hnd Hin) as [-> [item Hitem]].
  rewrite Hitem. apply find_some in Hitem as [_ Hv].
  by apply bool_decide_eq_true in Hv as ->.
Qed.

Lemma show_parse_with_dictionary {T} `{EqDecision T} (dictionary : list (T * string))
    (s : string) (value old : T) (o o' : Out) :
  NoDup (fst <$> dictionary) →
  parseWithDictionary dictionary old s o = (true, value, o') →
  showWithDictionary dictionary value = s.
Proof.
  unfold parseWithDictionary, showWithDictionary.
  induction dictionary as [|[v t] d IH]; intros Hnd Hp; [done|].
  cbn in *. apply NoDup_cons in Hnd as [Hv Hnd].
  destruct (String.eqb_spec t s) as [->|Hne].
  - simplify_eq. by rewrite bool_decide_eq_true_2.
  - destruct (List.find _ d) as [item|] eqn:E; [|done]. simplify_eq.
    rewrite bool_decide_eq_false_2.
    + by apply IH.
    + intros ->. apply Hv. apply list_elem_of_fmap. exists item. split; [done|].
      apply list_elem_of_In. by apply find_some in E as [? _].
Qed.

(** X1.  Showing and parsing are inverse to each other on both
    dictionaries: a boolean or an orientation shown and parsed again is
    the value itself, and a string either parser accepts is the string
    the value is shown as. *)
Theorem dictionary_round_trip :
  (∀ value old o, parseBoolean old (showBoolean value) o = (true, value, o))
  ∧ (∀ value old o, parseOrientation old (showOrientation value) o = (true, value, o))
  ∧ (∀ s value old o o',
       parseBoolean old s o = (true, value, o') → showBoolean value = s)
  ∧ (∀ s value old o o',
       parseOrientation old s o = (true, value, o') → showOrientation value = s).
Proof.
  assert (Hb : NoDup (snd <$> booleanDictionary) ∧ NoDup (fst <$> booleanDictionary)).
  { split; cbn; repeat constructor; rewrite ?elem_of_cons, ?elem_of_nil;
      intuition discriminate. }
  assert (Ho : NoDup (snd <$> orientationDictionary)
               ∧ NoDup (fst <$> orientationDictionary)).
  { split; cbn; repeat constructor; rewrite ?elem_of_cons, ?elem_of_nil;
      intuition discriminate. }
  split; [|split; [|split]].
  - intros value old o. apply parse_show_with_dictionary; [apply Hb|].
    destruct value; cbn; rewrite !elem_of_cons; auto.
  - intros value old o. apply parse_show_with_dictionary; [apply Ho|].
    destruct value; cbn; rewrite !elem_of_cons; auto.
  - intros s value old o o'. apply show_parse_with_dictionary, Hb.
  - intros s value old o o'. apply show_parse_with_dictionary, Ho.
Qed.
End Dictionaries.

(** ** Port numbers *)

Section Ports.
Context `{Host}.
Import PropertiesAccessor.

Lemma parsePortNumber_cases (old : Z) (s : string) (o : Out) :
  match toInt s with
  | None => parsePortNumber old s o = (false, old, setError (positiveIntExpectedMessage s) o)
  | Some n =>
      (n ≤ 0 ∧ parsePortNumber old s o
               = (false, old, setError (positiveIntExpectedMessage s) o))
      ∨ (65535 < n ∧ parsePortNumber old s o = (false, old, setError valueTooBigMessage o))
      ∨ (0 < n < 1024
         ∧ parsePortNumber old s o = (false, old, setError privilegedPortMessage o))
      ∨ (1024 ≤ n ≤ 65535 ∧ parsePortNumber old s o = (true, n, o))
  end.
Proof.
  unfold parsePortNumber, parsePositiveInt, toIntOk, toIntValue.
  destruct (toInt s) as [n|]; cbn; [|done].
  destruct (Z.leb_spec n 0); cbn; [by left|].
  destruct (Z.gtb_spec n 65535); cbn; [right; left; split; [lia|done]|].
  destruct (Z.ltb_spec n 1024); cbn; [right; right; left; split; [lia|done]|].
  right; right; right. split; [lia|done].
Qed.

(** X2.  [parsePortNumber] accepts exactly the decimal numbers from 1024
    to 65535.  On success the result is the number and the error string is
    untouched; on failure [*out] keeps its old value; a number above 65535
    is "Value too big", a positive one below 1024 "Privileged ports may not
    be used".  A port that fits [quint16] before still does afterwards, so
    the cast to [quint16] never truncates. *)
Theorem port_number_range (old : Z) (s : string) (o : Out) :
  let r := parsePortNumber old s o in
  (r.1.1 = true ↔ ∃ n, toInt s = Some n ∧ 1024 ≤ n ≤ 65535)
  ∧ (r.1.1 = true → toInt s = Some r.1.2 ∧ r.2 = o)
  ∧ (r.1.1 = false → r.1.2 = old)
  ∧ (∀ n, toInt s = Some n → 65535 < n → errorString r.2 = valueTooBigMessage)
  ∧ (∀ n, toInt s = Some n → 0 < n < 1024 → errorString r.2 = privilegedPortMessage)
  ∧ (0 ≤ old ≤ 65535 → 0 ≤ r.1.2 ≤ 65535).
Proof.
  cbv zeta. pose proof (parsePortNumber_cases old s o) as Hc.
  destruct (toInt s) as [n|].
  - destruct Hc as [[? ->]|[[? ->]|[[? ->]|[? ->]]]]; cbn;
      (split; [split; [intros ?; first [done | exists n; split; [done|lia]]
                      |intros (m & ? & ?); simplify_eq; first [done | lia]]|]);
      repeat split; intros; simplify_eq; first [done | lia].
  - rewrite Hc. cbn.
    split; [split; [done|by intros (m & ? & ?)]|].
    repeat split; intros; simplify_eq; first [done | lia].
Qed.
End Ports.

(** ** Listed and recognized properties *)

Section Listed.
Context `{Host} `{Numbers}.
Import PropertiesAccessor.

Lemma is_Some_empty_string (name : string) :
  is_Some ((∅ : gmap string string) !! name) ↔ False.
Proof. rewrite lookup_empty. split; [by intros [? ?]|done]. Qed.

Lemma vm_listed (a : VirtualMachinePropertiesAccessor.t) (name : string) :
  is_Some (VirtualMachinePropertiesAccessor.get a !! name)
  ↔ name = VM_MEMORY_SIZE_MB ∨ name = VM_CPU_COUNT ∨ name = VM_STORAGE_SIZE_MB
    ∨ (name = VM_SWAP_SIZE_MB ∧ hasFeature SwapMemory (VirtualMachinePropertiesAccessor.m_vm a) = true).
Proof.
  unfold VirtualMachinePropertiesAccessor.get. cbv zeta.
  destruct (hasFeature SwapMemory _);
    rewrite !lookup_insert_is_Some, is_Some_empty_string; unfold VM_MEMORY_SIZE_MB, VM_CPU_COUNT, VM_STORAGE_SIZE_MB, VM_SWAP_SIZE_MB; intuition (subst; first [done | auto 10]); destruct (decide ("vm.memory-size"%string = name)); auto 10.
Qed.

Lemma vm_recognised (a : VirtualMachinePropertiesAccessor.t) (name value : string) (o : Out) :
  (VirtualMachinePropertiesAccessor.prepareSet name value o a).1.1 ≠ Ignored
  ↔ name = VM_MEMORY_SIZE_MB ∨ name = VM_CPU_COUNT ∨ name = VM_STORAGE_SIZE_MB
    ∨ name = VM_FREE_STORAGE_SIZE_MB
    ∨ (name = VM_SWAP_SIZE_MB ∧ hasFeature SwapMemory (VirtualMachinePropertiesAccessor.m_vm a) = true).
Proof.
  unfold VirtualMachinePropertiesAccessor.prepareSet.
  destruct (String.eqb_spec name VM_MEMORY_SIZE_MB) as [->|?].
  { split; [auto 10|intros _]. prepare_cases; done. }
  destruct (String.eqb_spec name VM_SWAP_SIZE_MB) as [->|?].
  { cbn. destruct (hasFeature SwapMemory _); cbn.
    - split; [auto 10|intros _]. prepare_cases; done.
    - split; [done|]. intros [?|[?|[?|[?|[? ?]]]]]; done. }
  cbn [andb].
  destruct (String.eqb_spec name VM_CPU_COUNT) as [->|?].
  { split; [auto 10|intros _]. prepare_cases; done. }
  destruct (String.eqb_spec name VM_STORAGE_SIZE_MB) as [->|?].
  { split; [auto 10|intros _]. prepare_cases; done. }
  destruct (String.eqb_spec name VM_FREE_STORAGE_SIZE_MB) as [->|?].
  { split; [auto 10|intros _]. prepare_cases; done. }
  cbn. split; [done|]. intros [?|[?|[?|[?|[? ?]]]]]; done.
Qed.

Lemma sdk_listed (a : SdkPropertiesAccessor.t) (name : string) :
  is_Some (SdkPropertiesAccessor.get a !! name)
  ↔ name = WWW_PROXY_TYPE ∨ name = WWW_PROXY_SERVERS ∨ name = WWW_PROXY_EXCLUDES.
Proof.
  unfold SdkPropertiesAccessor.get. cbv zeta.
  rewrite !lookup_insert_is_Some, is_Some_empty_string.
  unfold WWW_PROXY_TYPE, WWW_PROXY_SERVERS, WWW_PROXY_EXCLUDES.
  intuition (subst; first [done | auto 10]);
    destruct (decide ("proxy.excludes"%string = name)); auto 10;
    destruct (decide ("proxy.servers"%string = name)); auto 10.
Qed.

Lemma sdk_recognised (a : SdkPropertiesAccessor.t) (name value : string) (o : Out) :
  (SdkPropertiesAccessor.prepareSet name value o a).1.1 ≠ Ignored
  ↔ name = WWW_PROXY_TYPE ∨ name = WWW_PROXY_SERVERS ∨ name = WWW_PROXY_EXCLUDES.
Proof.
  unfold SdkPropertiesAccessor.prepareSet, SdkPropertiesAccessor.validateUrls.
  destruct (String.eqb_spec name WWW_PROXY_TYPE) as [->|?].
  { split; [auto 10|intros _]. prepare_cases; done. }
  destruct (String.eqb_spec name WWW_PROXY_SERVERS) as [->|?].
  { split; [auto 10|intros _]. prepare_cases; done. }
  destruct (String.eqb_spec name WWW_PROXY_EXCLUDES) as [->|?].
  { split; [auto 10|intros _]. prepare_cases; done. }
  cbn. split; [done|]. intros [?|[?|?]]; done.
Qed.

Lemma emulator_others_listed (iKnowWhatIAmDoing : Z) (a : EmulatorPropertiesAccessor.t)
    (name : string) :
  is_Some (EmulatorPropertiesAccessor.getOthers iKnowWhatIAmDoing a !! name)
  ↔ name = EMULATOR_DEVICE_MODEL ∨ name = EMULATOR_ORIENTATION
    ∨ name = EMULATOR_DOWNSCALE
    ∨ (iKnowWhatIAmDoing ≠ 0
       ∧ (name = EMULATOR_SSH_PORT ∨ name = EMULATOR_SSH_TIMEOUT)).
Proof.
  unfold EmulatorPropertiesAccessor.getOthers. cbv zeta.
  destruct (Z.eqb_spec iKnowWhatIAmDoing 0) as [->|Hne]; cbn [negb];
    rewrite !lookup_insert_is_Some, is_Some_empty_string;
    unfold EMULATOR_DEVICE_MODEL, EMULATOR_ORIENTATION, EMULATOR_DOWNSCALE,
      EMULATOR_SSH_PORT, EMULATOR_SSH_TIMEOUT;
    intuition (subst; first [done | auto 10]);
    destruct (decide ("ssh.timeout"%string = name)); auto 10;
    destruct (decide ("ssh.port"%string = name)); auto 10;
    destruct (decide ("downscale"%string = name)); auto 10;
    destruct (decide ("orientation"%string = name)); auto 10.
Qed.

Lemma emulator_others_recognised (a : EmulatorPropertiesAccessor.t)
    (name value : string) (o : Out) :
  (EmulatorPropertiesAccessor.prepareSetOther name value o a).1.1 ≠ Ignored
  ↔ name = EMULATOR_DEVICE_MODEL ∨ name = EMULATOR_ORIENTATION
    ∨ name = EMULATOR_DOWNSCALE ∨ name = EMULATOR_SSH_PORT
    ∨ name = EMULATOR_SSH_TIMEOUT.
Proof.
  unfold EmulatorPropertiesAccessor.prepareSetOther.
  destruct (String.eqb_spec name EMULATOR_DEVICE_MODEL) as [->|?].
  { split; [auto 10|intros _]. prepare_cases; done. }
  destruct (String.eqb_spec name EMULATOR_ORIENTATION) as [->|?].
  { split; [auto 10|intros _]. prepare_cases; done. }
  destruct (String.eqb_spec name EMULATOR_DOWNSCALE) as [->|?].
  { split; [auto 10|intros _]. prepare_cases; done. }
  destruct (String.eqb_spec name EMULATOR_SSH_PORT) as [->|?].
  { split; [auto 10|intros _]. prepare_cases; done. }
  destruct (String.eqb_spec name EMULATOR_SSH_TIMEOUT) as [->|?].
  { split; [auto 10|intros _]. prepare_cases; done. }
  cbn. split; [done|]. intros [?|[?|[?|[?|?]]]]; done.
Qed.

Lemma engine_others_listed (a : BuildEnginePropertiesAccessor.t) (name : string) :
  is_Some (BuildEnginePropertiesAccessor.getOthers a !! name)
  ↔ name = ENGINE_HOST_NAME ∨ name = ENGINE_BUILD_ENVIRONMENT_FILTER
    ∨ name = ENGINE_DBUS_PORT ∨ name = ENGINE_SSH_PORT ∨ name = ENGINE_SSH_TIMEOUT.
Proof.
  unfold BuildEnginePropertiesAccessor.getOthers. cbv zeta.
  rewrite !lookup_insert_is_Some, is_Some_empty_string.
  unfold ENGINE_HOST_NAME, ENGINE_BUILD_ENVIRONMENT_FILTER, ENGINE_DBUS_PORT,
    ENGINE_SSH_PORT, ENGINE_SSH_TIMEOUT.
  intuition (subst; first [done | auto 10]);
    destruct (decide ("dbus.port"%string = name)); auto 10;
    destruct (decide ("ssh.timeout"%string = name)); auto 10;
    destruct (decide ("ssh.port"%string = name)); auto 10;
    destruct (decide ("environment.forward"%string = name)); auto 10.
Qed.

Lemma engine_others_recognised (a : BuildEnginePropertiesAccessor.t)
    (name value : string) (o : Out) :
  (BuildEnginePropertiesAccessor.prepareSetOther name value o a).1.1 ≠ Ignored
  ↔ name = ENGINE_HOST_NAME ∨ name = ENGINE_BUILD_ENVIRONMENT_FILTER
    ∨ name = ENGINE_DBUS_PORT ∨ name = ENGINE_SSH_PORT ∨ name = ENGINE_SSH_TIMEOUT.
Proof.
  unfold BuildEnginePropertiesAccessor.prepareSetOther.
  destruct (String.eqb_spec name ENGINE_HOST_NAME) as [->|?].
  { split; [auto 10|intros _]. prepare_cases; done. }
  destruct (String.eqb_spec name ENGINE_BUILD_ENVIRONMENT_FILTER) as [->|?].
  { split; [auto 10|intros _]. prepare_cases; done. }
  destruct (String.eqb_spec name ENGINE_DBUS_PORT) as [->|?].
  { split; [auto 10|intros _]. prepare_cases; done. }
  destruct (String.eqb_spec name ENGINE_SSH_PORT) as [->|?].
  { split; [auto 10|intros _]. prepare_cases; done. }
  destruct (String.eqb_spec name ENGINE_SSH_TIMEOUT) as [->|?].
  { split; [auto 10|intros _]. prepare_cases; done. }
  cbn. split; [done|]. intros [?|[?|[?|[?|?]]]]; done.
Qed.

(** The composite accessors ignore a name when both groups do. *)
Lemma emulator_recognised (a : EmulatorPropertiesAccessor.t)
    (name value : string) (o : Out) :
  (EmulatorPropertiesAccessor.prepareSet name value o a).1.1 ≠ Ignored
  ↔ (VirtualMachinePropertiesAccessor.prepareSet name value o
       (EmulatorPropertiesAccessor.m_vmAccessor a)).1.1 ≠ Ignored
    ∨ name = EMULATOR_DEVICE_MODEL ∨ name = EMULATOR_ORIENTATION
    ∨ name = EMULATOR_DOWNSCALE ∨ name = EMULATOR_SSH_PORT
    ∨ name = EMULATOR_SSH_TIMEOUT.
Proof.
  unfold EmulatorPropertiesAccessor.prepareSet.
  destruct (VirtualMachinePropertiesAccessor.prepareSet _ _ _ _) as [[r o'] v].
  destruct r; cbn [fst]; try (split; [by left|done]).
  pose proof (emulator_others_recognised
                (EmulatorPropertiesAccessor.withVmAccessor v a) name value o') as Hr.
  destruct (EmulatorPropertiesAccessor.prepareSetOther _ _ _ _) as [[r o''] a'].
  cbn [fst] in Hr. destruct r; cbn [fst]; tauto.
Qed.

Lemma engine_recognised (a : BuildEnginePropertiesAccessor.t)
    (name value : string) (o : Out) :
  (BuildEnginePropertiesAccessor.prepareSet name value o a).1.1 ≠ Ignored
  ↔ (VirtualMachinePropertiesAccessor.prepareSet name value o
       (BuildEnginePropertiesAccessor.m_vmAccessor a)).1.1 ≠ Ignored
    ∨ name = ENGINE_HOST_NAME ∨ name = ENGINE_BUILD_ENVIRONMENT_FILTER
    ∨ name = ENGINE_DBUS_PORT ∨ name = ENGINE_SSH_PORT ∨ name = ENGINE_SSH_TIMEOUT.
Proof.
  unfold BuildEnginePropertiesAccessor.prepareSet.
  destruct (VirtualMachinePropertiesAccessor.prepareSet _ _ _ _) as [[r o'] v].
  destruct r; cbn [fst]; try (split; [by left|done]).
  pose proof (engine_others_recognised
                (BuildEnginePropertiesAccessor.withVmAccessor v a) name value o') as Hr.
  destruct (BuildEnginePropertiesAccessor.prepareSetOther _ _ _ _) as [[r o''] a'].
  cbn [fst] in Hr. destruct r; cbn [fst]; tauto.
Qed.

(** X3.  What [get] lists is what [prepareSet] knows: a name is
    recognized (the result is not [Ignored], whatever the value) exactly
    when [get] lists it, with two exceptions that are settable and never
    listed: [vm.free-storage-size] on every accessor with a virtual
    machine, and the emulator's [ssh.port] and [ssh.timeout] while the
    environment does not say [I_KNOW_WHAT_I_AM_DOING]. *)
Theorem listed_properties_are_settable (iKnowWhatIAmDoing : Z) (acc : Accessor)
    (name value : string) (o : Out) :
  (accessorPrepareSet name value o acc).1.1 ≠ Ignored
  ↔ is_Some (accessorGet iKnowWhatIAmDoing acc !! name)
    ∨ (is_Some (accessorVm acc) ∧ name = VM_FREE_STORAGE_SIZE_MB)
    ∨ (iKnowWhatIAmDoing = 0 ∧ (∃ a, acc = EmulatorAccessor a)
       ∧ (name = EMULATOR_SSH_PORT ∨ name = EMULATOR_SSH_TIMEOUT)).
Proof.
  destruct acc as [a|a|a|a]; cbn [accessorPrepareSet accessorGet accessorVm].
  - pose proof (vm_recognised a name value o) as Hr.
    destruct (VirtualMachinePropertiesAccessor.prepareSet _ _ _ _) as [[r o'] v].
    cbn [fst] in *. rewrite Hr, vm_listed.
    split; [intros [?|[?|[?|[?|?]]]]; eauto 10|].
    intros [[?|[?|[?|?]]]|[[_ ?]|(_ & [? [=]] & _)]]; auto 10.
  - pose proof (sdk_recognised a name value o) as Hr.
    destruct (SdkPropertiesAccessor.prepareSet _ _ _ _) as [[r o'] v].
    cbn [fst] in *. rewrite Hr, sdk_listed.
    split; [auto|]. intros [?|[[[? [=]] _]|(_ & [? [=]] & _)]]; auto.
  - pose proof (emulator_recognised a name value o) as Hr.
    destruct (EmulatorPropertiesAccessor.prepareSet _ _ _ _) as [[r o'] v].
    cbn [fst] in *. rewrite Hr, vm_recognised.
    unfold EmulatorPropertiesAccessor.get.
    rewrite lookup_union_is_Some, vm_listed, emulator_others_listed.
    destruct (decide (iKnowWhatIAmDoing = 0)) as [Hz|Hz].
    + split; [intros [[?|[?|[?|[?|?]]]]|[?|[?|[?|[?|?]]]]]; eauto 15|].
      intros [[[?|[?|[?|?]]]|[?|[?|[?|[? _]]]]]|[[_ ?]|(_ & _ & [?|?])]];
        auto 15; done.
    + split; [intros [[?|[?|[?|[?|?]]]]|[?|[?|[?|[?|?]]]]]; eauto 15|].
      intros [[[?|[?|[?|?]]]|[?|[?|[?|[_ [?|?]]]]]]|[[_ ?]|(? & _)]];
        auto 15; done.
  - pose proof (engine_recognised a name value o) as Hr.
    destruct (BuildEnginePropertiesAccessor.prepareSet _ _ _ _) as [[r o'] v].
    cbn [fst] in *. rewrite Hr, vm_recognised.
    unfold BuildEnginePropertiesAccessor.get.
    rewrite lookup_union_is_Some, vm_listed, engine_others_listed.
    split; [intros [[?|[?|[?|[?|?]]]]|[?|[?|[?|[?|?]]]]]; eauto 15|].
    intros [[[?|[?|[?|?]]]|[?|[?|[?|[?|?]]]]]|[[_ ?]|(_ & [? [=]] & _)]]; auto 15.
Qed.
End Listed.

Section Resubmit.
Context `{Host} `{Numbers}.
Import PropertiesAccessor.

Lemma parsePositiveInt_number (n : Z) (o : Out) :
  toInt (number n) = Some n → (parsePositiveInt (number n) o).1.2 = n.
Proof.
  intros Hn. unfold parsePositiveInt, toIntValue, toIntOk. rewrite Hn. cbn.
  by destruct (n <=? 0).
Qed.

Lemma parseNonNegativeInt_number (n : Z) (o : Out) :
  toInt (number n) = Some n → (parseNonNegativeInt (number n) o).1.2 = n.
Proof.
  intros Hn. unfold parseNonNegativeInt, toIntValue, toIntOk. rewrite Hn. cbn.
  by destruct (n <? 0).
Qed.

Lemma parsePortNumber_number (n : Z) (o : Out) :
  toInt (number n) = Some n → (parsePortNumber n (number n) o).1.2 = n.
Proof.
  intros Hn. unfold parsePortNumber, parsePositiveInt, toIntValue, toIntOk.
  rewrite Hn. cbn. destruct (n <=? 0); cbn; [done|].
  destruct (n >? 65535); [done|]. by destruct (n <? 1024).
Qed.

Lemma vm_resubmit (a : VirtualMachinePropertiesAccessor.t) (name value : string) (o : Out) :
  Forall (λ n, toInt (number n) = Some n)
    [VirtualMachinePropertiesAccessor.m_memorySizeMb a;
     VirtualMachinePropertiesAccessor.m_swapSizeMb a;
     VirtualMachinePropertiesAccessor.m_cpuCount a;
     VirtualMachinePropertiesAccessor.m_storageSizeMb a] →
  VirtualMachinePropertiesAccessor.get a !! name = Some value →
  (VirtualMachinePropertiesAccessor.prepareSet name value o a).2 = a.
Proof.
  intros Hn. rewrite !Forall_cons in Hn. destruct Hn as (Hm & Hs & Hc & Hg & _).
  unfold VirtualMachinePropertiesAccessor.get. cbv zeta. intros Hl.
  assert (Hcases :
    (name = VM_MEMORY_SIZE_MB ∧ value = number (VirtualMachinePropertiesAccessor.m_memorySizeMb a))
    ∨ (name = VM_SWAP_SIZE_MB ∧ hasFeature SwapMemory (VirtualMachinePropertiesAccessor.m_vm a) = true
       ∧ value = number (VirtualMachinePropertiesAccessor.m_swapSizeMb a))
    ∨ (name = VM_CPU_COUNT ∧ value = number (VirtualMachinePropertiesAccessor.m_cpuCount a))
    ∨ (name = VM_STORAGE_SIZE_MB ∧ value = number (VirtualMachinePropertiesAccessor.m_storageSizeMb a))).
  { destruct (hasFeature SwapMemory _);
      rewrite !lookup_insert_Some, lookup_empty in Hl;
      intuition (subst; auto 10; done). }
  clear Hl. unfold VirtualMachinePropertiesAccessor.prepareSet.
  destruct Hcases as [[-> ->]|[(-> & Hf & ->)|[[-> ->]|[-> ->]]]]; cbn.
  - pose proof (parsePositiveInt_number _ (setNeedsVmOff true (enter VmGroup o)) Hm) as Hp.
    destruct (parsePositiveInt _ _) as [[ok n] o']. cbn in Hp. subst n.
    destruct a; repeat case_match; done.
  - rewrite Hf. cbn.
    pose proof (parseNonNegativeInt_number _ (setNeedsVmOff true (enter VmGroup o)) Hs) as Hp.
    destruct (parseNonNegativeInt _ _) as [[ok n] o']. cbn in Hp. subst n.
    destruct a; repeat case_match; done.
  - pose proof (parsePositiveInt_number _ (setNeedsVmOff true (enter VmGroup o)) Hc) as Hp.
    destruct (parsePositiveInt _ _) as [[ok n] o']. cbn in Hp. subst n.
    destruct a; repeat case_match; done.
  - pose proof (parsePositiveInt_number _ (setNeedsVmOff true (enter VmGroup o)) Hg) as Hp.
    destruct (parsePositiveInt _ _) as [[ok n] o']. cbn in Hp. subst n.
    destruct a; repeat case_match; done.
Qed.

Lemma vm_ignored_unchanged (a : VirtualMachinePropertiesAccessor.t)
    (name value : string) (o : Out) :
  (VirtualMachinePropertiesAccessor.prepareSet name value o a).1.1 = Ignored →
  (VirtualMachinePropertiesAccessor.prepareSet name value o a).2 = a.
Proof. unfold VirtualMachinePropertiesAccessor.prepareSet. prepare_cases; done. Qed.

Lemma emulator_withVmAccessor_same (a : EmulatorPropertiesAccessor.t) :
  EmulatorPropertiesAccessor.withVmAccessor (EmulatorPropertiesAccessor.m_vmAccessor a) a = a.
Proof. by destruct a. Qed.

Lemma emulator_others_resubmit (iKnowWhatIAmDoing : Z)
    (a : EmulatorPropertiesAccessor.t) (name value : string) (o : Out) :
  Forall (λ n, toInt (number n) = Some n)
    [EmulatorPropertiesAccessor.m_sshPort a; EmulatorPropertiesAccessor.m_sshTimeout a] →
  EmulatorPropertiesAccessor.getOthers iKnowWhatIAmDoing a !! name = Some value →
  (EmulatorPropertiesAccessor.prepareSetOther name value o a).2 = a
  ∧ (EmulatorPropertiesAccessor.prepareSetOther name value o a).1.1 ≠ Ignored.
Proof.
  intros Hn. rewrite !Forall_cons in Hn. destruct Hn as (Hp & Ht & _).
  unfold EmulatorPropertiesAccessor.getOthers. cbv zeta. intros Hl.
  assert (Hcases :
    (name = EMULATOR_DEVICE_MODEL ∧ value = EmulatorPropertiesAccessor.m_deviceModel a)
    ∨ (name = EMULATOR_ORIENTATION
       ∧ value = showOrientation (EmulatorPropertiesAccessor.m_orientation a))
    ∨ (name = EMULATOR_DOWNSCALE
       ∧ value = showBoolean (EmulatorPropertiesAccessor.m_downscale a))
    ∨ (name = EMULATOR_SSH_PORT
       ∧ value = number (EmulatorPropertiesAccessor.m_sshPort a))
    ∨ (name = EMULATOR_SSH_TIMEOUT
       ∧ value = number (EmulatorPropertiesAccessor.m_sshTimeout a))).
  { destruct (negb (iKnowWhatIAmDoing =? 0));
      rewrite !lookup_insert_Some, lookup_empty in Hl;
      intuition (subst; auto 10; done). }
  clear Hl. unfold EmulatorPropertiesAccessor.prepareSetOther.
  destruct Hcases as [[-> ->]|[[-> ->]|[[-> ->]|[[-> ->]|[-> ->]]]]]; cbn.
  - destruct a; repeat case_match; done.
  - destruct a as [? ? ? [] ? ? ?]; done.
  - destruct a as [? ? ? ? [] ? ?]; done.
  - pose proof (parsePortNumber_number _
                  (setNeedsVmOff true (enter EmulatorGroup o)) Hp) as Hq.
    destruct (parsePortNumber _ _ _) as [[ok n] o']. cbn in Hq. subst n.
    destruct a; repeat case_match; done.
  - pose proof (parsePositiveInt_number _
                  (setNeedsVmOff true (enter EmulatorGroup o)) Ht) as Hq.
    destruct (parsePositiveInt _ _) as [[ok n] o']. cbn in Hq. subst n.
    destruct a; repeat case_match; done.
Qed.

(** X4.  Handing a listed value back changes nothing: when the emulator
    accessor lists [name] with [value] and the staged numbers survive
    [QString::number] followed by [toInt], [prepareSet name value] leaves
    the accessor exactly as it was, whether it reports [Prepared] or
    [Failed]. *)
Theorem resubmitting_a_listed_value_stages_nothing (iKnowWhatIAmDoing : Z)
    (a : EmulatorPropertiesAccessor.t) (name value : string) (o : Out) :
  Forall (λ n, toInt (number n) = Some n)
    [VirtualMachinePropertiesAccessor.m_memorySizeMb (EmulatorPropertiesAccessor.m_vmAccessor a);
     VirtualMachinePropertiesAccessor.m_swapSizeMb (EmulatorPropertiesAccessor.m_vmAccessor a);
     VirtualMachinePropertiesAccessor.m_cpuCount (EmulatorPropertiesAccessor.m_vmAccessor a);
     VirtualMachinePropertiesAccessor.m_storageSizeMb (EmulatorPropertiesAccessor.m_vmAccessor a);
     EmulatorPropertiesAccessor.m_sshPort a;
     EmulatorPropertiesAccessor.m_sshTimeout a] →
  EmulatorPropertiesAccessor.get iKnowWhatIAmDoing a !! name = Some value →
  (EmulatorPropertiesAccessor.prepareSet name value o a).2 = a.
Proof.
  intros Hn Hl.
  assert (Hvm : Forall (λ n, toInt (number n) = Some n)
    [VirtualMachinePropertiesAccessor.m_memorySizeMb (EmulatorPropertiesAccessor.m_vmAccessor a);
     VirtualMachinePropertiesAccessor.m_swapSizeMb (EmulatorPropertiesAccessor.m_vmAccessor a);
     VirtualMachinePropertiesAccessor.m_cpuCount (EmulatorPropertiesAccessor.m_vmAccessor a);
     VirtualMachinePropertiesAccessor.m_storageSizeMb (EmulatorPropertiesAccessor.m_vmAccessor a)]).
  { repeat (apply Forall_cons in Hn as [? Hn]). repeat constructor; done. }
  assert (Hothers : Forall (λ n, toInt (number n) = Some n)
    [EmulatorPropertiesAccessor.m_sshPort a; EmulatorPropertiesAccessor.m_sshTimeout a]).
  { repeat (apply Forall_cons in Hn as [? Hn]). repeat constructor; done. }
  unfold EmulatorPropertiesAccessor.get in Hl. apply lookup_union_Some_raw in Hl.
  unfold EmulatorPropertiesAccessor.prepareSet.
  destruct Hl as [Hl|[Hnone Hl]].
  - pose proof (vm_resubmit _ name value o Hvm Hl) as Hsame.
    assert (Hrec : (VirtualMachinePropertiesAccessor.prepareSet name value o
                      (EmulatorPropertiesAccessor.m_vmAccessor a)).1.1 ≠ Ignored).
    { apply vm_recognised. assert (Hs : is_Some (VirtualMachinePropertiesAccessor.get
                                  (EmulatorPropertiesAccessor.m_vmAccessor a) !! name)) by eauto.
      apply vm_listed in Hs. intuition auto 10. }
    destruct (VirtualMachinePropertiesAccessor.prepareSet _ _ _ _) as [[r o'] v].
    cbn in Hsame, Hrec. subst v. rewrite emulator_withVmAccessor_same.
    by destruct r.
  - destruct (emulator_others_resubmit iKnowWhatIAmDoing a name value
                (VirtualMachinePropertiesAccessor.prepareSet name value o
                   (EmulatorPropertiesAccessor.m_vmAccessor a)).1.2 Hothers Hl)
      as [Hsame Hrec].
    pose proof (vm_ignored_unchanged (EmulatorPropertiesAccessor.m_vmAccessor a)
                  name value o) as Hign.
    assert (Hvmrec : (VirtualMachinePropertiesAccessor.prepareSet name value o
                        (EmulatorPropertiesAccessor.m_vmAccessor a)).1.1 = Ignored).
    { destruct (decide ((VirtualMachinePropertiesAccessor.prepareSet name value o
                           (EmulatorPropertiesAccessor.m_vmAccessor a)).1.1 = Ignored))
        as [|Hne]; [done|].
      apply vm_recognised in Hne.
      assert (Hs : is_Some (EmulatorPropertiesAccessor.getOthers iKnowWhatIAmDoing a
                              !! name)) by eauto.
      apply emulator_others_listed in Hs.
      destruct Hs as [->|[->|[->|[_ [-> | ->]]]]];
        destruct Hne as [?|[?|[?|[?|[? _]]]]]; done. }
    destruct (VirtualMachinePropertiesAccessor.prepareSet _ _ _ _) as [[r o'] v].
    cbn in Hign, Hsame, Hrec.
    cbn in Hvmrec. subst r. rewrite Hign by done.
    rewrite emulator_withVmAccessor_same.
    destruct (EmulatorPropertiesAccessor.prepareSetOther _ _ _ _) as [[r o''] a'].
    cbn in Hsame. subst a'. by destruct r.
Qed.
End Resubmit.

(** ** Accepted assignments *)

Section Accepted.
Context `{Host}.
Import PropertiesAccessor.

Lemma parsePositiveInt_true (s : string) (o o' : Out) (n : Z) :
  parsePositiveInt s o = (true, n, o') → toInt s = Some n ∧ 0 < n ∧ o' = o.
Proof.
  unfold parsePositiveInt, toIntOk, toIntValue.
  destruct (toInt s) as [m|]; cbn; [|done].
  destruct (Z.leb_spec m 0); intros [= <- <-]. done.
Qed.

Lemma parseNonNegativeInt_true (s : string) (o o' : Out) (n : Z) :
  parseNonNegativeInt s o = (true, n, o') → toInt s = Some n ∧ 0 ≤ n ∧ o' = o.
Proof.
  unfold parseNonNegativeInt, toIntOk, toIntValue.
  destruct (toInt s) as [m|]; cbn; [|done].
  destruct (Z.ltb_spec m 0); intros [= <- <-]. done.
Qed.

(** X5.  An accepted assignment to one of the four sizes of the virtual
    machine is within bounds and touches nothing else: the value is a
    number [n], the machine must be off, the error string is untouched and
    only the named staged value changes.  The memory size and the CPU
    count are positive and at most what the host has; the swap size is not
    negative and at most the storage size staged so far; the storage size
    is positive and shrinks or grows only with the matching capability. *)
Theorem vm_accepted_values_are_within_bounds (a a' : VirtualMachinePropertiesAccessor.t)
    (name value : string) (o o' : Out) :
  let vm := VirtualMachinePropertiesAccessor.m_vm a in
  VirtualMachinePropertiesAccessor.prepareSet name value o a = (Prepared, o', a') →
  name ≠ VM_FREE_STORAGE_SIZE_MB →
  ∃ n, toInt value = Some n
    ∧ o' = setNeedsVmOff true (enter VmGroup o)
    ∧ ((name = VM_MEMORY_SIZE_MB ∧ hasFeature LimitMemorySize vm = true
        ∧ 0 < n ≤ availableMemorySizeMb
        ∧ a' = VirtualMachinePropertiesAccessor.withMemorySizeMb n a)
       ∨ (name = VM_SWAP_SIZE_MB ∧ hasFeature SwapMemory vm = true
          ∧ 0 ≤ n ≤ VirtualMachinePropertiesAccessor.m_storageSizeMb a
          ∧ a' = VirtualMachinePropertiesAccessor.withSwapSizeMb n a)
       ∨ (name = VM_CPU_COUNT ∧ hasFeature LimitMemorySize vm = true
          ∧ 0 < n ≤ availableCpuCount
          ∧ a' = VirtualMachinePropertiesAccessor.withCpuCount n a)
       ∨ (name = VM_STORAGE_SIZE_MB ∧ 0 < n
          ∧ (n < storageSizeMb vm → hasFeature ShrinkStorageSize vm = true)
          ∧ (storageSizeMb vm < n → hasFeature GrowStorageSize vm = true)
          ∧ a' = VirtualMachinePropertiesAccessor.withStorageSizeMb n a)).
Proof.
  cbv zeta. unfold VirtualMachinePropertiesAccessor.prepareSet.
  destruct (String.eqb_spec name VM_MEMORY_SIZE_MB) as [->|?].
  { destruct (hasFeature LimitMemorySize _) eqn:Ef; cbn [negb]; [|done].
    destruct (parsePositiveInt _ _) as [[[] k] o1] eqn:Ep; cbn [negb]; [|done].
    apply parsePositiveInt_true in Ep as (Hv & Hn & ->). cbn.
    destruct (Z.gtb_spec k availableMemorySizeMb); intros [= <- <-] _.
    exists k. split; [done|]. split; [done|]. left. repeat split; done || lia. }
  destruct (String.eqb_spec name VM_SWAP_SIZE_MB) as [->|?].
  { destruct (hasFeature SwapMemory _) eqn:Ef; cbn [andb].
    - destruct (parseNonNegativeInt _ _) as [[[] k] o1] eqn:Ep; cbn [negb]; [|done].
      apply parseNonNegativeInt_true in Ep as (Hv & Hn & ->). cbn.
      destruct (Z.gtb_spec k (VirtualMachinePropertiesAccessor.m_storageSizeMb a));
        intros [= <- <-] _.
      exists k. split; [done|]. split; [done|]. right; left. repeat split; done || lia.
    - cbn. done. }
  cbn [andb].
  destruct (String.eqb_spec name VM_CPU_COUNT) as [->|?].
  { destruct (hasFeature LimitMemorySize _) eqn:Ef; cbn [negb]; [|done].
    destruct (parsePositiveInt _ _) as [[[] k] o1] eqn:Ep; cbn [negb]; [|done].
    apply parsePositiveInt_true in Ep as (Hv & Hn & ->). cbn.
    destruct (Z.gtb_spec k availableCpuCount); intros [= <- <-] _.
    exists k. split; [done|]. split; [done|]. right; right; left.
    repeat split; done || lia. }
  destruct (String.eqb_spec name VM_STORAGE_SIZE_MB) as [->|?].
  { destruct (parsePositiveInt _ _) as [[[] k] o1] eqn:Ep; cbn [negb]; [|done].
    apply parsePositiveInt_true in Ep as (Hv & Hn & ->). cbn.
    destruct (hasFeature ShrinkStorageSize _), (hasFeature GrowStorageSize _);
      destruct (Z.ltb_spec k (storageSizeMb (VirtualMachinePropertiesAccessor.m_vm a)));
      destruct (Z.gtb_spec k (storageSizeMb (VirtualMachinePropertiesAccessor.m_vm a)));
      cbn; intros [= <- <-] _;
      exists k; (split; [done|]); (split; [done|]); right; right; right;
      repeat split; done || lia. }
  destruct (String.eqb_spec name VM_FREE_STORAGE_SIZE_MB) as [->|?]; [done|].
  done.
Qed.
End Accepted.

Section NeedsOff.
Context `{Host}.
Import PropertiesAccessor.

Lemma vm_prepared_needsVmOff (a a' : VirtualMachinePropertiesAccessor.t)
    (name value : string) (o o' : Out) :
  VirtualMachinePropertiesAccessor.prepareSet name value o a = (Prepared, o', a') →
  needsVmOff o' = false
  ↔ name = VM_FREE_STORAGE_SIZE_MB ∧ VirtualMachinePropertiesAccessor.m_freeSizeMb a' = 0.
Proof.
  unfold VirtualMachinePropertiesAccessor.prepareSet.
  destruct (String.eqb_spec name VM_MEMORY_SIZE_MB) as [->|?];
    [prepare_cases; intros; simplify_eq; cbn; intuition discriminate|].
  destruct (String.eqb_spec name VM_SWAP_SIZE_MB) as [->|?];
    [prepare_cases; intros; simplify_eq; cbn; intuition discriminate|].
  cbn [andb].
  destruct (String.eqb_spec name VM_CPU_COUNT) as [->|?];
    [prepare_cases; intros; simplify_eq; cbn; intuition discriminate|].
  destruct (String.eqb_spec name VM_STORAGE_SIZE_MB) as [->|?];
    [prepare_cases; intros; simplify_eq; cbn; intuition discriminate|].
  destruct (String.eqb_spec name VM_FREE_STORAGE_SIZE_MB) as [->|?]; [|done].
  assert (Hreserve : ∀ o1 a1, needsVmOff o1 = true →
            0 < VirtualMachinePropertiesAccessor.m_freeSizeMb a1 →
            VirtualMachinePropertiesAccessor.prepareReserve o1 a1 = (Prepared, o', a') →
            needsVmOff o' = false
            ↔ VirtualMachinePropertiesAccessor.m_freeSizeMb a' = 0).
  { intros o1 a1 Ho1 Hpos. unfold VirtualMachinePropertiesAccessor.prepareReserve.
    destruct (Z.ltb_spec (freeStorageSizeMb (VirtualMachinePropertiesAccessor.m_vm a1)) 0);
      [done|].
    destruct (Z.leb_spec (VirtualMachinePropertiesAccessor.m_freeSizeMb a1)
                (freeStorageSizeMb (VirtualMachinePropertiesAccessor.m_vm a1)));
      intros [= <- <-]; cbn; [done|].
    rewrite Ho1. split; [done|lia]. }
  destruct (QString.endsWith _ _); cbn [negb]; [|done].
  destruct (parsePositiveInt _ _) as [[[] k] o1] eqn:Ep; cbn [negb]; [|done].
  apply parsePositiveInt_true in Ep as (_ & Hk & ->).
  destruct (_ >? 0).
  - destruct (parsePositiveInt _ _) as [[[] m] o1] eqn:Ep; cbn [negb]; [|done].
    apply parsePositiveInt_true in Ep as (_ & Hm & ->).
    destruct (_ <? _); [done|]. intros Hr.
    apply Hreserve in Hr; [|done|done]. rewrite Hr. tauto.
  - intros Hr. apply Hreserve in Hr; [|done|done]. rewrite Hr. tauto.
Qed.

Lemma engine_others_needsVmOff (a a' : BuildEnginePropertiesAccessor.t)
    (name value : string) (o o' : Out) :
  BuildEnginePropertiesAccessor.prepareSetOther name value o a = (Prepared, o', a') →
  needsVmOff o' = true ↔ name = ENGINE_SSH_PORT ∨ name = ENGINE_DBUS_PORT.
Proof.
  unfold BuildEnginePropertiesAccessor.prepareSetOther.
  destruct (String.eqb_spec name ENGINE_HOST_NAME) as [->|?];
    [prepare_cases; intros; simplify_eq; cbn; intuition discriminate|].
  destruct (String.eqb_spec name ENGINE_BUILD_ENVIRONMENT_FILTER) as [->|?];
    [prepare_cases; intros; simplify_eq; cbn; intuition discriminate|].
  destruct (String.eqb_spec name ENGINE_DBUS_PORT) as [->|?];
    [prepare_cases; intros; simplify_eq; cbn; intuition discriminate|].
  destruct (String.eqb_spec name ENGINE_SSH_PORT) as [->|?];
    [prepare_cases; intros; simplify_eq; cbn; intuition discriminate|].
  destruct (String.eqb_spec name ENGINE_SSH_TIMEOUT) as [->|?];
    [prepare_cases; intros; simplify_eq; cbn; intuition discriminate|].
  done.
Qed.

Lemma emulator_others_needsVmOff (a a' : EmulatorPropertiesAccessor.t)
    (name value : string) (o o' : Out) :
  EmulatorPropertiesAccessor.prepareSetOther name value o a = (Prepared, o', a') →
  needsVmOff o' = true.
Proof.
  unfold EmulatorPropertiesAccessor.prepareSetOther.
  prepare_cases; intros; simplify_eq; done.
Qed.

(** What the composite accessors ask for, by the group that accepted the
    assignment. *)
Lemma composite_needsVmOff :
  (∀ (a a' : BuildEnginePropertiesAccessor.t) (name value : string) (o o' : Out),
     BuildEnginePropertiesAccessor.prepareSet name value o a = (Prepared, o', a') →
     needsVmOff o' = false
     ↔ name = ENGINE_HOST_NAME ∨ name = ENGINE_BUILD_ENVIRONMENT_FILTER
       ∨ name = ENGINE_SSH_TIMEOUT
       ∨ (name = VM_FREE_STORAGE_SIZE_MB
          ∧ VirtualMachinePropertiesAccessor.m_freeSizeMb
              (BuildEnginePropertiesAccessor.m_vmAccessor a') = 0))
  ∧ (∀ (a a' : EmulatorPropertiesAccessor.t) (name value : string) (o o' : Out),
       EmulatorPropertiesAccessor.prepareSet name value o a = (Prepared, o', a') →
       needsVmOff o' = false
       ↔ name = VM_FREE_STORAGE_SIZE_MB
         ∧ VirtualMachinePropertiesAccessor.m_freeSizeMb
             (EmulatorPropertiesAccessor.m_vmAccessor a') = 0).
Proof.
  split.
  - intros a a' name value o o'. unfold BuildEnginePropertiesAccessor.prepareSet.
    pose proof (vm_recognised (BuildEnginePropertiesAccessor.m_vmAccessor a) name value o) as Hrec.
    destruct (VirtualMachinePropertiesAccessor.prepareSet _ _ _ _) as [[r o1] v] eqn:Ev.
    destruct r; cbn [fst] in Hrec.
    + pose proof (engine_others_recognised
                    (BuildEnginePropertiesAccessor.withVmAccessor v a) name value o1) as Hr.
      destruct (BuildEnginePropertiesAccessor.prepareSetOther _ _ _ _)
        as [[r o2] a2] eqn:Eo.
      destruct r; intros [= <- <-]. apply engine_others_needsVmOff in Eo.
      cbn [fst] in Hr.
      assert (Hname : name ≠ VM_FREE_STORAGE_SIZE_MB) by (intros ->; tauto).
      destruct (needsVmOff o2).
      * split; [done|]. intros [->|[->|[->|[? _]]]]; try done;
          assert (true = true) as Ht by done; apply Eo in Ht as [?|?]; done.
      * split; [intros _|done].
        assert (Hp : ¬ (name = ENGINE_SSH_PORT ∨ name = ENGINE_DBUS_PORT))
          by (intros Hp; apply Eo in Hp; done).
        destruct Hr as [Hr _]. destruct Hr as [?|[?|[?|[?|?]]]]; [done|auto..| |auto];
          exfalso; apply Hp; auto.
    + intros [= <- <-]. cbn. rewrite (vm_prepared_needsVmOff _ _ _ _ _ _ Ev).
      split; [auto 10|]. intros [->|[->|[->|?]]]; [| | |done];
        exfalso; destruct Hrec as [Hrec _];
        (destruct Hrec as [?|[?|[?|[?|[? _]]]]]; [done..]).
    + done.
  - intros a a' name value o o'. unfold EmulatorPropertiesAccessor.prepareSet.
    pose proof (vm_recognised (EmulatorPropertiesAccessor.m_vmAccessor a) name value o) as Hrec.
    destruct (VirtualMachinePropertiesAccessor.prepareSet _ _ _ _) as [[r o1] v] eqn:Ev.
    destruct r; cbn [fst] in Hrec.
    + destruct (EmulatorPropertiesAccessor.prepareSetOther _ _ _ _)
        as [[r o2] a2] eqn:Eo.
      destruct r; intros [= <- <-]. apply emulator_others_needsVmOff in Eo.
      rewrite Eo. split; [done|]. intros [-> _]. tauto.
    + intros [= <- <-]. cbn. by rewrite (vm_prepared_needsVmOff _ _ _ _ _ _ Ev).
    + done.
Qed.
Lemma sdk_prepared_needsVmOff (a a' : SdkPropertiesAccessor.t)
    (name value : string) (o o' : Out) :
  SdkPropertiesAccessor.prepareSet name value o a = (Prepared, o', a') →
  needsVmOff o' = false.
Proof.
  unfold SdkPropertiesAccessor.prepareSet, SdkPropertiesAccessor.validateUrls.
  prepare_cases; intros; simplify_eq; done.
Qed.

(** X6.  Which accepted assignments ask for the machine to be off.  On the
    proxy accessor none does.  On the build engine [host-name],
    [environment.forward] and [ssh.timeout] do not, and every other
    property does.  On the emulator and on a bare virtual machine every
    property does.  The one exception everywhere is a
    [vm.free-storage-size] the machine already satisfies, which stages
    a free size of zero. *)
Theorem changes_that_need_the_machine_off (acc acc' : Accessor)
    (name value : string) (o o' : Out) :
  accessorPrepareSet name value o acc = (Prepared, o', acc') →
  match acc' with
  | SdkAccessor _ => needsVmOff o' = false
  | VmAccessor v =>
      needsVmOff o' = false
      ↔ name = VM_FREE_STORAGE_SIZE_MB
        ∧ VirtualMachinePropertiesAccessor.m_freeSizeMb v = 0
  | EmulatorAccessor a =>
      needsVmOff o' = false
      ↔ name = VM_FREE_STORAGE_SIZE_MB
        ∧ VirtualMachinePropertiesAccessor.m_freeSizeMb
            (EmulatorPropertiesAccessor.m_vmAccessor a) = 0
  | BuildEngineAccessor a =>
      needsVmOff o' = false
      ↔ name = ENGINE_HOST_NAME ∨ name = ENGINE_BUILD_ENVIRONMENT_FILTER
        ∨ name = ENGINE_SSH_TIMEOUT
        ∨ (name = VM_FREE_STORAGE_SIZE_MB
           ∧ VirtualMachinePropertiesAccessor.m_freeSizeMb
               (BuildEnginePropertiesAccessor.m_vmAccessor a) = 0)
  end.
Proof.
  destruct acc as [a|a|a|a]; cbn [accessorPrepareSet].
  - destruct (VirtualMachinePropertiesAccessor.prepareSet _ _ _ _) as [[r o1] v] eqn:E.
    intros [= -> -> <-]. by apply (vm_prepared_needsVmOff _ _ _ _ _ _ E).
  - destruct (SdkPropertiesAccessor.prepareSet _ _ _ _) as [[r o1] v] eqn:E.
    intros [= -> -> <-]. by apply (sdk_prepared_needsVmOff _ _ _ _ _ _ E).
  - destruct (EmulatorPropertiesAccessor.prepareSet _ _ _ _) as [[r o1] v] eqn:E.
    intros [= -> -> <-]. by apply (proj2 composite_needsVmOff _ _ _ _ _ _ E).
  - destruct (BuildEnginePropertiesAccessor.prepareSet _ _ _ _) as [[r o1] v] eqn:E.
    intros [= -> -> <-]. by apply (proj1 composite_needsVmOff _ _ _ _ _ _ E).
Qed.
End NeedsOff.

(** ** The lock around the setters *)

Section LockDown.
Context `{Host}.

Lemma accessorSet_never_locks (w : World) (acc : Accessor) (b : bool) :
  VmLockDown b ∉ (accessorSet w acc).2.
Proof.
  destruct acc as [a|a|a|a]; cbn [accessorSet].
  - rewrite vm_set_calls. calls_solver.
  - unfold SdkPropertiesAccessor.set. case_match; cbn; calls_solver.
  - pose proof (emulator_set_calls w a) as Hc. cbv zeta in Hc. rewrite Hc.
    rewrite vm_set_calls.
    pose proof (emulator_setOthers_calls w a) as Ho. cbv zeta in Ho. rewrite Ho.
    destruct (VirtualMachinePropertiesAccessor.set w _).1; calls_solver.
  - pose proof (engine_set_calls w a) as Hc. cbv zeta in Hc. rewrite Hc.
    rewrite vm_set_calls.
    pose proof (engine_setOthers_calls w a) as Ho. cbv zeta in Ho. rewrite Ho.
    destruct (VirtualMachinePropertiesAccessor.set w _).1; calls_solver.
Qed.

(** X7.  [SetPropertiesTask::set] frames the setters of the accessor by the
    lock.  No accessor locks the machine itself.  Either nothing is
    invoked and the result is false ([canSet] refused, or the machine
    must be off and is running); or the machine need not be off and the
    accessor's setters run alone; or the lock could not be taken, nothing
    else is invoked and the result is false; or the lock was taken, the
    accessor's setters run, and the lock is released after them whatever
    they returned. *)
Theorem lock_down_brackets_the_setters (w : World) (error : string)
    (task : SetPropertiesTask.t) :
  let r := SetPropertiesTask.set w error task in
  let inner := accessorSet w (SetPropertiesTask.m_accessor task) in
  (∀ b, VmLockDown b ∉ inner.2)
  ∧ ((r.1.1 = false ∧ r.2 = [])
     ∨ (SetPropertiesTask.m_needsVmOff task = false
        ∧ r.1.1 = inner.1 ∧ r.2 = inner.2)
     ∨ (SetPropertiesTask.m_needsVmOff task = true
        ∧ stepOk w (VmLockDown true) = false
        ∧ r.1.1 = false ∧ r.2 = [VmLockDown true])
     ∨ (SetPropertiesTask.m_needsVmOff task = true
        ∧ stepOk w (VmLockDown true) = true
        ∧ r.1.1 = inner.1
        ∧ r.2 = [VmLockDown true] ++ inner.2 ++ [VmLockDown false])).
Proof.
  cbv zeta. split; [intros b; apply accessorSet_never_locks|].
  unfold SetPropertiesTask.set.
  destruct (accessorCanSet error _) as [[] e]; cbn [negb]; [|by left].
  destruct (SetPropertiesTask.m_needsVmOff task); cbn [negb orb].
  - destruct ((autoStopVms w =? 0) && isRunningReliably w); [by left|].
    destruct (stepOk w (VmLockDown true)).
    + right; right; right.
      destruct (accessorSet w _) as [ok calls]. cbn. done.
    + right; right; left. done.
  - right; left. destruct (accessorSet w _) as [ok calls]. cbn. done.
Qed.

(** X8.  The proxy accessor checks across properties only when applied.
    With the mode staged as manual or automatic and no server staged,
    [set] fails with the message that servers are required and invokes
    nothing.  Otherwise it succeeds, leaves the error string alone and
    calls [setWwwProxy] once with the three staged values, or not at all
    when none of them differs from the engine's. *)
Theorem proxy_servers_required (w : World) (error : string)
    (task : SetPropertiesTask.t) (a : SdkPropertiesAccessor.t) :
  SetPropertiesTask.m_accessor task = SdkAccessor a →
  SetPropertiesTask.m_needsVmOff task = false →
  let type := SdkPropertiesAccessor.m_wwwProxyType a in
  let servers := SdkPropertiesAccessor.m_wwwProxyServers a in
  let excludes := SdkPropertiesAccessor.m_wwwProxyExcludes a in
  let unchanged :=
    type = SdkPropertiesAccessor.wwwProxyType (SdkPropertiesAccessor.engine a)
    ∧ servers = SdkPropertiesAccessor.wwwProxyServers (SdkPropertiesAccessor.engine a)
    ∧ excludes = SdkPropertiesAccessor.wwwProxyExcludes (SdkPropertiesAccessor.engine a) in
  ((type = WWW_PROXY_MANUAL ∨ type = WWW_PROXY_AUTOMATIC) ∧ servers = EmptyString →
     SetPropertiesTask.set w error task
     = (false, SdkPropertiesAccessor.serversRequiredMessage type, []))
  ∧ (¬ ((type = WWW_PROXY_MANUAL ∨ type = WWW_PROXY_AUTOMATIC) ∧ servers = EmptyString) →
     (unchanged → SetPropertiesTask.set w error task = (true, error, []))
     ∧ (¬ unchanged →
        SetPropertiesTask.set w error task
        = (true, error, [EngineSetWwwProxy type servers excludes]))).
Proof.
  intros Hacc Hoff. cbv zeta. unfold SetPropertiesTask.set. rewrite Hacc, Hoff.
  cbn [accessorCanSet accessorSet]. unfold SdkPropertiesAccessor.canSet.
  split.
  - intros [Htype ->]. cbn.
    destruct Htype as [-> | ->]; rewrite String.eqb_refl, ?orb_true_r; done.
  - intros Hnot.
    assert (Hcan : (String.eqb (SdkPropertiesAccessor.m_wwwProxyType a) WWW_PROXY_MANUAL
                    || String.eqb (SdkPropertiesAccessor.m_wwwProxyType a) WWW_PROXY_AUTOMATIC)
                   && QString.isEmpty (SdkPropertiesAccessor.m_wwwProxyServers a) = false).
    { apply not_true_is_false. intros Ht. apply Hnot.
      apply andb_true_iff in Ht as [Ht He]. apply orb_true_iff in Ht.
      split.
      - destruct Ht as [Ht|Ht]; apply String.eqb_eq in Ht; auto.
      - by destruct (SdkPropertiesAccessor.m_wwwProxyServers a). }
    rewrite Hcan. cbn [negb orb]. unfold SdkPropertiesAccessor.set.
    split.
    + intros (-> & -> & ->). by rewrite !String.eqb_refl.
    + intros Hch.
      destruct (String.eqb_spec (SdkPropertiesAccessor.m_wwwProxyType a)
                  (SdkPropertiesAccessor.wwwProxyType (SdkPropertiesAccessor.engine a)));
        [|done].
      destruct (String.eqb_spec (SdkPropertiesAccessor.m_wwwProxyServers a)
                  (SdkPropertiesAccessor.wwwProxyServers (SdkPropertiesAccessor.engine a)));
        [|done].
      destruct (String.eqb_spec (SdkPropertiesAccessor.m_wwwProxyExcludes a)
                  (SdkPropertiesAccessor.wwwProxyExcludes (SdkPropertiesAccessor.engine a)));
        [|done].
      tauto.
Qed.
End LockDown.

(** ** Spelling of the assignments *)

Section Spelling.
Context `{Host}.
Import BuiltinWorker.

Lemma camelToHyphenated_fixed (s : string) :
  QString.camelToHyphenated s = s ↔ hasCapital s = false.
Proof.
  induction s as [|a s IH]; cbn; [done|].
  destruct (QString.isUpper a) eqn:Ea; cbn.
  - split; [|done]. intros [= Ha _]. subst a. done.
  - rewrite <- IH. split; [by intros [= ->]|by intros ->].
Qed.

Lemma isUpper_toLowerChar (a : ascii) :
  QString.isUpper (QString.toLowerChar a) = false.
Proof.
  unfold QString.toLowerChar. destruct (QString.isUpper a) eqn:Ea; [|done].
  unfold QString.isUpper in *. cbv zeta in *.
  apply andb_true_iff in Ea as [H1 H2]. apply Z.leb_le in H1, H2.
  rewrite nat_ascii_embedding by lia.
  apply andb_false_iff. right. apply Z.leb_gt. lia.
Qed.

Lemma camelToHyphenated_no_capital (s : string) :
  hasCapital (QString.camelToHyphenated s) = false.
Proof.
  induction s as [|a s IH]; cbn; [done|].
  destruct (QString.isUpper a) eqn:Ea; cbn.
  - by rewrite isUpper_toLowerChar.
  - by rewrite Ea.
Qed.

(** X11.  When all assignments are staged, the notices are those from
    before followed by one deprecation notice for each assignment whose
    name as typed holds a capital letter, in the order of the command
    line, each naming the name as typed and its hyphenated form. *)
Theorem deprecation_notice_iff_capital_letter (assignments : list string)
    (task staged : SetPropertiesTask.t) (ns ns' : list string) :
  prepareAll assignments task ns = inr (staged, ns') →
  ns' = ns ++ ((λ property,
                  deprecatedMessage property (QString.camelToHyphenated property))
               <$> List.filter hasCapital (assignmentProperty <$> assignments)).
Proof.
  revert task ns. induction assignments as [|a l IH]; intros task ns.
  - intros [= <- <-]. cbn. by rewrite app_nil_r.
  - cbn [prepareAll]. cbv zeta.
    destruct (QString.indexOf "=" a <=? 0); [done|].
    destruct (SetPropertiesTask.prepareSet _ _ _ _) as [[ok e] task'].
    destruct ok; cbn [negb]; [|done].
    intros Hrest. apply IH in Hrest. rewrite Hrest. cbn [fmap list_fmap List.filter].
    fold (assignmentProperty a).
    destruct (hasCapital (assignmentProperty a)) eqn:Ec.
    + destruct (String.eqb_spec (QString.camelToHyphenated (assignmentProperty a))
                  (assignmentProperty a)) as [Heq|_].
      * apply camelToHyphenated_fixed in Heq. congruence.
      * cbn. by rewrite <- app_assoc.
    + apply camelToHyphenated_fixed in Ec. rewrite Ec, String.eqb_refl. done.
Qed.

Lemma prepareAll_parts (l1 l2 : list string) (task : SetPropertiesTask.t)
    (ns1 ns2 : list string) :
  assignmentParts <$> l1 = assignmentParts <$> l2 →
  match prepareAll l1 task ns1, prepareAll l2 task ns2 with
  | inl early1, inl early2 =>
      exitStatus early1 = exitStatus early2 ∧ exitCode early1 = exitCode early2
  | inr (staged1, _), inr (staged2, _) => staged1 = staged2
  | _, _ => False
  end.
Proof.
  revert l2 task ns1 ns2. induction l1 as [|a l1 IH]; intros [|b l2] task ns1 ns2;
    try done.
  cbn [fmap list_fmap]. intros [= Hab Hl]. cbn [prepareAll]. cbv zeta.
  unfold assignmentParts in Hab. cbv zeta in Hab.
  destruct (QString.indexOf "=" a <=? 0), (QString.indexOf "=" b <=? 0); try done.
  injection Hab as -> ->.
  destruct (SetPropertiesTask.prepareSet _ _ _ _) as [[ok e] task'].
  destruct ok; cbn [negb]; [|done]. by apply IH.
Qed.

End Spelling.

Section Normalized.

Lemma indexOfFrom_found (c : ascii) (s : string) (i j : Z) :
  QString.indexOfFrom c s i = j → 0 ≤ i ≤ j →
  ∃ p v, s = p +:+ String c v ∧ j = i + QString.length p
         ∧ ∀ i', QString.indexOfFrom c p i' = -1.
Proof.
  revert i. induction s as [|a s IH]; intros i; cbn; [lia|].
  destruct (Ascii.eqb_spec a c) as [->|Hne].
  - intros <- _. exists EmptyString, s. repeat split. unfold QString.length. cbn. lia.
  - intros Hj Hij.
    destruct (indexOfFrom_ge c s (i + 1)) as [Hm|Hge]; [lia|].
    destruct (IH (i + 1) Hj) as (p & v & -> & -> & Hp); [lia|].
    exists (String a p), v. rewrite append_cons. split; [done|]. split.
    + unfold QString.length. cbn [String.length]. lia.
    + intros i'. cbn. destruct (Ascii.eqb_spec a c); [done|]. apply Hp.
Qed.

Lemma indexOfFrom_app (c : ascii) (p v : string) (i : Z) :
  (∀ i', QString.indexOfFrom c p i' = -1) →
  QString.indexOfFrom c (p +:+ String c v) i = i + QString.length p.
Proof.
  revert i. induction p as [|a p IH]; intros i Hp.
  - change (EmptyString +:+ String c v) with (String c v).
    cbn. rewrite Ascii.eqb_refl. unfold QString.length. cbn. lia.
  - rewrite append_cons. cbn. specialize (Hp 0) as Ha. cbn in Ha.
    destruct (Ascii.eqb a c) eqn:Ea; [done|].
    rewrite IH.
    + unfold QString.length. cbn [String.length]. lia.
    + intros i'. specialize (Hp (i' - 1)). cbn in Hp. rewrite Ea in Hp.
      by replace (i' - 1 + 1) with i' in Hp by lia.
Qed.

Lemma take_app_string (p v : string) : QString.take (String.length p) (p +:+ v) = p.
Proof.
  induction p as [|a p IH]; [by destruct v|]. rewrite append_cons. cbn. by rewrite IH.
Qed.

Lemma drop_app_string (p v : string) : QString.drop (String.length p) (p +:+ v) = v.
Proof. induction p as [|a p IH]; [done|]. rewrite append_cons. cbn. by rewrite IH. Qed.

Lemma left_app_string (p v : string) (c : ascii) :
  QString.left (QString.length p) (p +:+ String c v) = p.
Proof.
  unfold QString.left, QString.length. rewrite length_app_string. cbn [String.length].
  destruct (Z.ltb_spec (Z.of_nat (String.length p)) 0); [lia|].
  destruct (Z.leb_spec (Z.of_nat (String.length p + S (String.length v)))
              (Z.of_nat (String.length p))); [lia|].
  cbn. rewrite Nat2Z.id. apply take_app_string.
Qed.

Lemma mid_app_string (p v : string) (c : ascii) :
  QString.mid (QString.length p + 1) (p +:+ String c v) = v.
Proof.
  unfold QString.mid, QString.length.
  replace (Z.to_nat (Z.of_nat (String.length p) + 1))
    with (String.length (p +:+ String c EmptyString)).
  - replace (p +:+ String c v) with ((p +:+ String c EmptyString) +:+ v).
    + apply drop_app_string.
    + by rewrite append_assoc_string.
  - rewrite length_app_string. cbn. lia.
Qed.

Lemma camelToHyphenated_no_equals (p : string) :
  (∀ i, QString.indexOfFrom "=" p i = -1) →
  ∀ i, QString.indexOfFrom "=" (QString.camelToHyphenated p) i = -1.
Proof.
  induction p as [|a p IH]; intros Hp i; [done|].
  assert (Ha : Ascii.eqb a "=" = false).
  { specialize (Hp 0). cbn in Hp. by destruct (Ascii.eqb a "="). }
  assert (Hp' : ∀ i, QString.indexOfFrom "=" p i = -1).
  { intros i'. specialize (Hp (i' - 1)). cbn in Hp. rewrite Ha in Hp.
    by replace (i' - 1 + 1) with i' in Hp by lia. }
  cbn. destruct (QString.isUpper a) eqn:Eu.
  - cbn. 
    assert (Hl : Ascii.eqb (QString.toLowerChar a) "=" = false).
    { apply Ascii.eqb_neq. intros Heq.
      pose proof (isUpper_toLowerChar a) as Hu. rewrite Heq in Hu.
      unfold QString.toLowerChar in Heq. rewrite Eu in Heq.
      unfold QString.isUpper in Eu. cbv zeta in Eu.
      apply andb_true_iff in Eu as [H1 H2]. apply Z.leb_le in H1, H2.
      apply (f_equal nat_of_ascii) in Heq. rewrite nat_ascii_embedding in Heq by lia.
      change (nat_of_ascii "=") with 61%nat in Heq. lia. }
    rewrite Hl. by apply IH.
  - cbn. rewrite Ha. by apply IH.
Qed.

Lemma camelToHyphenated_length (p : string) :
  (String.length p ≤ String.length (QString.camelToHyphenated p))%nat.
Proof.
  induction p as [|a p IH]; cbn; [done|]. destruct (QString.isUpper a); cbn; lia.
Qed.

Lemma assignmentParts_normalized (assignment : string) :
  assignmentParts (normalizedAssignment assignment) = assignmentParts assignment.
Proof.
  unfold normalizedAssignment. cbv zeta.
  destruct (Z.leb_spec (QString.indexOf "=" assignment) 0) as [|Hpos]; [done|].
  destruct (indexOfFrom_found "=" assignment 0 _ eq_refl) as (p & v & -> & _ & Hp);
    [unfold QString.indexOf in Hpos; lia|].
  assert (Hsplit : ∀ q, (∀ i, QString.indexOfFrom "=" q i = -1) →
            0 < QString.length q →
            assignmentParts (q +:+ String "=" v) = Some (QString.camelToHyphenated q, v)).
  { intros q Hq Hlen. unfold assignmentParts, QString.indexOf. cbv zeta.
    rewrite indexOfFrom_app, Z.add_0_l by done.
    destruct (Z.leb_spec (QString.length q) 0); [lia|].
    by rewrite left_app_string, mid_app_string. }
  assert (Hlen : 0 < QString.length p).
  { unfold QString.indexOf in Hpos. rewrite indexOfFrom_app in Hpos by done. lia. }
  unfold QString.indexOf in *. rewrite indexOfFrom_app, Z.add_0_l by done.
  rewrite left_app_string, mid_app_string, !Hsplit; try done.
  - by rewrite (proj2 (camelToHyphenated_fixed _) (camelToHyphenated_no_capital p)).
  - by apply camelToHyphenated_no_equals.
  - pose proof (camelToHyphenated_length p). unfold QString.length in *. lia.
Qed.

Section Effect.
Context `{Host}.
Import BuiltinWorker.

(** X10.  The deprecated camel-case spelling of a property name has the
    effect of the hyphenated one: replacing every name of a command line by
    its normalized spelling changes neither the exit status, nor the exit
    code, nor the setters invoked and their arguments. *)
Theorem deprecated_spelling_has_the_same_effect (w : World)
    (task : SetPropertiesTask.t) (assignments : list string) :
  let typed := setProperties w task assignments in
  let normalized := setProperties w task (normalizedAssignment <$> assignments) in
  exitStatus typed = exitStatus normalized
  ∧ exitCode typed = exitCode normalized
  ∧ calls typed = calls normalized.
Proof.
  cbv zeta. unfold setProperties.
  assert (Hparts : assignmentParts <$> assignments
                   = assignmentParts <$> (normalizedAssignment <$> assignments)).
  { rewrite <- list_fmap_compose. apply list_fmap_ext. intros _ a _. cbn.
    by rewrite assignmentParts_normalized. }
  pose proof (prepareAll_parts assignments (normalizedAssignment <$> assignments)
                task [] [] Hparts) as Hp.
  pose proof (prepareAll_early_calls assignments task []) as Hc1.
  pose proof (prepareAll_early_calls (normalizedAssignment <$> assignments) task [])
    as Hc2.
  destruct (prepareAll assignments task []) as [e1|[s1 n1]],
           (prepareAll (normalizedAssignment <$> assignments) task []) as [e2|[s2 n2]];
    try done.
  - destruct Hp as [? ?]. rewrite (Hc1 e1), (Hc2 e2); done.
  - subst s2. destruct (SetPropertiesTask.set w "" s1) as [[[] e] c]; done.
Qed.
End Effect.

End Normalized.

Section Malformed.
Context `{Host}.
Import BuiltinWorker.

Lemma prefix_char (c b : ascii) (s : string) :
  String.prefix (String c EmptyString) (String b s) = Ascii.eqb b c.
Proof.
  cbn. destruct (ascii_dec c b) as [->|Hne].
  - rewrite Ascii.eqb_refl. by destruct s.
  - symmetry. apply Ascii.eqb_neq. congruence.
Qed.

Lemma indexOfFrom_none (c : ascii) (s : string) (i : Z) :
  0 ≤ i →
  QString.indexOfFrom c s i = -1 ↔ QString.contains (String c EmptyString) s = false.
Proof.
  revert i. induction s as [|a s IH]; intros i Hi; [done|].
  cbn [QString.indexOfFrom QString.contains]. rewrite prefix_char.
  destruct (Ascii.eqb a c); cbn [orb].
  - split; [lia|done].
  - apply IH. lia.
Qed.

Lemma indexOf_nonpositive (c : ascii) (s : string) :
  QString.indexOf c s ≤ 0
  ↔ QString.contains (String c EmptyString) s = false
    ∨ QString.startsWith (String c EmptyString) s = true.
Proof.
  unfold QString.indexOf, QString.startsWith.
  destruct s as [|a s]; [cbn; split; [by left|lia]|].
  rewrite prefix_char. cbn [QString.indexOfFrom QString.contains].
  rewrite prefix_char. destruct (Ascii.eqb a c); cbn [orb].
  - split; [by right|done].
  - rewrite <- (indexOfFrom_none c s 1) by lia.
    rewrite Z.add_0_l. destruct (indexOfFrom_ge c s 1) as [->|?]; [split; [by left|lia]|].
    split; [lia|]. intros [?|?]; [lia|done].
Qed.

(** X9.  An assignment without [=], or with nothing before it, ends the
    command as bad usage: after the assignments before it are staged,
    [setProperties] returns [BadUsage] without writing the exit code,
    prints "Assignment expected" with the assignment, and invokes no
    setter, whatever follows. *)
Theorem malformed_assignment_is_bad_usage (w : World) (task staged : SetPropertiesTask.t)
    (pre post : list string) (a : string) (ns : list string) :
  prepareAll pre task [] = inr (staged, ns) →
  QString.contains "=" a = false ∨ QString.startsWith "=" a = true →
  setProperties w task (pre ++ a :: post)
  = {| exitStatus := BadUsage; exitCode := None;
       qerr := [assignmentExpectedMessage a]; notices := ns; calls := [] |}.
Proof.
  intros Hpre Ha. apply indexOf_nonpositive in Ha.
  unfold setProperties. rewrite prepareAll_app, Hpre. cbn [prepareAll]. cbv zeta.
  by destruct (Z.leb_spec (QString.indexOf "=" a) 0); [|lia].
Qed.
End Malformed.

Lemma resubmitting_a_listed_value_stages_nothing_witness :
  (EmulatorPropertiesAccessor.prepareSet (H := ReferenceHost.host)
     EMULATOR_ORIENTATION "portrait" Sample.out
     (EmulatorPropertiesAccessor.create Sample.emulator)).2
  = EmulatorPropertiesAccessor.create Sample.emulator.
Proof.
  apply (resubmitting_a_listed_value_stages_nothing (H := ReferenceHost.host)
           (H0 := ReferenceNumbers.numbers) 0).
  - repeat constructor.
  - vm_compute. reflexivity.
Defined.

Lemma vm_accepted_values_are_within_bounds_witness :
  ∃ n, toInt (Host := ReferenceHost.host) "4" = Some n
       ∧ 0 < n ≤ availableCpuCount (Host := ReferenceHost.host).
Proof.
  eassert (Hp : VirtualMachinePropertiesAccessor.prepareSet (H := ReferenceHost.host)
                  VM_CPU_COUNT "4" Sample.out
                  (VirtualMachinePropertiesAccessor.create Sample.vm)
                = (Prepared, _, _)) by (vm_compute; reflexivity).
  destruct (vm_accepted_values_are_within_bounds (H := ReferenceHost.host)
              _ _ _ _ _ _ Hp) as (n & Hn & _ & Hc); [done|].
  exists n. split; [done|].
  destruct Hc as [(? & _)|[(? & _)|[(_ & _ & ? & _)|(? & _)]]]; done.
Defined.

Lemma changes_that_need_the_machine_off_witness :
  needsVmOff
    (accessorPrepareSet (H := ReferenceHost.host) ENGINE_SSH_TIMEOUT "60" Sample.out
       (BuildEngineAccessor (BuildEnginePropertiesAccessor.create Sample.engine))).1.2
  = false.
Proof.
  eassert (Hp : accessorPrepareSet (H := ReferenceHost.host) ENGINE_SSH_TIMEOUT "60"
                  Sample.out
                  (BuildEngineAccessor (BuildEnginePropertiesAccessor.create Sample.engine))
                = (Prepared, _, BuildEngineAccessor _)) by (vm_compute; reflexivity).
  pose proof (changes_that_need_the_machine_off (H := ReferenceHost.host)
                _ _ _ _ _ _ Hp) as Hoff.
  rewrite Hp. apply Hoff. auto.
Defined.

Lemma proxy_servers_required_witness :
  SetPropertiesTask.set (H := ReferenceHost.host) Sample.world EmptyString SampleProxy.task
  = (false, SdkPropertiesAccessor.serversRequiredMessage "manual",
     []).
Proof.
  exact (proj1 (proxy_servers_required (H := ReferenceHost.host) Sample.world EmptyString
                  SampleProxy.task SampleProxy.staged eq_refl eq_refl)
           (conj (or_introl eq_refl) eq_refl)).
Defined.

Lemma malformed_assignment_is_bad_usage_witness :
  BuiltinWorker.setProperties (H := ReferenceHost.host) Sample.world Sample.engineTask
    ["ssh.timeout=60"; "ssh.port"; "dbus.port=7778"]%string
  = {| BuiltinWorker.exitStatus := BuiltinWorker.BadUsage;
       BuiltinWorker.exitCode := None;
       BuiltinWorker.qerr := [BuiltinWorker.assignmentExpectedMessage "ssh.port"];
       BuiltinWorker.notices := [];
       BuiltinWorker.calls := [] |}.
Proof.
  eassert (Hpre : BuiltinWorker.prepareAll (H := ReferenceHost.host)
                    ["ssh.timeout=60"%string] Sample.engineTask [] = inr (_, []))
    by (vm_compute; reflexivity).
  apply (malformed_assignment_is_bad_usage (H := ReferenceHost.host) Sample.world
           Sample.engineTask _ ["ssh.timeout=60"%string] ["dbus.port=7778"%string]
           "ssh.port" [] Hpre).
  by left.
Defined.

Lemma deprecation_notice_iff_capital_letter_witness :
  ∃ staged,
    BuiltinWorker.prepareAll (H := ReferenceHost.host)
      ["vm.cpuCount=4"; "ssh.timeout=60"]%string Sample.engineTask []
    = inr (staged, [BuiltinWorker.deprecatedMessage "vm.cpuCount" "vm.cpu-count"]).
Proof.
  eassert (Hall : BuiltinWorker.prepareAll (H := ReferenceHost.host)
                    ["vm.cpuCount=4"; "ssh.timeout=60"]%string Sample.engineTask []
                  = inr (_, _)) by (vm_compute; reflexivity).
  eexists. rewrite Hall.
  by rewrite (deprecation_notice_iff_capital_letter (H := ReferenceHost.host)
                _ _ _ _ _ Hall).
Defined.

(** ** The cache of build targets: dumps and data *)

Section InStep.
Context `{Paths}.
Import BuildEnginePrivate.

Lemma BuildTargetData_eqb_spec (x y : BuildTargetData) :
  BuildTargetData_eqb x y = true
  ↔ dataName x = dataName y ∧ dataOrigin x = dataOrigin y
    ∧ dataSysRoot x = dataSysRoot y ∧ dataToolsPath x = dataToolsPath y
    ∧ dataGdb x = dataGdb y
    ∧ dataRpmValidationSuites x = dataRpmValidationSuites y.
Proof.
  unfold BuildTargetData_eqb. rewrite !andb_true_iff, !String.eqb_eq, bool_decide_eq_true.
  tauto.
Qed.

Lemma createTargetData_name (e : t) (target : BuildTargetDump) :
  dataName (createTargetData e target) = name target
  ∧ dataOrigin (createTargetData e target) = origin target.
Proof.
  unfold createTargetData. cbv zeta. cbn.
  destruct (QString.isEmpty (origin target)); cbn; [done|].
  repeat case_match; done.
Qed.

Lemma createTargetData_flags (e : t) (x y : BuildTargetDump) :
  name x = name y → origin x = origin y →
  dataFlags (createTargetData e x) = dataFlags (createTargetData e y).
Proof.
  intros Hn Ho. unfold createTargetData. cbv zeta. cbn. by rewrite Hn, Ho.
Qed.

Lemma createTargetData_withTargets (e : t) (targets : list BuildTargetDump)
    (data : list BuildTargetData) (target : BuildTargetDump) :
  createTargetData (withTargets targets data e) target = createTargetData e target.
Proof. reflexivity. Qed.

Lemma inStep_created (e : t) (target : BuildTargetDump) :
  inStep e target (createTargetData e target).
Proof. split; [|done]. by apply BuildTargetData_eqb_spec. Qed.

(** A candidate whose data equal the cached data takes the place of the
    cached target without disturbing the step. *)
Lemma inStep_replacement (e : t) (target replacement : BuildTargetDump)
    (data : BuildTargetData) :
  inStep e target data →
  BuildTargetData_eqb (createTargetData e replacement) data = true →
  inStep e replacement data.
Proof.
  intros [Hold Hflags] Hnew. apply BuildTargetData_eqb_spec in Hold, Hnew.
  split.
  - apply BuildTargetData_eqb_spec. intuition congruence.
  - rewrite Hflags. destruct (createTargetData_name e target) as [Hn Ho].
    destruct (createTargetData_name e replacement) as [Hn' Ho'].
    apply createTargetData_flags; intuition congruence.
Qed.

Lemma indexOfData_Some (x : BuildTargetData) (l : list BuildTargetData) (k : nat) :
  indexOfData x l = Some k → ∃ y, l !! k = Some y ∧ BuildTargetData_eqb y x = true.
Proof.
  unfold indexOfData. destruct (list_find _ l) as [[i y]|] eqn:E; [|done].
  apply list_find_Some in E as (Hy & Heq & _). intros [= <-]. eauto.
Qed.

Lemma matchTargets_inStep (e : t) (sys : bool) (cachedData : list BuildTargetData)
    (n i : nat) (m m' : Matching) :
  matchTargets sys cachedData n i m = Some m' →
  Forall2 (inStep e) (cached m) cachedData →
  newTargetsData m = createTargetData e <$> newTargets m →
  Forall2 (inStep e) (cached m') cachedData
  ∧ newTargetsData m' = createTargetData e <$> newTargets m'.
Proof.
  revert i m. induction n as [|n IH]; intros i m; cbn [matchTargets].
  { by intros [= <-]. }
  destruct (cached m !! i) as [x|] eqn:Ex; [|done]. cbn [mbind option_bind].
  destruct (indexOfDump x (newTargets m)) as [k|].
  { intros Hloop Hstep Hdata. apply IH in Hloop; [done|done|]. cbn.
    by rewrite Hdata, list_fmap_delete. }
  destruct (cachedData !! i) as [data|] eqn:Edata; [|done]. cbn [mbind option_bind].
  destruct (indexOfData data (newTargetsData m)) as [k|] eqn:Ek.
  - destruct (newTargets m !! k) as [replacement|] eqn:Er; [|done].
    cbn [mbind option_bind]. intros Hloop Hstep Hdata.
    apply IH in Hloop; [done| |]; cbn.
    + rewrite <- (list_insert_id cachedData i data) by done.
      apply Forall2_insert; [done|].
      apply (inStep_replacement e x); [by eapply Forall2_lookup_lr|].
      apply indexOfData_Some in Ek as (y & Hy & Heq).
      rewrite Hdata, list_lookup_fmap, Er in Hy. cbn in Hy. by simplify_eq.
    + by rewrite Hdata, list_fmap_delete.
  - intros Hloop Hstep Hdata. by apply IH in Hloop.
Qed.

Lemma removeTargets_inStep (e : t) (sys : bool) (R : list nat)
    (st : list BuildTargetDump * list BuildTargetData * list TargetEvent) :
  Forall2 (inStep e) st.1.1 st.1.2 →
  Forall2 (inStep e) (removeTargets sys R st).1.1 (removeTargets sys R st).1.2.
Proof.
  intros Hst. unfold removeTargets. induction R as [|r R IH]; [done|]. cbn.
  destruct (foldr _ st R) as [[T D] E]. cbn in *. by apply Forall2_delete.
Qed.

Lemma addTargets_inStep (e : t) (sys : bool) (added : list BuildTargetDump)
    (st : list BuildTargetDump * list BuildTargetData * list TargetEvent) :
  Forall2 (inStep e) st.1.1 st.1.2 →
  Forall2 (inStep e) (addTargets sys e added st).1.1 (addTargets sys e added st).1.2.
Proof.
  unfold addTargets. revert st. induction added as [|x added IH]; intros [[T D] E] Hst;
    cbn in *; [done|].
  apply IH. cbn. apply Forall2_app; [done|].
  constructor; [apply inStep_created|constructor].
Qed.

(** X12.  The cached data stay in step with the cached dumps.  When every
    cached data record is what [createTargetData] makes of the dump at its
    position (but for the machine), [updateBuildTargets] runs to its end
    and the same holds afterwards; so the two lists still pair up name by
    name and origin by origin. *)
Theorem cached_data_stay_in_step (sys : bool) (newTargets : list BuildTargetDump)
    (e : t) :
  Forall2 (inStep e) (buildTargets e) (buildTargetsData e) →
  ∃ e' ev,
    updateBuildTargets sys newTargets e = Some (e', ev)
    ∧ Forall2 (inStep e') (buildTargets e') (buildTargetsData e')
    ∧ dataName <$> buildTargetsData e' = name <$> buildTargets e'
    ∧ dataOrigin <$> buildTargetsData e' = origin <$> buildTargets e'.
Proof.
  intros Hstep.
  destruct (updateBuildTargets_total sys newTargets e) as [[e' ev] Hrun].
  { by rewrite (Forall2_length _ _ _ Hstep). }
  exists e', ev. split; [done|].
  assert (Hstep' : Forall2 (inStep e') (buildTargets e') (buildTargetsData e')).
  { revert Hrun. unfold updateBuildTargets. cbv zeta.
    destruct (matchTargets _ _ _ _ _) as [m|] eqn:Em; [|done]. cbn [mbind option_bind].
    apply (matchTargets_inStep e) in Em as [Hm _]; [|done..].
    pose proof (addTargets_inStep e sys (BuildEnginePrivate.newTargets m)
                  (removeTargets sys (toRemove m) (cached m, buildTargetsData e, events m))
                  (removeTargets_inStep e sys (toRemove m)
                     (cached m, buildTargetsData e, events m) Hm)) as Hadd.
    destruct (addTargets _ _ _ _) as [[targets data] events']. cbn in Hadd.
    by intros [= <- _]. }
  split; [done|].
  split; apply list_eq_Forall2, Forall2_fmap, Forall2_flip;
    (eapply Forall2_impl; [exact Hstep'|]);
    intros target data [Heq _]; apply BuildTargetData_eqb_spec in Heq;
    destruct (createTargetData_name e' target); intuition congruence.
Qed.
End InStep.

Section InPlace.
Context `{Paths}.
Import BuildEnginePrivate.

Lemma sameTarget_data (e : t) (old new : BuildTargetDump) :
  sameTarget old new →
  BuildTargetData_eqb (createTargetData e new) (createTargetData e old) = true.
Proof.
  intros (Hn & Ho & Hs). apply BuildTargetData_eqb_spec.
  unfold createTargetData. cbv zeta. cbn. rewrite Hn, Ho, Hs. done.
Qed.

Lemma matchTargets_in_place (e : t) (sys : bool)
    (rest news done : list BuildTargetDump) (dataDone dataRest : list BuildTargetData)
    (evs : list TargetEvent) :
  length dataDone = length done →
  Forall2 (inStep e) rest dataRest →
  Forall2 sameTarget rest news →
  NoDup (name <$> news) →
  matchTargets sys (dataDone ++ dataRest) (length rest) (length done)
    {| cached := done ++ rest; newTargets := news;
       newTargetsData := createTargetData e <$> news;
       toRemove := []; events := evs |}
  = Some {| cached := done ++ news; newTargets := []; newTargetsData := [];
            toRemove := [];
            events := evs ++ updatedInPlace sys (length done) rest news |}.
Proof.
  revert news done dataDone dataRest evs.
  induction rest as [|old rest IH]; intros news done dataDone dataRest evs
    Hlen Hstep Hsame Hnodup.
  { apply Forall2_nil_inv_l in Hsame as ->. cbn. by rewrite !app_nil_r. }
  apply Forall2_cons_inv_l in Hsame as (new & news' & Hon & Hsame & ->).
  apply Forall2_cons_inv_l in Hstep as (data & dataRest' & Hod & Hstep & ->).
  cbn [fmap list_fmap] in Hnodup. apply NoDup_cons in Hnodup as [Hfresh Hnodup].
  cbn [length matchTargets updatedInPlace cached newTargets newTargetsData toRemove
       events].
  rewrite (list_lookup_middle done rest) by done.
  rewrite (list_lookup_middle dataDone dataRest') by done.
  cbn [mbind option_bind].
  assert (Hnext : S (length done) = length (done ++ [new])).
  { rewrite length_app. cbn. lia. }
  assert (Hlen' : length (dataDone ++ [data]) = length (done ++ [new])).
  { by rewrite !length_app, Hlen. }
  assert (Hcached : done ++ new :: rest = (done ++ [new]) ++ rest).
  { by rewrite <- app_assoc. }
  assert (Hdata : dataDone ++ data :: dataRest' = (dataDone ++ [data]) ++ dataRest').
  { by rewrite <- app_assoc. }
  destruct (decide (old = new)) as [->|Hne].
  - assert (Hfound : indexOfDump new (new :: news') = Some 0%nat).
    { unfold indexOfDump. cbn [list_find]. by rewrite decide_True. }
    rewrite Hfound, fmap_cons. cbn [delete list_delete].
    rewrite Hcached, Hdata, Hnext, (IH news' (done ++ [new]) _ _ evs) by done.
    by rewrite <- !app_assoc.
  - assert (Hnone : indexOfDump old (new :: news') = None).
    { destruct (indexOfDump old (new :: news')) as [k|] eqn:Ek; [|done].
      apply indexOfDump_Some in Ek. destruct k as [|k]; cbn in Ek; [by simplify_eq|].
      exfalso. apply Hfresh. destruct Hon as (<- & _).
      apply list_elem_of_fmap. exists old. split; [done|].
      by eapply list_elem_of_lookup_2. }
    rewrite Hnone.
    assert (Hfound : indexOfData data (createTargetData e <$> new :: news') = Some 0%nat).
    { unfold indexOfData. cbn [fmap list_fmap list_find].
      rewrite decide_True; [done|].
      destruct Hod as [Hod _]. apply BuildTargetData_eqb_spec in Hod.
      pose proof (sameTarget_data e old new Hon) as Hnew.
      apply BuildTargetData_eqb_spec in Hnew. apply BuildTargetData_eqb_spec.
      intuition congruence. }
    rewrite Hfound, fmap_cons.
    cbn [lookup list_lookup mbind option_bind delete list_delete].
    replace (<[length done:=new]> (done ++ old :: rest)) with ((done ++ [new]) ++ rest).
    2:{ replace (length done) with (length done + 0)%nat by lia.
        rewrite insert_app_r. cbn. by rewrite <- app_assoc. }
    rewrite Hdata, Hnext, (IH news' (done ++ [new]) _ _ _) by done.
    rewrite <- !app_assoc. cbn. by destruct sys.
Qed.

(** X13.  A listing of the same targets with changed tool-chain dumps is
    taken over in place.  When the new listing passes the sanity check,
    names no target twice and pairs up with the cached targets by name,
    origin and validation suites, then the cached dumps become the new
    listing, the cached data are left as they are, nothing is removed or
    added, and exactly the targets whose dump changed are recorded as
    updated, each with the renewal of its tool wrappers unless only the
    system settings are used. *)
Theorem changed_dumps_are_updated_in_place (sys : bool) (news : list BuildTargetDump)
    (e : t) :
  Forall2 (inStep e) (buildTargets e) (buildTargetsData e) →
  Forall2 sameTarget (buildTargets e) news →
  NoDup (name <$> news) →
  sanitized news = news →
  updateBuildTargets sys news e
  = Some (withTargets news (buildTargetsData e) e,
          updatedInPlace sys 0 (buildTargets e) news).
Proof.
  intros Hstep Hsame Hnodup Hsane. unfold updateBuildTargets. cbv zeta.
  rewrite Hsane.
  pose proof (matchTargets_in_place e sys (buildTargets e) news [] []
                (buildTargetsData e) [] eq_refl Hstep Hsame Hnodup) as Hm.
  cbn [app length] in Hm. rewrite Hm. done.
Qed.
End InPlace.

Section SystemSettingsOnly.
Context `{Paths}.
Import BuildEnginePrivate.

Lemma matchTargets_quiet (cachedData : list BuildTargetData) (n i : nat) (m : Matching) :
  matchTargets true cachedData n i (quiet m)
  = quiet <$> matchTargets false cachedData n i m.
Proof.
  revert i m. induction n as [|n IH]; intros i m; cbn [matchTargets]; [done|].
  cbn [quiet cached newTargets newTargetsData toRemove events].
  destruct (cached m !! i) as [x|]; [|done]. cbn [mbind option_bind].
  destruct (indexOfDump x (newTargets m)) as [k|].
  { by rewrite <- IH. }
  destruct (cachedData !! i) as [data|]; [|done]. cbn [mbind option_bind].
  destruct (indexOfData data (newTargetsData m)) as [k|].
  - destruct (newTargets m !! k) as [replacement|]; [|done]. cbn [mbind option_bind].
    rewrite <- IH. unfold quiet. cbn [cached newTargets newTargetsData toRemove events].
    by rewrite List.filter_app.
  - by rewrite <- IH.
Qed.

Lemma removeTargets_quiet (R : list nat)
    (st : list BuildTargetDump * list BuildTargetData * list TargetEvent) :
  removeTargets true R (st.1, List.filter isNotification st.2)
  = ((removeTargets false R st).1,
     List.filter isNotification (removeTargets false R st).2).
Proof.
  unfold removeTargets. induction R as [|r R IH]; [by destruct st as [[? ?] ?]|].
  cbn [foldr]. rewrite IH. destruct (foldr _ st R) as [[T D] E]. cbn.
  by rewrite List.filter_app.
Qed.

Lemma addTargets_quiet (e : t) (added : list BuildTargetDump)
    (st : list BuildTargetDump * list BuildTargetData * list TargetEvent) :
  addTargets true e added (st.1, List.filter isNotification st.2)
  = ((addTargets false e added st).1,
     List.filter isNotification (addTargets false e added st).2).
Proof.
  unfold addTargets. revert st. induction added as [|x added IH]; intros [[T D] E]; [done|].
  cbn [foldl]. rewrite <- (IH (_, _, _)). cbn. by rewrite !List.filter_app.
Qed.

(** X14.  Using the system settings only changes nothing but the tool
    wrappers: [updateBuildTargets] then ends in the same cache and records
    the same events in the same order, less every [initBuildTargetAt] and
    [deinitBuildTargetAt]. *)
Theorem system_settings_only_spares_the_wrappers (newTargets : list BuildTargetDump)
    (e : t) :
  updateBuildTargets true newTargets e
  = (λ r, (r.1, List.filter isNotification r.2)) <$> updateBuildTargets false newTargets e.
Proof.
  unfold updateBuildTargets. cbv zeta.
  pose proof (matchTargets_quiet (buildTargetsData e) (length (buildTargets e)) 0
                {| cached := buildTargets e; newTargets := sanitized newTargets;
                   newTargetsData := createTargetData e <$> sanitized newTargets;
                   toRemove := []; events := [] |}) as Hm.
  unfold quiet at 1 in Hm. cbn [cached BuildEnginePrivate.newTargets newTargetsData
                                toRemove events List.filter] in Hm.
  rewrite Hm. destruct (matchTargets false _ _ _ _) as [m|]; [|done].
  cbn [fmap option_fmap option_map mbind option_bind quiet cached
       BuildEnginePrivate.newTargets newTargetsData toRemove events].
  pose proof (removeTargets_quiet (toRemove m) (cached m, buildTargetsData e, events m))
    as Hr. cbn [fst snd] in Hr. rewrite Hr.
  pose proof (addTargets_quiet e (BuildEnginePrivate.newTargets m)
                (removeTargets false (toRemove m)
                   (cached m, buildTargetsData e, events m))) as Ha.
  rewrite Ha. by destruct (addTargets false _ _ _) as [[T D] E].
Qed.
End SystemSettingsOnly.

(** ** The signals of a reconciliation *)

Section Notifications.
Context `{Paths}.
Import BuildEnginePrivate.

Lemma removable_length {A} (R : list nat) (X : list A) :
  removable R X →
  (length (foldr (λ i acc, delete i acc) X R) + length R = length X)%nat.
Proof.
  induction R as [|r R IH]; cbn; [lia|]. intros [HR Hr]. specialize (IH HR).
  rewrite length_delete by by apply lookup_lt_is_Some_2. lia.
Qed.

Lemma StronglySorted_snoc (l : list nat) (i : nat) :
  StronglySorted lt l → Forall (λ j, (j < i)%nat) l → StronglySorted lt (l ++ [i]).
Proof.
  intros Hl Hi. apply StronglySorted_app.
  split; [|split; [exact Hl|by repeat constructor]].
  intros x y Hx ->%list_elem_of_singleton. rewrite Forall_forall in Hi. by apply Hi.
Qed.

Lemma StronglySorted_reverse (l : list nat) :
  StronglySorted lt l → StronglySorted (λ i j, (j < i)%nat) (reverse l).
Proof.
  induction 1 as [|x l Hl IH Hx]; [constructor|].
  rewrite reverse_cons. apply StronglySorted_app.
  split; [|split; [exact IH|by repeat constructor]].
  intros y z Hy ->%list_elem_of_singleton. rewrite elem_of_reverse in Hy.
  rewrite Forall_forall in Hx. by apply Hx.
Qed.

Lemma matchTargets_toRemove (sys : bool) (cachedData : list BuildTargetData)
    (n i : nat) (m m' : Matching) :
  matchTargets sys cachedData n i m = Some m' →
  StronglySorted lt (toRemove m) → Forall (λ j, (j < i)%nat) (toRemove m) →
  StronglySorted lt (toRemove m') ∧ Forall (λ j, (j < i + n)%nat) (toRemove m')
  ∧ removedIndices (events m') = removedIndices (events m)
  ∧ addedIndices (events m') = addedIndices (events m).
Proof.
  revert i m. induction n as [|n IH]; intros i m; cbn [matchTargets].
  { intros [= <-] Hs Hi. repeat split; [done|].
    eapply Forall_impl; [done|]. cbn. lia. }
  destruct (cached m !! i) as [x|]; [|done]. cbn [mbind option_bind].
  assert (Hmono : ∀ l, Forall (λ j, (j < i)%nat) l → Forall (λ j, (j < S i)%nat) l).
  { intros l Hl. eapply Forall_impl; [done|]. cbn. lia. }
  destruct (indexOfDump x (newTargets m)) as [k|].
  { intros Hloop Hs Hi. apply IH in Hloop; cbn; [|done|by apply Hmono].
    by replace (i + S n)%nat with (S i + n)%nat by lia. }
  destruct (cachedData !! i) as [data|]; [|done]. cbn [mbind option_bind].
  destruct (indexOfData data (newTargetsData m)) as [k|].
  - destruct (newTargets m !! k) as [replacement|]; [|done]. cbn [mbind option_bind].
    intros Hloop Hs Hi. apply IH in Hloop; cbn; [|done|by apply Hmono].
    replace (i + S n)%nat with (S i + n)%nat by lia.
    cbn [events toRemove] in Hloop.
    destruct Hloop as (? & ? & -> & ->). unfold removedIndices, addedIndices.
    rewrite !omap_app. destruct sys; cbn; by rewrite !app_nil_r.
  - intros Hloop Hs Hi. apply IH in Hloop; cbn.
    + by replace (i + S n)%nat with (S i + n)%nat by lia.
    + by apply StronglySorted_snoc.
    + apply Forall_app. split; [by apply Hmono|]. repeat constructor.
Qed.

Lemma removeTargets_indices (sys : bool) (R : list nat)
    (st : list BuildTargetDump * list BuildTargetData * list TargetEvent) :
  removedIndices (removeTargets sys R st).2 = removedIndices st.2 ++ reverse R
  ∧ addedIndices (removeTargets sys R st).2 = addedIndices st.2.
Proof.
  unfold removeTargets. induction R as [|r R IH]; cbn [foldr].
  { by rewrite app_nil_r. }
  destruct (foldr _ st R) as [[T D] E]. cbn [snd] in *. destruct IH as [IHr IHa].
  unfold removedIndices, addedIndices in *. rewrite !omap_app, IHr, IHa, reverse_cons.
  destruct sys; cbn; by rewrite <- ?app_assoc, ?app_nil_r.
Qed.

Lemma addTargets_indices (sys : bool) (e : t) (added : list BuildTargetDump)
    (st : list BuildTargetDump * list BuildTargetData * list TargetEvent) :
  removedIndices (addTargets sys e added st).2 = removedIndices st.2
  ∧ addedIndices (addTargets sys e added st).2
    = addedIndices st.2 ++ seq (length st.1.1) (length added).
Proof.
  unfold addTargets. revert st. induction added as [|x added IH]; intros [[T D] E].
  { cbn. by rewrite app_nil_r. }
  cbn [foldl]. destruct (IH (T ++ [x], D ++ [createTargetData e x],
                             E ++ (if sys then [] else [InitBuildTargetAt (length (T ++ [x]) - 1)])
                               ++ [BuildTargetAdded (length (T ++ [x]) - 1)])) as [IHr IHa].
  rewrite IHr, IHa. cbn [fst snd]. unfold removedIndices, addedIndices.
  rewrite !omap_app, !length_app. cbn [length seq].
  replace (length T + 1 - 1)%nat with (length T) by lia.
  replace (length T + 1)%nat with (S (length T)) by lia.
  destruct sys; cbn; by rewrite <- ?app_assoc, ?app_nil_r.
Qed.

(** X15.  The positions the signals carry are positions of the list at the
    time.  The removals are announced with strictly descending indices,
    each inside the cached list; the additions with consecutive indices
    that start at the length left after the removals; and the cached list
    ends with that length plus the number of additions. *)
Theorem notifications_name_valid_positions (sys : bool)
    (newTargets : list BuildTargetDump) (e e' : t) (ev : list TargetEvent) :
  updateBuildTargets sys newTargets e = Some (e', ev) →
  let removed := removedIndices ev in
  let added := addedIndices ev in
  StronglySorted (λ i j, (j < i)%nat) removed
  ∧ Forall (λ i, (i < length (buildTargets e))%nat) removed
  ∧ added = seq (length (buildTargets e) - length removed) (length added)
  ∧ length (buildTargets e')
    = (length (buildTargets e) - length removed + length added)%nat.
Proof.
  unfold updateBuildTargets. cbv zeta.
  destruct (matchTargets _ _ _ _ _) as [m|] eqn:Em; [|done]. cbn [mbind option_bind].
  pose proof (matchTargets_toRemove _ _ _ _ _ _ Em) as (Hs & Hi & Hr & Ha);
    [constructor|constructor|]. cbn in Hi, Hr, Ha.
  pose proof (matchTargets_length _ _ _ _ _ _ Em) as Hlen. cbn in Hlen.
  eapply (matchTargets_permutation sys _ (sanitized newTargets) (buildTargets e) [])
    in Em as [Hrem _]; [|done..].
  apply removable_length in Hrem. rewrite Hlen in Hrem.
  pose proof (removeTargets_indices sys (toRemove m)
                (cached m, buildTargetsData e, events m)) as [Hr1 Ha1].
  pose proof (removeTargets_targets sys (toRemove m)
                (cached m, buildTargetsData e, events m)) as Ht1.
  pose proof (addTargets_indices sys e (BuildEnginePrivate.newTargets m)
                (removeTargets sys (toRemove m) (cached m, buildTargetsData e, events m)))
    as [Hr2 Ha2].
  pose proof (addTargets_targets sys e (BuildEnginePrivate.newTargets m)
                (removeTargets sys (toRemove m) (cached m, buildTargetsData e, events m)))
    as Ht2.
  destruct (addTargets _ _ _ _) as [[targets data] events']. cbn [fst snd] in *.
  intros [= <- <-]. cbn [buildTargets withTargets].
  rewrite Hr1, Hr in Hr2. rewrite Ha1, Ha, Ht1 in Ha2. rewrite Ht1 in Ht2.
  cbn in Hr2, Ha2. rewrite Hr2, Ha2, Ht2, length_app, length_seq, length_reverse.
  split; [by apply StronglySorted_reverse|]. split; [by apply Forall_reverse|].
  split; [f_equal; lia|lia].
Qed.
End Notifications.

Section Edges.
Context `{Paths}.
Import BuildEnginePrivate.

Lemma addTargets_spec (sys : bool) (e : t) (added : list BuildTargetDump)
    (targets : list BuildTargetDump) (data : list BuildTargetData)
    (evs : list TargetEvent) :
  addTargets sys e added (targets, data, evs)
  = (targets ++ added, data ++ (createTargetData e <$> added),
     evs ++ (seq (length targets) (length added) ≫= additionAt sys)).
Proof.
  unfold addTargets. revert targets data evs.
  induction added as [|x added IH]; intros targets data evs.
  { cbn. by rewrite !app_nil_r. }
  cbn [foldl]. rewrite IH, !length_app. cbn [length seq fmap list_fmap].
  rewrite bind_cons, <- !app_assoc. cbn [app].
  replace (length targets + 1 - 1)%nat with (length targets) by lia.
  replace (length targets + 1)%nat with (S (length targets)) by lia.
  unfold additionAt. by rewrite <- !app_assoc.
Qed.

(** X16.  With no target cached, [updateBuildTargets] appends every target
    that passes the sanity check, in the order of the listing, and records
    for positions 0, 1, ... the set-up of the tool wrappers (unless only
    the system settings are used) followed by [buildTargetAdded]. *)
Theorem first_load_adds_in_order (sys : bool) (newTargets : list BuildTargetDump)
    (e : t) :
  buildTargets e = [] →
  updateBuildTargets sys newTargets e
  = Some (withTargets (sanitized newTargets)
            (buildTargetsData e ++ (createTargetData e <$> sanitized newTargets)) e,
          seq 0 (length (sanitized newTargets)) ≫= additionAt sys).
Proof.
  intros He. unfold updateBuildTargets. cbv zeta. rewrite He.
  cbn [length matchTargets mbind option_bind removeTargets foldr toRemove cached
       BuildEnginePrivate.newTargets events].
  by rewrite addTargets_spec.
Qed.

Lemma matchTargets_none_left (sys : bool) (cachedData : list BuildTargetData)
    (targets : list BuildTargetDump) (n i : nat) (R : list nat)
    (evs : list TargetEvent) :
  (i + n ≤ length targets)%nat → (i + n ≤ length cachedData)%nat →
  matchTargets sys cachedData n i
    {| cached := targets; newTargets := []; newTargetsData := [];
       toRemove := R; events := evs |}
  = Some {| cached := targets; newTargets := []; newTargetsData := [];
            toRemove := R ++ seq i n; events := evs |}.
Proof.
  revert i R. induction n as [|n IH]; intros i R Ht Hd.
  { cbn. by rewrite app_nil_r. }
  cbn [matchTargets cached newTargets newTargetsData toRemove events].
  destruct (lookup_lt_is_Some_2 targets i) as [x ->]; [lia|].
  destruct (lookup_lt_is_Some_2 cachedData i) as [d ->]; [lia|].
  cbn [mbind option_bind]. unfold indexOfDump, indexOfData. cbn [list_find fmap option_fmap option_map].
  rewrite IH by lia. cbn [seq]. by rewrite <- app_assoc.
Qed.

Lemma removeTargets_all (sys : bool) (n : nat) (targets : list BuildTargetDump)
    (data : list BuildTargetData) (evs : list TargetEvent) :
  length targets = n → length data = n →
  removeTargets sys (seq 0 n) (targets, data, evs)
  = ([], [], evs ++ (reverse (seq 0 n) ≫= removalAt sys)).
Proof.
  unfold removeTargets. revert targets data evs.
  induction n as [|n IH]; intros targets data evs Ht Hd.
  { destruct targets, data; try done. cbn. by rewrite app_nil_r. }
  rewrite seq_S, foldr_snoc, reverse_snoc, bind_cons. cbn [plus].
  rewrite IH.
  - unfold removalAt. by rewrite <- !app_assoc.
  - rewrite length_delete by (apply lookup_lt_is_Some_2; lia). lia.
  - rewrite length_delete by (apply lookup_lt_is_Some_2; lia). lia.
Qed.

(** X17.  A listing that the sanity check leaves empty clears the cache:
    every cached target is removed, the last one first, each announced by
    [aboutToRemoveBuildTarget] before its tool wrappers are dropped. *)
Theorem empty_listing_clears_the_cache (sys : bool) (newTargets : list BuildTargetDump)
    (e : t) :
  sanitized newTargets = [] →
  length (buildTargetsData e) = length (buildTargets e) →
  updateBuildTargets sys newTargets e
  = Some (withTargets [] [] e,
          reverse (seq 0 (length (buildTargets e))) ≫= removalAt sys).
Proof.
  intros Hnone Hlen. unfold updateBuildTargets. cbv zeta. rewrite Hnone.
  cbn [fmap list_fmap].
  rewrite matchTargets_none_left by (cbn; lia).
  cbn [mbind option_bind toRemove cached events BuildEnginePrivate.newTargets app].
  rewrite removeTargets_all by done. done.
Qed.
End Edges.

(** ** Snapshots *)

Section Snapshots.
Context `{Paths}.
Import BuildEnginePrivate.

(** X18.  [createTargetData] reads the kind of a target off its name.  For
    a dump named after its origin, a dot and a suffix: with an empty
    origin the data carry no flag and no snapshot suffix; otherwise they
    are a snapshot with that suffix, the default snapshot exactly when the
    suffix is [default], and a pooled one exactly when the suffix contains
    [.pool.]. *)
Theorem snapshot_suffix_is_read_off_the_name (e : t) (target : BuildTargetDump)
    (suffix : string) :
  name target = origin target +:+ "." +:+ suffix →
  let data := createTargetData e target in
  if QString.isEmpty (origin target)
  then dataFlags data = [] ∧ snapshotSuffix data = EmptyString
  else snapshotSuffix data = suffix
       ∧ dataFlags data
         = [Snapshot]
             ++ (if String.eqb suffix DEFAULT_SNAPSHOT_SUFFIX then [DefaultSnapshot] else [])
             ++ (if QString.contains POOLED_SNAPSHOT_INFIX suffix
                 then [PooledSnapshot] else []).
Proof.
  intros Hname. cbv zeta. unfold createTargetData. cbv zeta.
  cbn [dataOrigin dataName dataFlags].
  destruct (QString.isEmpty (origin target)) eqn:Eo; cbn [negb].
  { by unfold snapshotSuffix. }
  assert (Hmid : QString.mid (QString.length (origin target) + 1) (name target) = suffix).
  { rewrite Hname. apply mid_app_string. }
  assert (Hin : ∀ flags, bool_decide (Snapshot ∈ Snapshot :: flags) = true).
  { intros flags. apply bool_decide_eq_true_2, elem_of_cons. by left. }
  unfold addFlag, snapshotSuffix. cbn. rewrite !Hin, !Hmid.
  destruct (String.eqb suffix DEFAULT_SNAPSHOT_SUFFIX); cbn; rewrite !Hin, !Hmid;
    destruct (QString.contains POOLED_SNAPSHOT_INFIX suffix); cbn;
    by rewrite !Hin, !Hmid.
Qed.
End Snapshots.

Section Lookup.
Context `{Paths}.
Import BuildEnginePrivate.

Lemma createTargetData_no_origin (e : t) (target : BuildTargetDump) :
  origin target = EmptyString → dataFlags (createTargetData e target) = [].
Proof. intros Ho. unfold createTargetData. cbv zeta. cbn. by rewrite Ho. Qed.

Lemma createTargetData_snapshot (e : t) (target : BuildTargetDump) (suffix : string) :
  origin target ≠ EmptyString →
  name target = origin target +:+ "." +:+ suffix →
  QString.mid (QString.length (origin target) + 1) (name target) = suffix
  ∧ dataFlags (createTargetData e target)
    = [Snapshot]
        ++ (if String.eqb suffix DEFAULT_SNAPSHOT_SUFFIX then [DefaultSnapshot] else [])
        ++ (if QString.contains POOLED_SNAPSHOT_INFIX suffix then [PooledSnapshot] else []).
Proof.
  intros Ho Hname.
  assert (Hmid : QString.mid (QString.length (origin target) + 1) (name target) = suffix).
  { rewrite Hname. apply mid_app_string. }
  split; [done|].
  assert (Hin : ∀ flags, bool_decide (Snapshot ∈ Snapshot :: flags) = true).
  { intros flags. apply bool_decide_eq_true_2, elem_of_cons. by left. }
  assert (He : QString.isEmpty (origin target) = false) by by destruct (origin target).
  unfold createTargetData, addFlag, snapshotSuffix. cbv zeta. cbn. rewrite He. cbn.
  rewrite !Hin, !Hmid.
  destruct (String.eqb suffix DEFAULT_SNAPSHOT_SUFFIX); cbn; rewrite !Hin, !Hmid;
    destruct (QString.contains POOLED_SNAPSHOT_INFIX suffix); cbn; done.
Qed.

(** The cached data follow the cached dumps position by position. *)
Lemma inStep_lookup (e : t) (target : BuildTargetDump) (i : nat) :
  Forall2 (inStep e) (buildTargets e) (buildTargetsData e) →
  buildTargets e !! i = Some target →
  ∃ data, buildTargetsData e !! i = Some data
          ∧ dataName data = name target ∧ dataOrigin data = origin target
          ∧ dataFlags data = dataFlags (createTargetData e target).
Proof.
  intros Hstep Hi.
  destruct (Forall2_lookup_l _ _ _ _ _ Hstep Hi) as (data & Hdata & Heq & Hflags).
  exists data. split; [done|].
  apply BuildTargetData_eqb_spec in Heq as (Hn & Ho & _).
  destruct (createTargetData_name e target) as [Hcn Hco]. by rewrite Hn, Ho.
Qed.

(** X19.  [buildTargetByOrigin] finds the snapshot asked for, and nothing
    else.  On a cache that is in step and whose snapshots are named after
    their origin: when the cache holds a target of the origin named
    origin, dot, suffix (a null suffix stands for [default], an empty one
    that is not null is refused), the answer is cached data of that origin
    and that name; and whatever the cache holds, the answer is either the
    default-constructed data, which are not valid, or cached data of that
    origin and that name. *)
Theorem snapshot_lookup_by_origin (e : t) (origin0 : string) (suffix : option string) :
  Forall2 (inStep e) (buildTargets e) (buildTargetsData e) →
  (∀ target, target ∈ buildTargets e → origin target ≠ EmptyString →
     wellNamedSnapshot target) →
  let found := BuildEngine.buildTargetByOrigin e origin0 suffix in
  let wanted := origin0 +:+ "." +:+ default DEFAULT_SNAPSHOT_SUFFIX suffix in
  isValid defaultBuildTargetData = false
  ∧ (found = defaultBuildTargetData
     ∨ (found ∈ buildTargetsData e
        ∧ dataOrigin found = origin0
        ∧ dataName found = wanted))
  ∧ (origin0 ≠ EmptyString → suffix ≠ Some EmptyString →
     (∃ target, target ∈ buildTargets e ∧ origin target = origin0
                ∧ name target = wanted) →
     found ∈ buildTargetsData e
     ∧ dataOrigin found = origin0
     ∧ dataName found = wanted).
Proof.
  intros Hstep Hnamed. cbv zeta. split; [done|].
  assert (Hsound : ∀ d,
            List.find
              (λ target,
                 bool_decide (Snapshot ∈ dataFlags target)
                 && String.eqb (dataOrigin target) origin0
                 && (negb (bool_decide (suffix = None))
                     || bool_decide (DefaultSnapshot ∈ dataFlags target))
                 && (bool_decide (suffix = None)
                     || String.eqb (snapshotSuffix target) (default EmptyString suffix)))
              (buildTargetsData e) = Some d →
            d ∈ buildTargetsData e ∧ dataOrigin d = origin0
            ∧ dataName d = origin0 +:+ "." +:+ default DEFAULT_SNAPSHOT_SUFFIX suffix).
  { intros d Ef. apply find_some in Ef as [Hin Hp].
    apply list_elem_of_In in Hin.
    rewrite !andb_true_iff in Hp. destruct Hp as [[[Hsnap Ho] Hdefault] Hsuffix].
    apply bool_decide_eq_true in Hsnap. apply String.eqb_eq in Ho.
    apply list_elem_of_lookup in Hin as [i Hi].
    destruct (Forall2_lookup_r _ _ _ _ _ Hstep Hi) as (target & Ht & Heq & Hflags).
    apply BuildTargetData_eqb_spec in Heq as (Hn & Ho' & _).
    destruct (createTargetData_name e target) as [Hcn Hco]. rewrite Hcn in Hn.
    rewrite Hco in Ho'.
    assert (Horigin : origin target ≠ EmptyString).
    { intros Hnone. rewrite (createTargetData_no_origin e target Hnone) in Hflags.
      rewrite Hflags in Hsnap. by apply elem_of_nil in Hsnap. }
    destruct (Hnamed target) as (sfx & _ & Hname); [by eapply list_elem_of_lookup_2|done|].
    destruct (createTargetData_snapshot e target sfx Horigin Hname) as [Hmid Hf].
    assert (Hsfx : snapshotSuffix d = sfx).
    { unfold snapshotSuffix. rewrite bool_decide_eq_true_2 by done.
      by rewrite Hn, Ho'. }
    split; [by eapply list_elem_of_lookup_2|]. split; [done|].
    rewrite Hn, Hname, <- Ho, Ho'. do 2 f_equal.
    destruct suffix as [s|]; cbn in *.
    - apply String.eqb_eq in Hsuffix. congruence.
    - apply bool_decide_eq_true in Hdefault. rewrite Hflags, Hf in Hdefault.
      destruct (String.eqb_spec sfx DEFAULT_SNAPSHOT_SUFFIX) as [Hd|_]; [done|].
      exfalso. destruct (QString.contains POOLED_SNAPSHOT_INFIX sfx); cbn in Hdefault;
        rewrite ?elem_of_cons, ?elem_of_nil in Hdefault; intuition discriminate. }
  unfold BuildEngine.buildTargetByOrigin, BuildEngine.findOrDefault. cbv zeta. split.
  - destruct (negb (negb (QString.isEmpty (default EmptyString suffix))
                    || bool_decide (suffix = None))); [by left|].
    destruct (List.find _ (buildTargetsData e)) as [d|] eqn:Ef; [|by left].
    right. cbn [default from_option id]. by apply Hsound.
  - intros Horigin Hsuffix (target & Hin & Ho & Hname).
    assert (Hasked : negb (negb (QString.isEmpty (default EmptyString suffix))
                           || bool_decide (suffix = None)) = false).
    { by destruct suffix as [[|a s]|]. }
    rewrite Hasked.
    apply list_elem_of_lookup in Hin as [i Hi].
    destruct (inStep_lookup e target i Hstep Hi) as (data & Hdata & Hn & Hod & Hflags).
    assert (Hnonempty : origin target ≠ EmptyString) by by rewrite Ho.
    rewrite <- Ho in Hname.
    destruct (createTargetData_snapshot e target _ Hnonempty Hname) as [Hmid Hf].
    destruct (List.find _ (buildTargetsData e)) as [d|] eqn:Ef.
    { cbn [default from_option id]. by apply Hsound. }
    exfalso.
    assert (Hp := find_none _ _ Ef data
                    (proj1 (list_elem_of_In _ _) (list_elem_of_lookup_2 _ _ _ Hdata))).
    cbv beta in Hp. revert Hp. rewrite Hflags, Hf, Hod, Ho, String.eqb_refl.
    unfold snapshotSuffix. rewrite Hflags, Hf, Hn, Hod, Hmid.
    rewrite (bool_decide_eq_true_2 (Snapshot ∈ _)) by (apply elem_of_cons; by left).
    destruct suffix as [s|]; cbn [default from_option id].
    + rewrite (bool_decide_eq_false_2 (Some s = None)) by done.
      cbn. by rewrite String.eqb_refl.
    + rewrite String.eqb_refl. cbn.
      rewrite bool_decide_eq_true_2; [done|].
      apply elem_of_cons. right. apply elem_of_cons. by left.
Qed.
End Lookup.

(** ** The origins of the snapshots *)

Section OriginsListed.
Import QStringList.

Lemma leb_cons (c1 c2 : ascii) (s1 s2 : string) :
  String.leb (String c1 s1) (String c2 s2) = true
  ↔ (N_of_ascii c1 < N_of_ascii c2)%N ∨ (c1 = c2 ∧ String.leb s1 s2 = true).
Proof.
  unfold String.leb. cbn [String.compare]. unfold Ascii.compare.
  destruct (N.compare_spec (N_of_ascii c1) (N_of_ascii c2)) as [Heq|Hlt|Hgt].
  - assert (c1 = c2) as ->.
    { by rewrite <- (ascii_N_embedding c1), Heq, ascii_N_embedding. }
    split; [by right|]. intros [Hlt|[_ ?]]; [lia|done].
  - split; [by left|done].
  - split; [done|]. intros [Hlt|[-> _]]; lia.
Qed.

Lemma stringLe_trans : Transitive stringLe.
Proof.
  unfold stringLe. intros x. induction x as [|a x IH]; intros [|b y] [|c z]; try done.
  rewrite !leb_cons. intros [Hab|[-> Hxy]] [Hbc|[-> Hyz]].
  - left. lia.
  - by left.
  - by left.
  - right. split; [done|]. by apply (IH y).
Qed.

Lemma stringLe_total : Total stringLe.
Proof. intros x y. apply String.leb_total. Qed.

Lemma elem_of_unique (x : string) (l : list string) : x ∈ unique l ↔ x ∈ l.
Proof.
  induction l as [|y [|z l] IH]; [done..|].
  change (unique (y :: z :: l))
    with (if String.eqb y z then unique (z :: l) else y :: unique (z :: l)).
  destruct (String.eqb_spec y z) as [->|Hne].
  - rewrite IH, !elem_of_cons. tauto.
  - rewrite (elem_of_cons (unique _)), IH, !elem_of_cons. tauto.
Qed.

Lemma unique_sorted (l : list string) :
  StronglySorted stringLe l → StronglySorted stringLt (unique l).
Proof.
  induction 1 as [|y l Hl IH Hy]; [constructor|].
  destruct l as [|z l]; [repeat constructor|].
  change (unique (y :: z :: l))
    with (if String.eqb y z then unique (z :: l) else y :: unique (z :: l)).
  destruct (String.eqb_spec y z) as [->|Hne]; [done|].
  constructor; [done|]. apply Forall_forall. intros w Hw.
  apply (proj1 (elem_of_unique w (z :: l))) in Hw.
  rewrite Forall_forall in Hy. split; [by apply Hy|]. intros <-.
  apply Hne. inversion Hl as [|? ? _ Hz]; subst.
  apply String.leb_antisym; [apply Hy; by left|].
  apply elem_of_cons in Hw as [->|Hw]; [done|].
  rewrite Forall_forall in Hz. by apply Hz.
Qed.

Lemma filter_sorted (R : relation string) (p : string → bool) (l : list string) :
  StronglySorted R l → StronglySorted R (List.filter p l).
Proof.
  induction 1 as [|y l Hl IH Hy]; [constructor|]. cbn.
  destruct (p y); [|done]. constructor; [done|].
  rewrite Forall_forall in Hy. apply Forall_forall.
  intros w Hw%list_elem_of_In%filter_In. apply Hy, list_elem_of_In, Hw.
Qed.

Lemma strictly_sorted_NoDup (l : list string) : StronglySorted stringLt l → NoDup l.
Proof.
  induction 1 as [|y l Hl IH Hy]; constructor; [|done].
  rewrite Forall_forall in Hy. intros Hin. by destruct (Hy y Hin).
Qed.

(** X20.  [buildTargetOrigins] lists every origin that is not empty once,
    in ascending order: the list is strictly ascending, so it repeats
    nothing, and it holds exactly the origins of the cached targets that
    are not empty. *)
Theorem origins_listed_once_in_order (e : BuildEnginePrivate.t) :
  let origins := BuildEngine.buildTargetOrigins e in
  StronglySorted stringLt origins
  ∧ NoDup origins
  ∧ ∀ x, x ∈ origins
         ↔ x ≠ EmptyString
           ∧ ∃ data, data ∈ BuildEnginePrivate.buildTargetsData e ∧ dataOrigin data = x.
Proof.
  cbv zeta. unfold BuildEngine.buildTargetOrigins, removeAll, sort. cbv zeta.
  assert (Hsorted : StronglySorted stringLt
            (List.filter (λ y, negb (String.eqb y EmptyString))
               (unique (merge_sort stringLe
                          (dataOrigin <$> BuildEnginePrivate.buildTargetsData e))))).
  { apply filter_sorted, unique_sorted.
    apply StronglySorted_merge_sort; [apply stringLe_trans|apply stringLe_total]. }
  split; [done|]. split; [by apply strictly_sorted_NoDup|].
  intros x. rewrite list_elem_of_In, filter_In, <- list_elem_of_In, elem_of_unique.
  rewrite merge_sort_Permutation, list_elem_of_fmap, negb_true_iff, String.eqb_neq.
  split.
  - intros [(data & -> & Hin) Hx]. split; [done|]. by exists data.
  - intros [Hx (data & Hin & <-)]. split; [by exists data|done].
Qed.
End OriginsListed.

(** ** Saving and loading the build targets *)

Section SaveLoad.
Context `{TargetKeys}.
Import BuildTargetDumpMap.

Lemma fromMap_toMap (d : BuildTargetDump) :
  NoDup targetKeys → fromMap (toMap d) = d.
Proof.
  unfold targetKeys. intros Hn.
  rewrite !NoDup_cons, !not_elem_of_cons in Hn. destruct_and!.
  unfold fromMap, toMap, value. cbv zeta. destruct d. cbn.
  f_equal; by simplify_map_eq.
Qed.

Lemma toMap_nonempty (d : BuildTargetDump) : toMap d ≠ ∅.
Proof. unfold toMap. cbv zeta. apply insert_non_empty. Qed.

Lemma targetsToMap_lookup (targets : list BuildTargetDump) (count : nat)
    (targetData : gmap nat (gmap string string)) :
  ∃ written,
    targetsToMap targets count targetData = Some (written, (count + length targets)%nat)
    ∧ (∀ i target, targets !! i = Some target →
         written !! (count + i)%nat = Some (toMap target))
    ∧ (∀ i, (i < count)%nat → written !! i = targetData !! i).
Proof.
  revert count targetData. induction targets as [|x targets IH]; intros count targetData.
  { exists targetData. cbn. rewrite Nat.add_0_r. done. }
  cbn [targetsToMap]. cbv zeta.
  rewrite bool_decide_eq_false_2 by apply toMap_nonempty.
  destruct (IH (S count) (<[count := toMap x]> targetData)) as (written & Hw & Hin & Hout).
  exists written. split; [|split].
  - rewrite Hw. cbn [length]. do 2 f_equal. lia.
  - intros [|i] target Hi; cbn in Hi.
    + simplify_eq. rewrite Nat.add_0_r, Hout by lia. by rewrite lookup_insert_eq.
    + replace (count + S i)%nat with (S count + i)%nat by lia. by apply Hin.
  - intros i Hi. rewrite Hout by lia. apply lookup_insert_ne. lia.
Qed.

Lemma targetsFromMap_read (targetData : gmap nat (gmap string string))
    (targets read : list BuildTargetDump) (i : nat) :
  NoDup targetKeys →
  (∀ k target, targets !! k = Some target →
     targetData !! (i + k)%nat = Some (toMap target)) →
  targetsFromMap targetData (length targets) i read = Some (read ++ targets).
Proof.
  intros Hkeys. revert read i. induction targets as [|x targets IH]; intros read i Hd.
  { cbn. by rewrite app_nil_r. }
  cbn [length targetsFromMap]. rewrite <- (Nat.add_0_r i) at 1.
  rewrite (Hd 0%nat x eq_refl). cbn [mbind option_bind].
  rewrite fromMap_toMap, IH by done || (intros k target Hk;
    replace (S i + k)%nat with (i + S k)%nat by lia; by apply Hd).
  by rewrite <- app_assoc.
Qed.

(** X21.  Saving and loading the build targets gives them back.  With ten
    keys that differ from each other, [fromMap] undoes [toMap] on every
    dump, the saving loop never meets an empty map and stores the number
    of targets as the count, and the loading loop reads from what was
    saved the same targets in the same order. *)
Theorem targets_survive_saving_and_loading (targets : list BuildTargetDump) :
  NoDup targetKeys →
  ∃ targetData,
    targetsToMap targets 0 ∅ = Some (targetData, length targets)
    ∧ targetsFromMap targetData (length targets) 0 [] = Some targets
    ∧ ∀ target, fromMap (toMap target) = target.
Proof.
  intros Hkeys.
  destruct (targetsToMap_lookup targets 0 ∅) as (written & Hw & Hin & _).
  exists written. split; [done|]. split; [|intros; by apply fromMap_toMap].
  by rewrite (targetsFromMap_read written targets [] 0).
Qed.
End SaveLoad.

(** ** The listing of RPM validation suites *)

Section Suites.
Import BuildEnginePrivate.

Lemma append_empty_r (s : string) : s +:+ EmptyString = s.
Proof. induction s as [|a s IH]; [done|]. by rewrite append_cons, IH. Qed.

Lemma append_snoc (cur : string) (a : ascii) (s : string) :
  (cur +:+ String a EmptyString) +:+ s = cur +:+ String a s.
Proof. by rewrite append_assoc_string. Qed.

Lemma linesFrom_line (l rest cur : string) :
  noneOf isLineFeed l = true →
  linesFrom (l +:+ String (ascii_of_nat 10) rest) cur
  = chopCarriageReturn (cur +:+ l) :: linesFrom rest EmptyString.
Proof.
  revert cur. induction l as [|a l IH]; intros cur Hl.
  - change (EmptyString +:+ String (ascii_of_nat 10) rest)
      with (String (ascii_of_nat 10) rest).
    cbn [linesFrom]. by rewrite Ascii.eqb_refl, append_empty_r.
  - rewrite append_cons. cbn [linesFrom noneOf] in *.
    apply andb_true_iff in Hl as [Ha Hl]. unfold isLineFeed in Ha.
    apply negb_true_iff in Ha. rewrite Ha, IH by done. by rewrite append_snoc.
Qed.

(** A line without a carriage return is read as it is. *)
Lemma chopCarriageReturn_none (s : string) :
  noneOf isLineEnd s = true → chopCarriageReturn s = s.
Proof.
  induction s as [|a s IH]; [done|]. cbn [noneOf chopCarriageReturn].
  rewrite andb_true_iff, negb_true_iff. unfold isLineEnd at 1.
  rewrite orb_false_iff. intros [[_ Ha] Hs]. destruct s as [|b s]; [by rewrite Ha|].
  by rewrite IH.
Qed.

Lemma splitAcc_field (sep : ascii → bool) (t rest cur : string) (c : ascii) :
  sep c = true → noneOf sep t = true → QString.isEmpty (cur +:+ t) = false →
  QString.splitAcc sep (t +:+ String c rest) cur
  = (cur +:+ t) :: QString.splitAcc sep rest EmptyString.
Proof.
  intros Hc. revert cur. induction t as [|a t IH]; intros cur Ht Hne.
  - change (EmptyString +:+ String c rest) with (String c rest).
    rewrite append_empty_r in *. cbn [QString.splitAcc]. by rewrite Hc, Hne.
  - rewrite append_cons. cbn [QString.splitAcc noneOf] in *.
    apply andb_true_iff in Ht as [Ha Ht]. apply negb_true_iff in Ha.
    rewrite Ha, IH; [by rewrite append_snoc|done|by rewrite append_snoc].
Qed.

Lemma noneOf_app (p : ascii → bool) (s t : string) :
  noneOf p (s +:+ t) = noneOf p s && noneOf p t.
Proof.
  induction s as [|a s IH]; [done|]. rewrite append_cons. cbn. by rewrite IH, andb_assoc.
Qed.

Lemma noneOf_line_feed (s : string) :
  noneOf isLineEnd s = true → noneOf isLineFeed s = true.
Proof.
  induction s as [|a s IH]; [done|]. cbn. unfold isLineEnd at 1, isLineFeed at 1.
  rewrite !andb_true_iff, !negb_true_iff, orb_false_iff. intros [[-> _] Hs].
  by rewrite IH.
Qed.

Lemma isField_spec (s : string) :
  isField s = true →
  QString.isEmpty s = false ∧ noneOf (Ascii.eqb " ") s = true
  ∧ noneOf isLineEnd s = true.
Proof.
  unfold isField. rewrite !andb_true_iff, negb_true_iff. tauto.
Qed.

Lemma suiteLine_one_line (suite : RpmValidationSuiteData) :
  writable suite → noneOf isLineEnd (suiteLine suite) = true.
Proof.
  intros (Hid%isField_spec & Hweb & Hname & _). unfold suiteLine.
  rewrite !noneOf_app, Hname. destruct Hid as (_ & _ & ->).
  destruct (suiteEssential suite); cbn [andb];
    (destruct Hweb as [-> | [(_ & _ & Hw)%isField_spec _]];
      [done|]);
    destruct (QString.isEmpty (suiteWebsite suite)); by rewrite ?Hw.
Qed.

Lemma suiteLine_split (suite : RpmValidationSuiteData) :
  writable suite →
  QString.split (Ascii.eqb " ") (suiteLine suite)
  = suiteId suite
      :: (if suiteEssential suite then "Essential" else "Optional")%string
      :: (if QString.isEmpty (suiteWebsite suite) then "-"%string else suiteWebsite suite)
      :: QString.split (Ascii.eqb " ") (suiteName suite).
Proof.
  intros (Hid%isField_spec & Hweb & _). destruct Hid as (Hid & Hids & _).
  unfold suiteLine, QString.split.
  change (" " +:+ ?x) with (String " " x).
  rewrite splitAcc_field by done. change (EmptyString +:+ ?x) with x. f_equal.
  assert (Hweb' : ∀ w, w = (if QString.isEmpty (suiteWebsite suite)
                            then "-"%string else suiteWebsite suite) →
            QString.isEmpty w = false ∧ noneOf (Ascii.eqb " ") w = true).
  { intros w ->. destruct Hweb as [-> | [(He & ? & _)%isField_spec _]]; [done|].
    by rewrite He. }
  destruct (Hweb' _ eq_refl) as [Hwe Hws].
  destruct (suiteEssential suite).
  - change ("Essential " +:+ ?x) with ("Essential" +:+ String " " x).
    rewrite splitAcc_field by done. change (EmptyString +:+ ?x) with x. f_equal.
    change (" " +:+ ?x) with (String " " x). by rewrite splitAcc_field.
  - change ("Optional " +:+ ?x) with ("Optional" +:+ String " " x).
    rewrite splitAcc_field by done. change (EmptyString +:+ ?x) with x. f_equal.
    change (" " +:+ ?x) with (String " " x). by rewrite splitAcc_field.
Qed.

Lemma suitesFromLines_line (suite : RpmValidationSuiteData) (rest : list string) :
  writable suite →
  suitesFromLines (suiteLine suite :: rest) = suite :: suitesFromLines rest.
Proof.
  intros Hw. cbn [suitesFromLines]. rewrite suiteLine_split by done.
  destruct Hw as (_ & Hweb & _ & Hname). rewrite Hname. f_equal.
  destruct suite as [id nm web ess]. cbn in *. f_equal.
  - destruct Hweb as [-> | [(He & _)%isField_spec Hne]]; [done|].
    rewrite He. by apply String.eqb_neq in Hne as ->.
  - by destruct ess.
Qed.

(** X22.  Writing the validation suites and reading them again gives the
    suites back, when each is writable: the identifier and the website
    hold no space and no end of line, the website is empty or not a lone
    dash, and the name is on one line with single spaces between its
    words. *)
Theorem validation_suites_round_trip (suites : list RpmValidationSuiteData) :
  Forall writable suites →
  rpmValidationSuitesFromString (rpmValidationSuitesToString suites) = suites.
Proof.
  unfold rpmValidationSuitesFromString, lines.
  induction 1 as [|suite suites Hw _ IH]; [done|].
  cbn [rpmValidationSuitesToString]. unfold newline.
  change (String (ascii_of_nat 10) EmptyString +:+ ?x) with (String (ascii_of_nat 10) x).
  rewrite linesFrom_line by by apply noneOf_line_feed, suiteLine_one_line.
  change (EmptyString +:+ ?x) with x.
  rewrite chopCarriageReturn_none by by apply suiteLine_one_line.
  by rewrite suitesFromLines_line, IH.
Qed.

(** X23.  A line with fewer than three fields ends the listing: the
    suites written before it are read, and nothing of what follows it,
    whatever that is. *)
Theorem corrupted_line_ends_the_listing (good : list RpmValidationSuiteData)
    (bad rest : string) :
  Forall writable good →
  noneOf isLineEnd bad = true →
  (length (QString.split (Ascii.eqb " ") bad) < 3)%nat →
  rpmValidationSuitesFromString
    (rpmValidationSuitesToString good +:+ bad +:+ newline +:+ rest)
  = good.
Proof.
  intros Hgood Hbad Hfew.
  unfold rpmValidationSuitesFromString, lines.
  induction Hgood as [|suite suites Hw _ IH].
  - change (rpmValidationSuitesToString [] +:+ ?x) with x. unfold newline.
    change (String (ascii_of_nat 10) EmptyString +:+ ?x) with (String (ascii_of_nat 10) x).
    rewrite linesFrom_line by by apply noneOf_line_feed.
    change (EmptyString +:+ ?x) with x. rewrite chopCarriageReturn_none by done.
    cbn [suitesFromLines].
    destruct (QString.split (Ascii.eqb " ") bad) as [|a [|b [|c l]]]; try done.
    cbn in Hfew. lia.
  - cbn [rpmValidationSuitesToString]. unfold newline at 1.
    rewrite !append_assoc_string.
    change (String (ascii_of_nat 10) EmptyString +:+ ?x) with (String (ascii_of_nat 10) x).
    rewrite linesFrom_line by by apply noneOf_line_feed, suiteLine_one_line.
    change (EmptyString +:+ ?x) with x.
    rewrite chopCarriageReturn_none by by apply suiteLine_one_line.
    by rewrite suitesFromLines_line, IH.
Qed.
End Suites.

(** ** Merging the settings of the build engines *)

Section SystemMerge.
Context `{BuildEngineManager.Loader}.
Import BuildEngineManager.

Lemma sweep_remaining (fromSystemSettings : bool) (engines : list Engine) (s : Sweep)
    (vmUri : string) (engineData : EngineData) :
  remaining (sweep fromSystemSettings engines s) !! vmUri = Some engineData →
  remaining s !! vmUri = Some engineData.
Proof.
  revert s. induction engines as [|e engines IH]; intros s; [done|].
  cbn [sweep]. cbv zeta.
  destruct (negb (inNewData (remaining s) e) && _); [intros Hd%IH; exact Hd|].
  destruct (autodetected e && fromSystemSettings); intros Hd%IH; cbn in Hd; [|done].
  by apply lookup_delete_Some in Hd as [_ Hd].
Qed.

Lemma sweep_system (engines : list Engine) (s : Sweep) :
  existingAreUsers (existingBuildEngines s) (kept s) →
  accountedFor s →
  let s' := sweep true engines s in
  existingAreUsers (existingBuildEngines s') (kept s')
  ∧ accountedFor s'
  ∧ ∃ part,
      kept s' = kept s ++ part
      ∧ part `sublist_of` engines
      ∧ (∀ e, e ∈ engines → autodetected e = false → e ∈ part)
      ∧ ∀ e, e ∈ engines →
          e ∈ part
          ∨ (autodetected e = true
             ∧ ∀ engineData, remaining s' !! uri e = Some engineData →
                 BUILD_ENGINE_CREATION_TIME engineData ≠ creationTime e).
Proof.
  revert s. induction engines as [|e engines IH]; intros s Hs Hacc.
  { cbn. split; [done|]. split; [done|]. exists []. rewrite app_nil_r.
    split; [done|]. split; [constructor|]. split; by intros e ?%elem_of_nil. }
  cbn [sweep]. cbv zeta. cbn [negb orb].
  destruct (negb (inNewData (remaining s) e) && autodetected e) eqn:Edrop.
  - apply andb_true_iff in Edrop as [Enew Ea].
    destruct (IH {| kept := kept s; remaining := remaining s;
                    existingBuildEngines := existingBuildEngines s;
                    sweepEvents := sweepEvents s
                                   ++ [AboutToRemoveBuildEngine (length (kept s))] |} Hs Hacc)
      as (Hex & Hacc' & part & Hkept & Hsub & Hin & Hout).
    split; [done|]. split; [done|]. exists part. split; [done|]. split; [by constructor|].
    split.
    { intros e' [->|He']%elem_of_cons Hu; [congruence|by apply Hin]. }
    intros e' [->|He']%elem_of_cons; [|by apply Hout]. right. split; [done|].
    intros d Hd%sweep_remaining. cbn in Hd. unfold inNewData in Enew.
    rewrite Hd in Enew. by apply negb_true_iff, bool_decide_eq_false in Enew.
  - rewrite andb_true_r. destruct (autodetected e) eqn:Ea.
    + destruct (IH {| kept := kept s ++ [e]; remaining := delete (uri e) (remaining s);
                      existingBuildEngines := existingBuildEngines s;
                      sweepEvents := sweepEvents s |})
        as (Hex & Hacc' & part & Hkept & Hsub & Hin & Hout).
      { intros vmUri k Hk. destruct (Hs vmUri k Hk) as (e0 & He0 & Hu).
        exists e0. split; [|done]. cbn. by apply lookup_app_l_Some. }
      { intros e0. cbn [kept remaining existingBuildEngines].
        rewrite elem_of_app, list_elem_of_singleton. intros [He0| ->].
        - specialize (Hacc e0 He0). destruct (autodetected e0); [|done].
          destruct (decide (uri e0 = uri e)) as [->|Hne];
            [apply lookup_delete_eq|by rewrite lookup_delete_ne]. 
        - rewrite Ea. apply lookup_delete_eq. }
      split; [done|]. split; [done|].
      exists (e :: part). cbn in Hkept. rewrite Hkept, <- app_assoc.
      split; [done|]. split; [by constructor|]. split.
      { intros e' [->|He']%elem_of_cons Hu; [by left|right; by apply Hin]. }
      intros e' [->|He']%elem_of_cons; [left; by left|].
      destruct (Hout e' He') as [?|?]; [left; by right|by right].
    + destruct (IH {| kept := kept s ++ [e]; remaining := remaining s;
                      existingBuildEngines :=
                        <[uri e := length (kept s)]> (existingBuildEngines s);
                      sweepEvents := sweepEvents s |})
        as (Hex & Hacc' & part & Hkept & Hsub & Hin & Hout).
      { intros vmUri k. cbn. rewrite lookup_insert_Some.
        intros [[_ <-]|[_ Hk]].
        - exists e. split; [|done]. by rewrite list_lookup_middle.
        - destruct (Hs vmUri k Hk) as (e0 & He0 & Hu).
          exists e0. split; [|done]. by apply lookup_app_l_Some. }
      { intros e0. cbn [kept remaining existingBuildEngines].
        rewrite elem_of_app, list_elem_of_singleton. intros [He0| ->].
        - specialize (Hacc e0 He0). destruct (autodetected e0); [done|].
          destruct (decide (uri e = uri e0)) as [->|Hne];
            [by rewrite lookup_insert_eq|by rewrite lookup_insert_ne].
        - rewrite Ea. by rewrite lookup_insert_eq. }
      split; [done|]. split; [done|].
      exists (e :: part). cbn in Hkept. rewrite Hkept, <- app_assoc.
      split; [done|]. split; [by constructor|]. split.
      { intros e' [->|He']%elem_of_cons Hu; [by left|right; by apply Hin]. }
      intros e' [->|He']%elem_of_cons; [left; by left|].
      destruct (Hout e' He') as [?|?]; [left; by right|by right].
Qed.

(** In a merge of the system settings the second loop only appends: each
    engine added is loaded from an item under whose VM URI nothing was
    recorded as existing, and the items are taken in their order. *)
Lemma update_system (existing : gmap string nat) (items : list (string * EngineData))
    (st : list Engine * list Event) :
  existingAreUsers existing st.1 →
  (∀ vmUri engineData, (vmUri, engineData) ∈ items →
     BUILD_ENGINE_VM_URI engineData = vmUri) →
  ∃ added,
    (update true existing items st).1 = st.1 ++ added
    ∧ Forall (λ a, ∃ engineData, (uri a, engineData) ∈ items
                                 ∧ existing !! uri a = None
                                 ∧ a = loadedFrom engineData) added
    ∧ (uri <$> added) `sublist_of` items.*1.
Proof.
  revert st. induction items as [|[vmUri engineData] items IH];
    intros [engines events] Hex Hitems.
  { exists []. rewrite app_nil_r. split; [done|]. split; constructor. }
  assert (Hstop : ∃ added,
            engines = engines ++ added
            ∧ Forall (λ a, ∃ d, (uri a, d) ∈ (vmUri, engineData) :: items
                                ∧ existing !! uri a = None
                                ∧ a = loadedFrom d) added
            ∧ (uri <$> added) `sublist_of` ((vmUri, engineData) :: items).*1).
  { exists []. rewrite app_nil_r. split; [done|]. split; [constructor|].
    apply sublist_nil_l. }
  cbn [update]. cbv zeta. cbn [andb].
  destruct (existing !! vmUri) as [k|] eqn:Ek; cbn [mbind option_bind].
  - destruct (Hex vmUri k Ek) as (e & He & Hu). cbn [fst] in He. rewrite He. cbn.
    rewrite Hu. cbn. exact Hstop.
  - destruct (engineFromMap None engineData) as [[] [engine'|]] eqn:Eload;
      try exact Hstop.
    apply engineFromMap_None in Eload as ->.
    assert (Hkey : uri (loadedFrom engineData) = vmUri).
    { cbn. apply Hitems. by left. }
    destruct (IH (engines ++ [loadedFrom engineData],
                  events ++ [BuildEngineAdded (length engines)]))
      as (added & Hadded & Hloaded & Hsub).
    { intros u k Hk. destruct (Hex u k Hk) as (e & He & Hu).
      exists e. split; [|done]. by apply lookup_app_l_Some. }
    { intros u d Hin. apply Hitems. by right. }
    exists (loadedFrom engineData :: added). rewrite Hadded. cbn [fst].
    rewrite <- app_assoc. split; [done|]. split.
    + constructor.
      * exists engineData. rewrite Hkey. split; [by left|done].
      * eapply Forall_impl; [exact Hloaded|]. intros a (d & Hin & Hnone & ->).
        exists d. split; [by right|done].
    + cbn [fmap list_fmap]. rewrite Hkey. by apply sublist_skip.
Qed.

(** X24.  A merge of the system-wide settings reloads no engine that is
    already there.  Whatever the settings hold, the engines afterwards are
    some of the old ones, unchanged and in their order, followed by the
    engines added; every engine the user defined is among the former; and
    each engine added is loaded from an entry of the settings below the
    count, has a VM URI of its own among the engines added, and has the VM
    URI of an old engine only if that engine is auto-detected, was created
    at another time and has not been kept. *)
Theorem system_settings_touch_no_existing_engine (data : Settings) (m : t) :
  ∃ kept added,
    m_buildEngines (fromMap data true m).1 = kept ++ added
    ∧ kept `sublist_of` m_buildEngines m
    ∧ (∀ e, e ∈ m_buildEngines m → autodetected e = false → e ∈ kept)
    ∧ Forall (λ a, (∀ e, e ∈ m_buildEngines m → uri e = uri a →
                      (e ∉ kept) ∧ autodetected e = true
                      ∧ creationTime e ≠ creationTime a)
                   ∧ (uri a ∉ uri <$> kept)
                   ∧ ∃ k engineData,
                       (k < Z.to_nat (BUILD_ENGINES_COUNT data))%nat
                       ∧ BUILD_ENGINES_DATA data !! k = Some engineData
                       ∧ a = loadedFrom engineData) added
    ∧ NoDup (uri <$> added).
Proof.
  assert (Hsame : ∀ engines, engines = m_buildEngines m →
            ∃ kept added, engines = kept ++ added
              ∧ kept `sublist_of` m_buildEngines m
              ∧ (∀ e, e ∈ m_buildEngines m → autodetected e = false → e ∈ kept)
              ∧ Forall (λ a, (∀ e, e ∈ m_buildEngines m → uri e = uri a →
                                (e ∉ kept) ∧ autodetected e = true
                                ∧ creationTime e ≠ creationTime a)
                             ∧ (uri a ∉ uri <$> kept)
                             ∧ ∃ k engineData,
                                 (k < Z.to_nat (BUILD_ENGINES_COUNT data))%nat
                                 ∧ BUILD_ENGINES_DATA data !! k = Some engineData
                                 ∧ a = loadedFrom engineData) added
              ∧ NoDup (uri <$> added)).
  { intros engines ->. exists (m_buildEngines m), []. rewrite app_nil_r.
    repeat split; try done; constructor. }
  unfold fromMap.
  destruct (negb (BUILD_ENGINES_VERSION data =? 1)).
  { cbn. apply (Hsame _ eq_refl). }
  cbn [m_installDir].
  destruct (QString.isEmpty (BUILD_ENGINES_INSTALL_DIR data)).
  { cbn. apply (Hsame _ eq_refl). }
  cbv zeta.
  pose proof (settings_step_keeps_engines data true m) as Hstep.
  cbv zeta in Hstep. cbn [m_customBuildHostName m_buildEnvironmentFilter] in Hstep |- *.
  match type of Hstep with
  | m_buildEngines (fst ?st) = _ ∧ _ => set (st2 := st) in *
  end.
  destruct Hstep as [Hengines _].
  destruct (collect _ _ _ _) as [newEnginesData|] eqn:Hcollect;
    [|apply (Hsame _ Hengines)].
  rewrite Hengines.
  destruct (sweep_system (m_buildEngines m)
              {| kept := []; remaining := newEnginesData;
                 existingBuildEngines := ∅; sweepEvents := st2.2 |})
    as (Hex & Hacc & part & Hkept & Hsub & Hin & Hout).
  { intros vmUri k Hk. cbn in Hk. by rewrite lookup_empty in Hk. }
  { by intros e ?%elem_of_nil. }
  pose proof (sweep_remaining true (m_buildEngines m)
                {| kept := []; remaining := newEnginesData;
                   existingBuildEngines := ∅; sweepEvents := st2.2 |}) as Hrem.
  cbn [remaining] in Hrem.
  cbn [kept app] in Hkept.
  set (s := sweep _ _ _) in *.
  assert (Hentry : ∀ vmUri engineData,
            (vmUri, engineData) ∈ keysAscending (remaining s) →
            remaining s !! vmUri = Some engineData
            ∧ BUILD_ENGINE_VM_URI engineData = vmUri
            ∧ ∃ k, (k < Z.to_nat (BUILD_ENGINES_COUNT data))%nat
                   ∧ BUILD_ENGINES_DATA data !! k = Some engineData).
  { intros vmUri engineData Hitem%elem_of_keysAscending. split; [done|].
    destruct (collect_entries _ _ _ _ _ Hcollect vmUri engineData (Hrem _ _ Hitem))
      as [?%lookup_empty_Some|(k & Hk & Hd & Huri)]; [done|].
    split; [done|]. exists k. split; [lia|done]. }
  destruct (update_system (existingBuildEngines s) (keysAscending (remaining s))
              (kept s, sweepEvents s) Hex) as (added & Hadded & Hloaded & Hsubl).
  { intros vmUri engineData Hitem. by destruct (Hentry _ _ Hitem) as (_ & ? & _). }
  destruct (update _ _ _ _) as [engines events]. cbn [fst snd] in Hadded |- *.
  cbn [withEngines m_buildEngines].
  exists part, added. rewrite Hadded, Hkept. split; [done|]. split; [done|].
  split; [done|]. split.
  - eapply Forall_impl; [exact Hloaded|]. intros a (d & Hitem & Hnone & ->).
    destruct (Hentry _ _ Hitem) as (Hremaining & _ & k & Hk & Hd).
    assert (Hfresh : ∀ e, e ∈ part → uri e ≠ uri (loadedFrom d)).
    { intros e He Huri. rewrite <- Hkept in He.
      specialize (Hacc e He). rewrite Huri in Hacc.
      destruct (autodetected e); [congruence|].
      rewrite Hnone in Hacc. by destruct Hacc. }
    split; [|split].
    + intros e He Huri. destruct (Hout e He) as [Hpart|[Hauto Htime]].
      { by destruct (Hfresh e Hpart). }
      split; [intros Hpart; by destruct (Hfresh e Hpart)|]. split; [done|].
      intros Htimes. apply (Htime d); [by rewrite Huri|]. by rewrite Htimes.
    + intros (e & Huri & He)%list_elem_of_fmap. by destruct (Hfresh e He).
    + by exists k, d.
  - eapply sublist_NoDup; [|exact Hsubl]. apply NoDup_keysAscending.
Qed.
End SystemMerge.

Section Unusable.
Context `{BuildEngineManager.Loader}.
Import BuildEngineManager.

Lemma collect_None (data : gmap nat EngineData) (n i : nat)
    (newEnginesData : gmap string EngineData) :
  collect data n i newEnginesData = None
  ↔ ∃ k, (i ≤ k < i + n)%nat
         ∧ (data !! k = None
            ∨ ∃ engineData, data !! k = Some engineData
                            ∧ BUILD_ENGINE_VM_URI engineData = EmptyString).
Proof.
  revert i newEnginesData. induction n as [|n IH]; intros i newEnginesData.
  { cbn. split; [done|]. intros (k & ? & _). lia. }
  cbn [collect]. destruct (data !! i) as [engineData|] eqn:Ei; cbn [mbind option_bind].
  - destruct (QString.isEmpty (BUILD_ENGINE_VM_URI engineData)) eqn:Ee.
    + apply isEmpty_true in Ee. split; [intros _|done].
      exists i. split; [lia|]. right. by exists engineData.
    + rewrite IH. split.
      * intros (k & Hk & Hbad). exists k. split; [lia|done].
      * intros (k & Hk & Hbad). exists k. split; [|done].
        destruct (decide (k = i)) as [->|]; [|lia]. exfalso.
        destruct Hbad as [Hbad|(d & Hd & Hu)]; [congruence|].
        simplify_eq. by rewrite Hu in Ee.
  - split; [intros _|done]. exists i. split; [lia|by left].
Qed.

Lemma setters_emit_no_engine_event (data : Settings) (fromSystemSettings : bool) (m : t) :
  let m0 := {| m_buildEngines := m_buildEngines m;
               m_installDir := BUILD_ENGINES_INSTALL_DIR data;
               m_customBuildHostName := m_customBuildHostName m;
               m_buildEnvironmentFilter := m_buildEnvironmentFilter m |} in
  let st1 :=
    if negb fromSystemSettings || bool_decide (m_customBuildHostName m0 = None)
    then setCustomBuildHostName (BUILD_ENGINES_CUSTOM_BUILD_HOST_NAME data) (m0, [])
    else (m0, []) in
  let st2 :=
    if negb fromSystemSettings || bool_decide (m_buildEnvironmentFilter st1.1 = [])
    then setBuildEnvironmentFilter (BUILD_ENGINES_BUILD_ENVIRONMENT_FILTER data) st1
    else st1 in
  List.filter isEngineListEvent st2.2 = [].
Proof.
  cbv zeta. unfold setCustomBuildHostName, setBuildEnvironmentFilter.
  repeat match goal with
         | |- context [if ?b then _ else _] => destruct b; cbn
         end; done.
Qed.

Lemma sweep_events (fromSystemSettings : bool) (engines : list Engine) (s : Sweep) :
  ∃ removals,
    sweepEvents (sweep fromSystemSettings engines s)
    = sweepEvents s ++ (AboutToRemoveBuildEngine <$> removals).
Proof.
  revert s. induction engines as [|e engines IH]; intros s.
  { exists []. cbn. by rewrite app_nil_r. }
  cbn [sweep]. cbv zeta.
  destruct (negb (inNewData (remaining s) e) && _).
  - destruct (IH {| kept := kept s; remaining := remaining s;
                    existingBuildEngines := existingBuildEngines s;
                    sweepEvents := sweepEvents s
                                   ++ [AboutToRemoveBuildEngine (length (kept s))] |})
      as [removals Hr].
    exists (length (kept s) :: removals). rewrite Hr. cbn. by rewrite <- app_assoc.
  - destruct (autodetected e && fromSystemSettings);
      match goal with
      | |- context [sweep _ _ ?s'] => destruct (IH s') as [removals Hr]
      end; exists removals; by rewrite Hr.
Qed.

Lemma withEngines_same (m : t) : withEngines (m_buildEngines m) m = m.
Proof. by destruct m. Qed.

Lemma fromMap_settings (data : Settings) (fromSystemSettings : bool) (m : t) :
  BUILD_ENGINES_VERSION data = 1 →
  BUILD_ENGINES_INSTALL_DIR data ≠ EmptyString →
  let st := settingsStep data fromSystemSettings m in
  ∃ engines removals additions,
    fromMap data fromSystemSettings m
    = (withEngines engines st.1,
       st.2 ++ (AboutToRemoveBuildEngine <$> removals)
            ++ (BuildEngineAdded <$> additions)).
Proof.
  intros Hv Hdir. cbv zeta. unfold fromMap. rewrite Hv. cbn [Z.eqb Pos.eqb negb].
  cbn [m_installDir].
  destruct (QString.isEmpty (BUILD_ENGINES_INSTALL_DIR data)) eqn:Ee.
  { by apply isEmpty_true in Ee. }
  cbv zeta. fold (settingsStep data fromSystemSettings m).
  set (st := settingsStep data fromSystemSettings m).
  destruct (collect _ _ _ _) as [newEnginesData|].
  - destruct (sweep_events fromSystemSettings (m_buildEngines st.1)
                {| kept := []; remaining := newEnginesData;
                   existingBuildEngines := ∅; sweepEvents := st.2 |}) as [removals Hr].
    set (s := sweep _ _ _) in *.
    pose proof (update_keeps fromSystemSettings (existingBuildEngines s)
                  (keysAscending (remaining s)) (kept s, sweepEvents s)) as Hu.
    cbv zeta in Hu. destruct (update _ _ _ _) as [engines events].
    destruct Hu as [_ [additions Ha]]. cbn in Ha, Hr.
    exists engines, removals, additions. by rewrite Ha, Hr, <- app_assoc.
  - exists (m_buildEngines st.1), [], []. rewrite withEngines_same. cbn.
    rewrite app_nil_r. by destruct st.
Qed.

(** X25.  Settings that cannot be used leave the engines alone.  With a
    version other than 1 [fromMap] changes nothing at all.  With version 1
    the install directory is taken from the settings even when it is
    empty; and with an empty install directory, or an engine below the
    count whose entry is missing or has no VM URI, no engine is added,
    removed or reloaded and no signal about the list is emitted. *)
Theorem unusable_settings_leave_the_engines (data : Settings)
    (fromSystemSettings : bool) (m : t) :
  let count := Z.to_nat (BUILD_ENGINES_COUNT data) in
  let r := fromMap data fromSystemSettings m in
  (BUILD_ENGINES_VERSION data ≠ 1 → r = (m, []))
  ∧ (BUILD_ENGINES_VERSION data = 1 →
     m_installDir r.1 = BUILD_ENGINES_INSTALL_DIR data)
  ∧ (BUILD_ENGINES_INSTALL_DIR data = EmptyString
     ∨ (∃ k, (k < count)%nat
             ∧ (BUILD_ENGINES_DATA data !! k = None
                ∨ ∃ engineData, BUILD_ENGINES_DATA data !! k = Some engineData
                                ∧ BUILD_ENGINE_VM_URI engineData = EmptyString)) →
     m_buildEngines r.1 = m_buildEngines m
     ∧ List.filter isEngineListEvent r.2 = []).
Proof.
  cbv zeta. split.
  { intros Hv. unfold fromMap. by destruct (Z.eqb_spec (BUILD_ENGINES_VERSION data) 1). }
  split.
  { intros Hv.
    destruct (decide (BUILD_ENGINES_INSTALL_DIR data = EmptyString)) as [Hdir|Hdir].
    - unfold fromMap. rewrite Hv, Hdir. done.
    - destruct (fromMap_settings data fromSystemSettings m Hv Hdir)
        as (engines & removals & additions & ->).
      cbn [fst withEngines m_installDir].
      unfold settingsStep, setCustomBuildHostName, setBuildEnvironmentFilter.
      repeat match goal with
             | |- context [if ?b then _ else _] => destruct b; cbn
             end; done. }
  intros Hbad. unfold fromMap.
  destruct (negb (BUILD_ENGINES_VERSION data =? 1)); [done|].
  cbn [m_installDir].
  destruct (QString.isEmpty (BUILD_ENGINES_INSTALL_DIR data)) eqn:Ee; [done|].
  destruct Hbad as [Hdir|Hbad]; [by rewrite Hdir in Ee|].
  cbv zeta.
  pose proof (settings_step_keeps_engines data fromSystemSettings m) as Hstep.
  pose proof (setters_emit_no_engine_event data fromSystemSettings m) as Hquiet.
  cbv zeta in Hstep, Hquiet.
  cbn [m_customBuildHostName m_buildEnvironmentFilter] in Hstep, Hquiet |- *.
  match type of Hstep with
  | m_buildEngines (fst ?st) = _ ∧ _ => set (st2 := st) in *
  end.
  destruct Hstep as [Hengines _].
  assert (Hnone : collect (BUILD_ENGINES_DATA data)
                    (Z.to_nat (BUILD_ENGINES_COUNT data)) 0 ∅ = None).
  { apply collect_None. destruct Hbad as (k & Hk & Hbad). exists k. split; [lia|done]. }
  by rewrite Hnone.
Qed.
End Unusable.

Section Precedence.
Context `{BuildEngineManager.Loader}.
Import BuildEngineManager.

(** X26.  The user's choice of build host name and environment filter
    wins over the system's.  A merge of system-wide settings leaves a host
    name that is not null and a filter that is not empty as they are and
    emits no change signal for them; a merge of the user's settings takes
    both from the settings. *)
Theorem user_settings_win_over_system_settings (data : Settings) (m : t) :
  BUILD_ENGINES_VERSION data = 1 →
  BUILD_ENGINES_INSTALL_DIR data ≠ EmptyString →
  let system := fromMap data true m in
  let user := fromMap data false m in
  (m_customBuildHostName m ≠ None →
     m_customBuildHostName system.1 = m_customBuildHostName m
     ∧ ∀ hostName, CustomBuildHostNameChanged hostName ∉ system.2)
  ∧ (m_buildEnvironmentFilter m ≠ [] →
     m_buildEnvironmentFilter system.1 = m_buildEnvironmentFilter m
     ∧ ∀ filter, BuildEnvironmentFilterChanged filter ∉ system.2)
  ∧ qstringEqb (m_customBuildHostName user.1)
      (BUILD_ENGINES_CUSTOM_BUILD_HOST_NAME data) = true
  ∧ m_buildEnvironmentFilter user.1 = BUILD_ENGINES_BUILD_ENVIRONMENT_FILTER data.
Proof.
  intros Hv Hdir. cbv zeta.
  destruct (fromMap_settings data true m Hv Hdir) as (e1 & r1 & a1 & ->).
  destruct (fromMap_settings data false m Hv Hdir) as (e2 & r2 & a2 & ->).
  cbn [fst snd withEngines m_customBuildHostName m_buildEnvironmentFilter].
  assert (Hengine : ∀ (ev : Event) (changes : list Event) removals additions,
            isEngineListEvent ev = false →
            ev ∈ changes ++ (AboutToRemoveBuildEngine <$> removals)
                 ++ (BuildEngineAdded <$> additions) →
            ev ∈ changes).
  { intros ev changes removals additions Hev.
    rewrite !elem_of_app, !list_elem_of_fmap.
    intros [?|[(i & -> & _)|(i & -> & _)]]; done. }
  unfold settingsStep, setCustomBuildHostName, setBuildEnvironmentFilter. cbv zeta.
  cbn [negb orb m_customBuildHostName m_buildEnvironmentFilter fst snd].
  split; [|split; [|split]].
  - intros Hset. rewrite (bool_decide_eq_false_2 (m_customBuildHostName m = None)) by done.
    cbn [fst snd m_buildEnvironmentFilter].
    destruct (bool_decide (m_buildEnvironmentFilter m = [])); cbn [fst snd];
      [destruct (bool_decide (m_buildEnvironmentFilter m = _))|];
      (split; [done|]); intros hostName Hin; (apply Hengine in Hin; [|done]); cbn in Hin;
      rewrite ?elem_of_app, ?elem_of_cons, ?elem_of_nil in Hin; intuition discriminate.
  - intros Hset.
    assert (Hsame : ∀ st : t * list Event,
              m_buildEnvironmentFilter st.1 = m_buildEnvironmentFilter m →
              bool_decide (m_buildEnvironmentFilter st.1 = []) = false).
    { intros st ->. by apply bool_decide_eq_false_2. }
    destruct (bool_decide (m_customBuildHostName m = None)); cbn [fst snd];
      [destruct (qstringEqb _ _)|]; cbn [fst snd m_buildEnvironmentFilter];
      rewrite (bool_decide_eq_false_2 (m_buildEnvironmentFilter m = [])) by done;
      cbn [fst snd m_buildEnvironmentFilter];
      (split; [done|]); intros filter Hin; (apply Hengine in Hin; [|done]); cbn in Hin;
      rewrite ?elem_of_app, ?elem_of_cons, ?elem_of_nil in Hin; intuition discriminate.
  - destruct (qstringEqb (m_customBuildHostName m) _) eqn:Eq;
      cbn [fst snd m_buildEnvironmentFilter m_customBuildHostName];
      destruct (bool_decide (m_buildEnvironmentFilter m = _));
      cbn [fst snd m_customBuildHostName]; try done;
      unfold qstringEqb; by rewrite String.eqb_refl.
  - destruct (qstringEqb (m_customBuildHostName m) _);
      cbn [fst snd m_buildEnvironmentFilter m_customBuildHostName];
      destruct (bool_decide_reflect (m_buildEnvironmentFilter m
                                     = BUILD_ENGINES_BUILD_ENVIRONMENT_FILTER data));
      cbn [fst snd m_buildEnvironmentFilter]; done.
Qed.
End Precedence.

(** ** Adding, removing and finding build engines *)

Section EngineLists.
Import BuildEngineManager EngineList.

Lemma indexOf_None (p : Engine → bool) (engines : list Engine) :
  indexOf p engines = None ↔ List.find p engines = None.
Proof.
  induction engines as [|e engines IH]; [done|]. cbn.
  destruct (p e); [done|]. rewrite <- IH. by destruct (indexOf p engines).
Qed.

Lemma indexOf_Some (p : Engine → bool) (engines : list Engine) (k : nat) :
  indexOf p engines = Some k →
  ∃ e, engines !! k = Some e ∧ p e = true ∧ List.find p engines = Some e
       ∧ List.find p (take k engines) = None.
Proof.
  revert k. induction engines as [|e engines IH]; intros k; [done|]. cbn.
  destruct (p e) eqn:E.
  - intros [= <-]. exists e. by rewrite E.
  - destruct (indexOf p engines) as [k'|]; [|done]. intros [= <-].
    destruct (IH k' eq_refl) as (e' & ? & ? & ? & ?). exists e'. cbn. by rewrite E.
Qed.

Lemma find_app_None (p : Engine → bool) (l1 l2 : list Engine) :
  List.find p l1 = None → List.find p (l1 ++ l2) = List.find p l2.
Proof.
  induction l1 as [|e l1 IH]; [done|]. cbn. destruct (p e); [done|]. apply IH.
Qed.

Lemma find_app_Some (p : Engine → bool) (l1 l2 : list Engine) (e : Engine) :
  List.find p l1 = Some e → List.find p (l1 ++ l2) = Some e.
Proof.
  induction l1 as [|e' l1 IH]; [done|]. cbn. destruct (p e'); [done|]. apply IH.
Qed.

Lemma indexOf_app_new (p : Engine → bool) (engines : list Engine) (e : Engine) :
  List.find p engines = None → p e = true →
  indexOf p (engines ++ [e]) = Some (length engines).
Proof.
  intros Hnone He. induction engines as [|e' engines IH]; cbn.
  - by rewrite He.
  - cbn in Hnone. destruct (p e'); [done|]. by rewrite IH.
Qed.

Lemma find_delete_other (p : Engine → bool) (l : list Engine) (k : nat) (e : Engine) :
  l !! k = Some e → p e = false → List.find p (delete k l) = List.find p l.
Proof.
  revert k. induction l as [|x l IH]; intros [|k]; cbn; try done.
  - by intros [= ->] ->.
  - intros Hk He. destruct (p x); [done|]. by apply IH.
Qed.

Lemma hasUri_same (e : Engine) : hasUri (uri e) e = true.
Proof. apply String.eqb_refl. Qed.

(** X27.  [doAddBuildEngine] appends: the index returned and signalled is
    the old number of engines and the engine is at that index.  It does
    not check the URI: [buildEngine] finds the new engine by its URI only
    if no engine had that URI before, and otherwise still answers with the
    old one; lookups of other URIs are not affected. *)
Theorem added_engine_is_found_unless_the_uri_was_taken
    (e : Engine) (m : t) (events : list Event) :
  let '(m', events', index) := doAddBuildEngine e (m, events) in
  index = length (m_buildEngines m)
  ∧ m_buildEngines m' !! index = Some e
  ∧ events' = events ++ [BuildEngineAdded index]
  ∧ buildEngine (uri e) m'
    = Some (default e (buildEngine (uri e) m))
  ∧ ∀ vmUri, vmUri ≠ uri e → buildEngine vmUri m' = buildEngine vmUri m.
Proof.
  unfold doAddBuildEngine, buildEngine. cbn [withEngines m_buildEngines].
  rewrite length_app. cbn [length].
  replace (length (m_buildEngines m) + 1 - 1)%nat with (length (m_buildEngines m)) by lia.
  split; [done|]. split.
  { rewrite lookup_app_r by done. by rewrite Nat.sub_diag. }
  split; [done|]. split.
  - destruct (List.find (hasUri (uri e)) (m_buildEngines m)) as [e'|] eqn:E.
    + by rewrite (find_app_Some _ _ _ _ E).
    + rewrite (find_app_None _ _ _ E). cbn. by rewrite hasUri_same.
  - intros vmUri Hneq.
    destruct (List.find (hasUri vmUri) (m_buildEngines m)) as [e'|] eqn:E.
    + by rewrite (find_app_Some _ _ _ _ E).
    + rewrite (find_app_None _ _ _ E). cbn. unfold hasUri.
      by destruct (String.eqb_spec (uri e) vmUri).
Qed.

(** X28.  [removeBuildEngine] removes the engine [buildEngine] finds.
    When no engine has the URI nothing changes and nothing is signalled;
    otherwise the engine removed is the first one with that URI, the one
    [buildEngine] answers with, its index is announced before, and the
    lookups of other URIs are not affected. *)
Theorem removing_takes_the_first_engine_of_that_uri
    (vmUri : string) (m : t) (events : list Event) :
  match buildEngine vmUri m with
  | None => removeBuildEngine vmUri (m, events) = (m, events)
  | Some e =>
      ∃ index,
        m_buildEngines m !! index = Some e
        ∧ buildEngine vmUri (withEngines (take index (m_buildEngines m)) m) = None
        ∧ removeBuildEngine vmUri (m, events)
          = (withEngines (delete index (m_buildEngines m)) m,
             events ++ [AboutToRemoveBuildEngine index])
        ∧ ∀ other, other ≠ vmUri →
            buildEngine other (withEngines (delete index (m_buildEngines m)) m)
            = buildEngine other m
  end.
Proof.
  unfold buildEngine, removeBuildEngine.
  destruct (indexOf (hasUri vmUri) (m_buildEngines m)) as [k|] eqn:E.
  - destruct (indexOf_Some _ _ _ E) as (e & Hk & He & -> & Hbefore).
    exists k. cbn [withEngines m_buildEngines]. repeat split; [done..|].
    intros other Hother. apply (find_delete_other _ _ _ e); [done|].
    unfold hasUri in *. apply String.eqb_eq in He.
    destruct (String.eqb_spec (uri e) other); congruence.
  - apply indexOf_None in E. by rewrite E.
Qed.

(** X29.  Removing an engine just added restores the manager, when no
    engine had its URI before: the list is as it was, and the two signals
    carry the same index, the old number of engines. *)
Theorem add_then_remove_restores_the_list
    (e : Engine) (m : t) (events : list Event) :
  buildEngine (uri e) m = None →
  removeBuildEngine (uri e) (doAddBuildEngine e (m, events)).1
  = (m, events ++ [BuildEngineAdded (length (m_buildEngines m));
                   AboutToRemoveBuildEngine (length (m_buildEngines m))]).
Proof.
  unfold buildEngine. intros Hnone.
  unfold doAddBuildEngine, removeBuildEngine. cbn [fst withEngines m_buildEngines].
  rewrite (indexOf_app_new _ _ _ Hnone (hasUri_same e)).
  rewrite length_app. cbn [length].
  replace (length (m_buildEngines m) + 1 - 1)%nat with (length (m_buildEngines m)) by lia.
  rewrite <- app_assoc. cbn [app]. f_equal.
  replace (delete (length (m_buildEngines m)) (m_buildEngines m ++ [e]))
    with (m_buildEngines m); [by destruct m|].
  generalize (m_buildEngines m) as l. induction l as [|x l IH]; [done|].
  cbn. f_equal. exact IH.
Qed.
End EngineLists.

(** ** The default build host name *)

Section HostNames.
Import HostName.

(** X30.  The default build host name is never empty and never the bare
    [localhost]: it is the looked-up name if that is useful (not empty and
    not a name of the loopback), else the local host name if that is
    useful, else [localhost.localdomain]. *)
Theorem default_host_name_is_never_empty (infoHostName localHostName : string) :
  let hostName := completeHostNameLookup infoHostName localHostName in
  hostName ≠ EmptyString
  ∧ hostName ≠ "localhost"%string
  ∧ hostName
    = (if useful infoHostName then infoHostName
       else if useful localHostName then localHostName
       else "localhost.localdomain"%string).
Proof.
  cbv zeta. unfold completeHostNameLookup, QStringList.removeAll, useful. cbn.
  repeat match goal with
         | |- context [String.eqb ?a ?b] =>
             destruct (String.eqb_spec a b) as [->|?]; cbn
         end;
    repeat split; done.
Qed.
End HostNames.

(** ** The statements above, on the sample inputs *)

Lemma cached_data_stay_in_step_witness :
  ∃ e' ev,
    BuildEnginePrivate.updateBuildTargets (H := ReferencePaths.paths) false
      SampleTargets.candidates SampleSnapshots.engine = Some (e', ev)
    ∧ Forall2 (inStep (H := ReferencePaths.paths) e')
        (BuildEnginePrivate.buildTargets e') (BuildEnginePrivate.buildTargetsData e')
    ∧ dataName <$> BuildEnginePrivate.buildTargetsData e'
      = name <$> BuildEnginePrivate.buildTargets e'
    ∧ dataOrigin <$> BuildEnginePrivate.buildTargetsData e'
      = origin <$> BuildEnginePrivate.buildTargets e'.
Proof.
  apply (cached_data_stay_in_step (H := ReferencePaths.paths) false
           SampleTargets.candidates SampleSnapshots.engine).
  repeat (constructor; [split; vm_compute; reflexivity|]). constructor.
Defined.

Lemma changed_dumps_are_updated_in_place_witness :
  BuildEnginePrivate.updateBuildTargets (H := ReferencePaths.paths) false
    SampleSnapshots.updatedTargets SampleSnapshots.engine
  = Some (BuildEnginePrivate.withTargets SampleSnapshots.updatedTargets
            (BuildEnginePrivate.buildTargetsData SampleSnapshots.engine)
            SampleSnapshots.engine,
          [TargetUpdated 0; DeinitBuildTargetAt 0; InitBuildTargetAt 0;
           TargetUpdated 1; DeinitBuildTargetAt 1; InitBuildTargetAt 1;
           TargetUpdated 2; DeinitBuildTargetAt 2; InitBuildTargetAt 2]).
Proof.
  apply (changed_dumps_are_updated_in_place (H := ReferencePaths.paths) false
           SampleSnapshots.updatedTargets SampleSnapshots.engine).
  - repeat (constructor; [split; vm_compute; reflexivity|]). constructor.
  - repeat (constructor; [repeat split; vm_compute; reflexivity|]). constructor.
  - apply (bool_decide_unpack _). vm_compute. exact I.
  - vm_compute. reflexivity.
Defined.

Lemma notifications_name_valid_positions_witness :
  ∃ e' ev,
    BuildEnginePrivate.updateBuildTargets (H := ReferencePaths.paths) false
      SampleTargets.candidates SampleSnapshots.engine = Some (e', ev)
    ∧ removedIndices ev = [2; 0]%nat
    ∧ addedIndices ev = [1]%nat
    ∧ StronglySorted (λ i j, (j < i)%nat) (removedIndices ev)
    ∧ Forall (λ i, (i < 3)%nat) (removedIndices ev)
    ∧ length (BuildEnginePrivate.buildTargets e') = 2%nat.
Proof.
  eassert (BuildEnginePrivate.updateBuildTargets (H := ReferencePaths.paths) false
             SampleTargets.candidates SampleSnapshots.engine = Some (_, _)) as Hrun
    by (vm_compute; reflexivity).
  eexists _, _. split; [exact Hrun|].
  split; [reflexivity|]. split; [reflexivity|].
  destruct (notifications_name_valid_positions (H := ReferencePaths.paths) false
              SampleTargets.candidates SampleSnapshots.engine _ _ Hrun)
    as (Hsorted & Hinside & _ & Hlength).
  split; [exact Hsorted|]. split; [exact Hinside|exact Hlength].
Defined.

Lemma first_load_adds_in_order_witness :
  BuildEnginePrivate.updateBuildTargets (H := ReferencePaths.paths) false
    SampleTargets.candidates SampleSnapshots.emptyEngine
  = Some (BuildEnginePrivate.withTargets
            [SampleTargets.target "armv7hl.default" "armv7hl" "5.6";
             SampleTargets.target "aarch64" EmptyString "5.6"]
            (BuildEnginePrivate.createTargetData (H := ReferencePaths.paths)
               SampleSnapshots.emptyEngine
               <$> [SampleTargets.target "armv7hl.default" "armv7hl" "5.6";
                    SampleTargets.target "aarch64" EmptyString "5.6"])
            SampleSnapshots.emptyEngine,
          [InitBuildTargetAt 0; BuildTargetAdded 0;
           InitBuildTargetAt 1; BuildTargetAdded 1]).
Proof.
  apply (first_load_adds_in_order (H := ReferencePaths.paths) false
           SampleTargets.candidates SampleSnapshots.emptyEngine).
  reflexivity.
Defined.

Lemma empty_listing_clears_the_cache_witness :
  BuildEnginePrivate.updateBuildTargets (H := ReferencePaths.paths) false
    [SampleTargets.target "i486." "i486" "5.6"] SampleSnapshots.engine
  = Some (BuildEnginePrivate.withTargets [] [] SampleSnapshots.engine,
          [AboutToRemoveBuildTarget 2; DeinitBuildTargetAt 2;
           AboutToRemoveBuildTarget 1; DeinitBuildTargetAt 1;
           AboutToRemoveBuildTarget 0; DeinitBuildTargetAt 0]).
Proof.
  apply (empty_listing_clears_the_cache (H := ReferencePaths.paths) false
           [SampleTargets.target "i486." "i486" "5.6"] SampleSnapshots.engine).
  - vm_compute. reflexivity.
  - reflexivity.
Defined.

Lemma snapshot_suffix_is_read_off_the_name_witness :
  let data :=
    BuildEnginePrivate.createTargetData (H := ReferencePaths.paths)
      SampleSnapshots.emptyEngine
      (SampleTargets.target "armv7hl.pool.000" "armv7hl" "5.6") in
  snapshotSuffix data = "pool.000"%string
  ∧ dataFlags data = [Snapshot].
Proof.
  apply (snapshot_suffix_is_read_off_the_name (H := ReferencePaths.paths)
           SampleSnapshots.emptyEngine
           (SampleTargets.target "armv7hl.pool.000" "armv7hl" "5.6") "pool.000").
  reflexivity.
Defined.

Lemma snapshot_lookup_by_origin_witness :
  let found := BuildEngine.buildTargetByOrigin SampleSnapshots.engine "armv7hl" None in
  found ∈ BuildEnginePrivate.buildTargetsData SampleSnapshots.engine
  ∧ dataOrigin found = "armv7hl"%string
  ∧ dataName found = "armv7hl.default"%string.
Proof.
  destruct (snapshot_lookup_by_origin (H := ReferencePaths.paths) SampleSnapshots.engine
              "armv7hl" None) as (_ & _ & Hfound).
  - repeat (constructor; [split; vm_compute; reflexivity|]). constructor.
  - intros target Hin Horigin.
    change (target ∈ SampleSnapshots.targets) in Hin.
    unfold SampleSnapshots.targets in Hin.
    rewrite !elem_of_cons, elem_of_nil in Hin.
    destruct Hin as [-> | [-> | [-> | []]]].
    + by destruct Horigin.
    + exists "default"%string. split; [discriminate|reflexivity].
    + exists "pool.000"%string. split; [discriminate|reflexivity].
  - apply Hfound; [discriminate|discriminate|].
    exists (SampleTargets.target "armv7hl.default" "armv7hl" "5.6").
    split; [|split; reflexivity].
    change (SampleTargets.target "armv7hl.default" "armv7hl" "5.6"
              ∈ SampleSnapshots.targets).
    unfold SampleSnapshots.targets. rewrite !elem_of_cons. tauto.
Defined.

Lemma targets_survive_saving_and_loading_witness :
  ∃ targetData,
    BuildTargetDumpMap.targetsToMap (H := ReferenceTargetKeys.keys)
      SampleSnapshots.targets 0 ∅ = Some (targetData, 3%nat)
    ∧ BuildTargetDumpMap.targetsFromMap (H := ReferenceTargetKeys.keys)
        targetData 3 0 [] = Some SampleSnapshots.targets
    ∧ ∀ target,
        BuildTargetDumpMap.fromMap (H := ReferenceTargetKeys.keys)
          (BuildTargetDumpMap.toMap (H := ReferenceTargetKeys.keys) target) = target.
Proof.
  apply (targets_survive_saving_and_loading (H := ReferenceTargetKeys.keys)
           SampleSnapshots.targets).
  apply (bool_decide_unpack _). vm_compute. exact I.
Defined.

Lemma validation_suites_round_trip_witness :
  BuildEnginePrivate.rpmValidationSuitesFromString
    (rpmValidationSuitesToString SampleSnapshots.suites)
  = SampleSnapshots.suites.
Proof.
  apply (validation_suites_round_trip SampleSnapshots.suites).
  apply Forall_cons. split; [|apply Forall_cons; split; [|constructor]].
  - split; [vm_compute; reflexivity|]. split; [left; reflexivity|].
    split; vm_compute; reflexivity.
  - split; [vm_compute; reflexivity|].
    split; [right; split; [vm_compute; reflexivity|discriminate]|].
    split; vm_compute; reflexivity.
Defined.

Lemma corrupted_line_ends_the_listing_witness :
  BuildEnginePrivate.rpmValidationSuitesFromString
    (rpmValidationSuitesToString SampleSnapshots.suites
       +:+ "No suites" +:+ newline +:+ "more Optional - More suites")
  = SampleSnapshots.suites.
Proof.
  apply (corrupted_line_ends_the_listing SampleSnapshots.suites "No suites"
           "more Optional - More suites").
  - apply Forall_cons. split; [|apply Forall_cons; split; [|constructor]].
    + split; [vm_compute; reflexivity|]. split; [left; reflexivity|].
      split; vm_compute; reflexivity.
    + split; [vm_compute; reflexivity|].
      split; [right; split; [vm_compute; reflexivity|discriminate]|].
      split; vm_compute; reflexivity.
  - reflexivity.
  - vm_compute. lia.
Defined.

Lemma user_settings_win_over_system_settings_witness :
  let system :=
    BuildEngineManager.fromMap (H := BuildEngineManager.ReferenceLoader.loader)
      SampleSnapshots.hostData true SampleSnapshots.manager in
  let user :=
    BuildEngineManager.fromMap (H := BuildEngineManager.ReferenceLoader.loader)
      SampleSnapshots.hostData false SampleSnapshots.manager in
  BuildEngineManager.m_customBuildHostName system.1 = Some "laptop"%string
  ∧ BuildEngineManager.m_buildEnvironmentFilter system.1 = ["QT_*"%string]
  ∧ BuildEngineManager.m_customBuildHostName user.1 = Some "builder"%string
  ∧ BuildEngineManager.m_buildEnvironmentFilter user.1 = ["SAILFISH_*"%string].
Proof.
  destruct (user_settings_win_over_system_settings
              (H := BuildEngineManager.ReferenceLoader.loader)
              SampleSnapshots.hostData SampleSnapshots.manager)
    as (Hhost & Hfilter & _ & Huser); [reflexivity|discriminate|].
  cbv zeta. split; [apply Hhost; discriminate|].
  split; [apply Hfilter; discriminate|].
  split; [reflexivity|exact Huser].
Defined.

Lemma add_then_remove_restores_the_list_witness :
  EngineList.removeBuildEngine (BuildEngineManager.uri SampleEngines.sdkEngine)
    (EngineList.doAddBuildEngine SampleEngines.sdkEngine (SampleSnapshots.manager, [])).1
  = (SampleSnapshots.manager,
     [BuildEngineManager.BuildEngineAdded 1;
      BuildEngineManager.AboutToRemoveBuildEngine 1]).
Proof.
  apply (add_then_remove_restores_the_list SampleEngines.sdkEngine
           SampleSnapshots.manager []).
  reflexivity.
Defined.
